(** * christmas-tree: animation state machine, particle motion and triggers

    A shallow embedding of the animation module (the frame loop
    [animate], [animateParticles], [animateSingleParticle],
    [setAnimationState]) and of the two versions of the event module
    ([triggerExplosion], [clearReturnTimer]) of the repository, with the
    properties of the specification proved or refuted on it.

    JavaScript numbers are IEEE 754 binary64 values: they are Rocq's
    primitive floats, so a literal such as [0.1] denotes the same double
    as in the source and [NaN] behaves as it does in the browser.
    [Math.sin] and [Math.cos] are host functions and are section
    variables. *)

From Stdlib Require Import Floats ZArith Uint63 List Bool Lia.
From Stdlib Require String.
Import ListNotations.
Import String.StringSyntax.
Delimit Scope string_scope with string.

Set Warnings "-inexact-float".
Local Open Scope float_scope.

(** ** Numbers *)

(** A [forEach] index is an integer-valued JavaScript number. *)
Definition num (index : nat) : float :=
  PrimFloat.of_uint63 (Uint63.of_Z (Z.of_nat index)).

(** ** three.js vectors

    The methods are those of three.js' [Vector3] that the repository
    calls: [lerp], [multiplyScalar], [distanceTo]. *)

Module Vector2.
Record t : Set := make { x : float; y : float }.
End Vector2.

Module Vector3.
Record t : Set := make { x : float; y : float; z : float }.

(** [this.x += (v.x - this.x) * alpha], and so on for y and z. *)
Definition lerp (this v : t) (alpha : float) : t :=
  make (x this + (x v - x this) * alpha)
       (y this + (y v - y this) * alpha)
       (z this + (z v - z this) * alpha).

(** [this.x *= s], and so on for y and z. *)
Definition multiplyScalar (this : t) (s : float) : t :=
  make (x this * s) (y this * s) (z this * s).

Definition distanceToSquared (this v : t) : float :=
  let dx := x this - x v in
  let dy := y this - y v in
  let dz := z this - z v in
  dx * dx + dy * dy + dz * dz.

Definition distanceTo (this v : t) : float :=
  PrimFloat.sqrt (distanceToSquared this v).
End Vector3.

(** ** Data model *)

Inductive AnimationState : Set := IDLE | EXPLODING | RETURNING.

Definition AnimationState_eqb (a b : AnimationState) : bool :=
  match a, b with
  | IDLE, IDLE | EXPLODING, EXPLODING | RETURNING, RETURNING => true
  | _, _ => false
  end.

(** The fields of CONFIG that the animation and event modules read. *)
Record Config : Set := {
  animationSpeed : float;
  idleFloatSpeed : float;
  idleFloatAmount : float;
  explodedParallaxEnabled : bool;
  explodedParallaxStrength : float;
  holdDuration : float;
  reassembleOnClick : bool;
  uncapFPS : bool;
  showFPS : bool
}.

(** [mesh.userData].  It is a free-form object: the fields are there when
    the mesh was built by [createParticleUserData], and reading a
    property of a missing one ([undefined.x]) raises a TypeError, so the
    object-valued fields are options.  A missing
    [baseParallaxSensitivity] is [undefined], which arithmetic turns
    into NaN. *)
Record UserData : Set := {
  originalPos : option Vector3.t;
  explosionTarget : option Vector3.t;
  rotSpeed : option Vector3.t;
  individualParallaxShift : option Vector3.t;
  baseParallaxSensitivity : float
}.

(** A particle is a THREE.Mesh: [position] and [rotation] always exist. *)
Record Particle : Set := {
  position : Vector3.t;
  rotation : Vector3.t;
  userData : UserData
}.

Definition set_position (v : Vector3.t) (p : Particle) : Particle :=
  {| position := v; rotation := rotation p; userData := userData p |}.

Definition set_rotation (v : Vector3.t) (p : Particle) : Particle :=
  {| position := position p; rotation := v; userData := userData p |}.

Definition set_individualParallaxShift (v : Vector3.t) (p : Particle)
  : Particle :=
  {| position := position p;
     rotation := rotation p;
     userData :=
       {| originalPos := originalPos (userData p);
          explosionTarget := explosionTarget (userData p);
          rotSpeed := rotSpeed (userData p);
          individualParallaxShift := Some v;
          baseParallaxSensitivity := baseParallaxSensitivity (userData p) |}
  |}.

(** ** Statements that mutate one object and may throw

    A computation takes the object as it is, and gives it back as the
    statements executed so far have left it, together with the way the
    computation ended: normally with a value, or with a TypeError. *)

Inductive completion (A : Type) : Type :=
| Normal (a : A)
| Throw.
Arguments Normal {A} a.
Arguments Throw {A}.

Definition Js (S A : Type) : Type := S -> S * completion A.

Definition ret {S A} (a : A) : Js S A := fun s => (s, Normal a).

Definition bind {S A B} (m : Js S A) (k : A -> Js S B) : Js S B :=
  fun s =>
    match m s with
    | (s', Normal a) => k a s'
    | (s', Throw) => (s', Throw)
    end.

Definition throw {S A} : Js S A := fun s => (s, Throw).

Definition get {S} : Js S S := fun s => (s, Normal s).

Definition modify {S} (f : S -> S) : Js S unit := fun s => (f s, Normal tt).

(** Reading a property of an object-valued field: a TypeError when the
    field is missing. *)
Definition field {S A} (f : S -> option A) : Js S A :=
  fun s => match f s with Some a => (s, Normal a) | None => (s, Throw) end.

Declare Scope js_scope.
Delimit Scope js_scope with js.
Notation "x <- m ;; k" := (bind m (fun x => k))
  (at level 61, m at next level, right associativity) : js_scope.
Notation "m ;; k" := (bind m (fun _ => k))
  (at level 61, right associativity) : js_scope.

(** ** The motion integrator: [animateSingleParticle] *)

Section Integrator.

Variables Math_sin Math_cos : float -> float.

Variable CONFIG : Config.

(** [getMouseFn], null until [initAnimation] has run; when set it
    returns the shared mouse vector. *)
Variable getMouseFn : option Vector2.t.

Definition animateSingleParticle (animationState : AnimationState)
  (index : nat) (time : float) : Js Particle unit :=
  ( (* Constant gentle rotation for all states *)
    rs <- field (fun p => rotSpeed (userData p)) ;;
    modify (fun p =>
      set_rotation
        (Vector3.make (Vector3.x (rotation p) + Vector3.x rs)
                      (Vector3.y (rotation p) + Vector3.y rs)
                      (Vector3.z (rotation p) + Vector3.z rs)) p) ;;
    match animationState with
    | IDLE =>
        let floatOffset :=
          Math_sin (time * idleFloatSpeed CONFIG + num index * 0.1)
          * idleFloatAmount CONFIG in
        op <- field (fun p => originalPos (userData p)) ;;
        modify (fun p =>
          set_position
            (Vector3.make (Vector3.x op)
                          (Vector3.y op + floatOffset)
                          (Vector3.z op)) p)
    | EXPLODING =>
        let mouse :=
          match getMouseFn with
          | Some m => m
          | None => Vector2.make 0 0
          end in
        p0 <- get ;;
        sh <- field (fun p => individualParallaxShift (userData p)) ;;
        (if explodedParallaxEnabled CONFIG then
           let parallaxX :=
             Vector2.x mouse * explodedParallaxStrength CONFIG
             * baseParallaxSensitivity (userData p0) in
           let parallaxY :=
             Vector2.y mouse * explodedParallaxStrength CONFIG
             * baseParallaxSensitivity (userData p0) in
           modify (set_individualParallaxShift
             (Vector3.make
                (Vector3.x sh + (parallaxX - Vector3.x sh) * 0.08)
                (Vector3.y sh + (parallaxY - Vector3.y sh) * 0.08)
                (Vector3.z sh)))
         else
           modify (set_individualParallaxShift
             (Vector3.make (Vector3.x sh * 0.95)
                           (Vector3.y sh * 0.95)
                           (Vector3.z sh)))) ;;
        (* Calculate target position with parallax applied *)
        sh' <- field (fun p => individualParallaxShift (userData p)) ;;
        et <- field (fun p => explosionTarget (userData p)) ;;
        let targetX := Vector3.x et + Vector3.x sh' in
        let targetY := Vector3.y et + Vector3.y sh' in
        let targetZ := Vector3.z et in
        (* Lerp toward parallax-adjusted target *)
        modify (fun p =>
          set_position
            (Vector3.make
               (Vector3.x (position p)
                + (targetX - Vector3.x (position p)) * animationSpeed CONFIG)
               (Vector3.y (position p)
                + (targetY - Vector3.y (position p)) * animationSpeed CONFIG)
               (Vector3.z (position p)
                + (targetZ - Vector3.z (position p)) * animationSpeed CONFIG))
            p) ;;
        (* Add subtle floating motion on top *)
        let floatOffset :=
          Math_sin (time * idleFloatSpeed CONFIG * 2 + num index * 0.1)
          * idleFloatAmount CONFIG in
        modify (fun p =>
          set_position
            (Vector3.make
               (Vector3.x (position p)
                + Math_sin (time * 0.001 + num index) * 0.01)
               (Vector3.y (position p) + floatOffset)
               (Vector3.z (position p)
                + Math_cos (time * 0.001 + num index) * 0.01))
            p) ;;
        (* Faster rotation when exploding *)
        modify (fun p =>
          set_rotation
            (Vector3.make (Vector3.x (rotation p) + 0.02)
                          (Vector3.y (rotation p) + 0.01)
                          (Vector3.z (rotation p))) p)
    | RETURNING =>
        op <- field (fun p => originalPos (userData p)) ;;
        modify (fun p =>
          set_position
            (Vector3.lerp (position p) op (animationSpeed CONFIG)) p) ;;
        (* Fade out parallax shift *)
        sh <- field (fun p => individualParallaxShift (userData p)) ;;
        modify (set_individualParallaxShift
                  (Vector3.multiplyScalar sh 0.95))
    end )%js.

End Integrator.

(** ** The shared state of the two modules and of the host

    [animationState], [particles] and [testParticles] are the variables
    of the animation module, [returnTimer] is the one of the event
    module.  [timeouts] is the part of the host's timer queue that holds
    the return closures scheduled by [triggerExplosion] and not yet fired
    or cleared, each with its handle and delay; handles are the positive
    integers that [setTimeout] hands out, so a handle is always truthy.
    [nextTimerId] is the handle that the next return closure gets: the
    host hands out others in between ([animate] drops the handle of its
    own [setTimeout(animate, 0)], which is recorded in [calls] only), and
    all that the two modules use of a handle is that it is fresh.
    [calls] records, in order, the calls made to the injected hooks and
    to the host (value getters such as [getMouseFn] leave no record); the
    hooks are opaque to the two modules and do not call back into them.

    The two collections are lists of values: every element of the arrays
    is a mesh of its own, built by [new THREE.Mesh] with a [userData] of
    its own (src/js/particles/particles.js), so no update of one particle
    is seen through another. *)

Definition timerId : Set := positive.

Inductive Call : Set :=
| CallSetTimeoutAnimate                  (* setTimeout(animate, 0) *)
| CallRequestAnimationFrame              (* requestAnimationFrame(animate) *)
| CallUpdateFps (show : bool)
| CallUpdateParallaxTargets (s : AnimationState)
| CallApplyParallaxToGroup
| CallAnimateShowcaseBox
| CallUpdateCamera (s : AnimationState)
| CallRenderShowcase
| CallPreventDefault
| CallSetAnimationState (s : AnimationState)
| CallOnExplosion
| CallOnReturn
| CallClearTimeout (h : timerId)
| CallSetTimeout (h : timerId) (delay : float).

Record World : Set := {
  animationState : AnimationState;
  particles : list Particle;
  testParticles : list Particle;
  returnTimer : option timerId;
  timeouts : list (timerId * float);
  nextTimerId : timerId;
  calls : list Call
}.

Definition set_animationState (s : AnimationState) (w : World) : World :=
  {| animationState := s; particles := particles w;
     testParticles := testParticles w; returnTimer := returnTimer w;
     timeouts := timeouts w; nextTimerId := nextTimerId w;
     calls := calls w |}.

Definition set_particles (ps tps : list Particle) (w : World) : World :=
  {| animationState := animationState w; particles := ps;
     testParticles := tps; returnTimer := returnTimer w;
     timeouts := timeouts w; nextTimerId := nextTimerId w;
     calls := calls w |}.

Definition set_returnTimer (t : option timerId) (w : World) : World :=
  {| animationState := animationState w; particles := particles w;
     testParticles := testParticles w; returnTimer := t;
     timeouts := timeouts w; nextTimerId := nextTimerId w;
     calls := calls w |}.

Definition set_timeouts (q : list (timerId * float)) (next : timerId)
  (w : World) : World :=
  {| animationState := animationState w; particles := particles w;
     testParticles := testParticles w; returnTimer := returnTimer w;
     timeouts := q; nextTimerId := next; calls := calls w |}.

Definition log (c : Call) (w : World) : World :=
  {| animationState := animationState w; particles := particles w;
     testParticles := testParticles w; returnTimer := returnTimer w;
     timeouts := timeouts w; nextTimerId := nextTimerId w;
     calls := calls w ++ [c] |}.

(** The callbacks of the animation module: null ([false], [None]) until
    [initAnimation] assigns them. *)
Record AnimationCallbacks : Set := {
  updateFpsFn : bool;
  updateParallaxTargetsFn : bool;
  applyParallaxToGroupFn : bool;
  animateShowcaseBoxFn : bool;
  renderShowcaseFn : bool;
  getMouseFn : option Vector2.t;
  getLastMouseMoveTimeFn : bool;
  updateCameraFn : bool
}.

(** ** The animation module *)

Definition setAnimationState (cb : AnimationCallbacks)
  (newState : AnimationState) (w : World) : World :=
  let w := set_animationState newState w in
  if updateCameraFn cb then log (CallUpdateCamera newState) w else w.

(** [array.forEach((x, index) => body)], where the body mutates the
    element and the local variables [L] of the enclosing function, and an
    exception leaves the loop at once. *)
Fixpoint forEach {X L : Type} (body : nat -> Js (X * L) unit)
  (index : nat) (xs : list X) (l : L) : (list X * L) * completion unit :=
  match xs with
  | [] => (([], l), Normal tt)
  | x :: rest =>
      match body index (x, l) with
      | ((x', l'), Normal _) =>
          let '((rest', l''), c) := forEach body (S index) rest l' in
          ((x' :: rest', l''), c)
      | ((x', l'), Throw) => ((x' :: rest, l'), Throw)
      end
  end.

(** Runs a computation on the element and leaves the locals alone. *)
Definition onElement {X L A} (m : Js X A) : Js (X * L) A :=
  fun s =>
    let '(x', c) := m (fst s) in ((x', snd s), c).

Section Animation.

Variables Math_sin Math_cos : float -> float.
Variable CONFIG : Config.
Variable cb : AnimationCallbacks.

(** The body of the two loops of [animateParticles]; the local is
    [allReturned]. *)
Definition animateParticles_body (state : AnimationState) (time : float)
  (index : nat) : Js (Particle * bool) unit :=
  ( onElement
      (animateSingleParticle Math_sin Math_cos CONFIG (getMouseFn cb)
         state index time) ;;
    if AnimationState_eqb state RETURNING then
      op <- field (fun s => originalPos (userData (fst s))) ;;
      modify (fun s : Particle * bool =>
        let dist := Vector3.distanceTo (position (fst s)) op in
        if 0.1 <? dist then (fst s, false) else s)
    else ret tt )%js.

Definition animateParticles (state : AnimationState) (time : float)
  (ps tps : list Particle)
  : (list Particle * list Particle) * completion bool :=
  match forEach (animateParticles_body state time) 0 ps true with
  | ((ps', _), Throw) => ((ps', tps), Throw)
  | ((ps', allReturned), Normal _) =>
      match forEach (animateParticles_body state time) 0 tps allReturned with
      | ((tps', _), Throw) => ((ps', tps'), Throw)
      | ((tps', allReturned'), Normal _) => ((ps', tps'), Normal allReturned')
      end
  end.

Definition animate (time : float) : Js World unit :=
  ( modify (log (if uncapFPS CONFIG then CallSetTimeoutAnimate
                 else CallRequestAnimationFrame)) ;;
    (* Update FPS *)
    (if updateFpsFn cb then modify (log (CallUpdateFps (showFPS CONFIG)))
     else ret tt) ;;
    (* Update parallax targets and apply to tree group *)
    (if updateParallaxTargetsFn cb && applyParallaxToGroupFn cb then
       modify (fun w => log (CallUpdateParallaxTargets (animationState w)) w) ;;
       modify (log CallApplyParallaxToGroup)
     else ret tt) ;;
    (* Animate showcase box *)
    (if animateShowcaseBoxFn cb
        && match getMouseFn cb with Some _ => true | None => false end
        && getLastMouseMoveTimeFn cb
     then modify (log CallAnimateShowcaseBox)
     else ret tt) ;;
    (* Animate particles *)
    allReturned <-
      (fun w =>
         let '((ps, tps), c) :=
           animateParticles (animationState w) time
             (particles w) (testParticles w) in
         (set_particles ps tps w, c)) ;;
    (* Transition to IDLE when all particles have returned *)
    w <- get ;;
    (if AnimationState_eqb (animationState w) RETURNING && allReturned
     then modify (setAnimationState cb IDLE)
     else ret tt) ;;
    (* Render *)
    (if renderShowcaseFn cb then modify (log CallRenderShowcase)
     else ret tt) )%js.

End Animation.

(** ** The event module

    The variables [onExplosion], [onReturn], [getAnimationState] and
    [setAnimationState] of the event module hold what [initEvents] found
    in its [callbacks] argument: a function, or nothing. *)
Record EventCallbacks : Set := {
  onExplosion : bool;
  onReturn : bool;
  getAnimationStateFn : bool;
  setAnimationStateFn : bool
}.

Inductive EventType : Set := mousedown | touchstart | touchend.

(** What [triggerExplosion] reads of the DOM event: [inGui] is whether
    [event.target.closest('.dg')] finds the control panel. *)
Record Event : Set := {
  inGui : bool;
  type : EventType
}.

Definition EventType_eqb (a b : EventType) : bool :=
  match a, b with
  | mousedown, mousedown | touchstart, touchstart | touchend, touchend => true
  | _, _ => false
  end.

(** [clearTimeout(h)]: the host drops the pending closure of handle [h]. *)
Definition clearTimeout (h : timerId) (w : World) : World :=
  log (CallClearTimeout h)
    (set_timeouts
       (filter (fun t => negb (Pos.eqb (fst t) h)) (timeouts w))
       (nextTimerId w) w).

(** [setTimeout(returnClosure, delay)]: the host queues the closure under
    a fresh handle and returns the handle. *)
Definition setTimeout (delay : float) : Js World timerId :=
  fun w =>
    let h := nextTimerId w in
    (log (CallSetTimeout h delay)
       (set_timeouts (timeouts w ++ [(h, delay)]) (Pos.succ h) w),
     Normal h).

(** [if (returnTimer) { clearTimeout(returnTimer); returnTimer = null; }] *)
Definition clearPendingTimer (w : World) : World :=
  match returnTimer w with
  | Some h => set_returnTimer None (clearTimeout h w)
  | None => w
  end.

Definition clearReturnTimer : Js World unit := modify clearPendingTimer.

Section EventHooks.

Variable acb : AnimationCallbacks.
Variable ecb : EventCallbacks.

(** Modelled from the spec: the wiring of the event module's
    [getAnimationState] and [setAnimationState] callbacks is done by the
    application's entry file, which is not among the sources.  By
    sections 4.1, 4.2 and 6 of the specification the event module reads
    and writes the state of the state machine controller, so a callback
    that is set is the animation module's exported function of the same
    name; one that is not set is called as [undefined()] and throws. *)
Definition call_getAnimationState : Js World AnimationState :=
  if getAnimationStateFn ecb then
    (w <- get ;; ret (animationState w))%js
  else throw.

Definition call_setAnimationState (s : AnimationState) : Js World unit :=
  if setAnimationStateFn ecb then
    (modify (log (CallSetAnimationState s)) ;;
     modify (setAnimationState acb s))%js
  else throw.

Definition call_onExplosion : Js World unit :=
  if onExplosion ecb then modify (log CallOnExplosion) else throw.

Definition call_onReturn : Js World unit :=
  if onReturn ecb then modify (log CallOnReturn) else throw.

(** The closure that [triggerExplosion] hands to [setTimeout]. *)
Definition returnClosure : Js World unit :=
  ( call_onReturn ;;
    call_setAnimationState RETURNING ;;
    (* IDLE transition now happens automatically based on particle
       convergence *)
    modify (set_returnTimer None) )%js.

(** The host fires the pending timeout [h]: the closure leaves the queue
    and runs.  A handle that is not pending fires nothing. *)
Definition fireTimeout (h : timerId) : Js World unit :=
  fun w =>
    if existsb (fun t => Pos.eqb (fst t) h) (timeouts w) then
      returnClosure
        (set_timeouts
           (filter (fun t => negb (Pos.eqb (fst t) h)) (timeouts w))
           (nextTimerId w) w)
    else (w, Normal tt).

(** What the two versions of [triggerExplosion] share: everything from
    [const state = getAnimationState();] on. *)
Definition triggerExplosion_fromState (CONFIG : Config) : Js World unit :=
  ( state <- call_getAnimationState ;;
    (* If already exploding and reassembleOnClick is enabled, start
       returning immediately *)
    if AnimationState_eqb state EXPLODING && reassembleOnClick CONFIG then
      (* Clear any pending timers *)
      modify clearPendingTimer ;;
      (* Trigger return callback *)
      call_onReturn ;;
      call_setAnimationState RETURNING
      (* Don't set a timer here *)
    else if negb (AnimationState_eqb state IDLE)
            && negb (AnimationState_eqb state RETURNING) then
      (* Allow exploding from IDLE or RETURNING state only *)
      ret tt
    else
      (* Clear any pending timers from previous explosion *)
      modify clearPendingTimer ;;
      call_setAnimationState EXPLODING ;;
      (* Trigger explosion callback *)
      call_onExplosion ;;
      h <- setTimeout (holdDuration CONFIG) ;;
      modify (set_returnTimer (Some h)) )%js.

End EventHooks.

(** The version of the event module whose touch listener is
    [triggerExplosion] itself (src/unnamed/part_000). *)
Module EventsDirect.

Definition triggerExplosion (acb : AnimationCallbacks)
  (ecb : EventCallbacks) (CONFIG : Config) (event : Event)
  : Js World unit :=
  if inGui event then
    (* Click was on GUI, ignore it *)
    ret tt
  else
    ( (* Only prevent default on touch events to avoid scroll/zoom *)
      (if EventType_eqb (type event) touchstart then
         modify (log CallPreventDefault)
       else ret tt) ;;
      triggerExplosion_fromState acb ecb CONFIG )%js.

End EventsDirect.

(** The version that tells a tap from a drag before it calls
    [triggerExplosion] (src/js/interaction/events.js). *)
Module EventsTap.

Definition triggerExplosion (acb : AnimationCallbacks)
  (ecb : EventCallbacks) (CONFIG : Config) (event : Event)
  : Js World unit :=
  if inGui event then
    (* Click was on GUI, ignore it *)
    ret tt
  else
    triggerExplosion_fromState acb ecb CONFIG.

End EventsTap.

(** ** The inputs of the program

    What the host can run once the modules are initialised: a frame (the
    scheduled [animate]), a pointer event delivered to one of the two
    [triggerExplosion] listeners, a pending return timeout, and a call of
    the exported [clearReturnTimer]. *)
Inductive Input : Set :=
| Frame (time : float)
| PointerDirect (event : Event)
| PointerTap (event : Event)
| TimeoutFires (h : timerId)
| ClearReturnTimer.

Section Program.

Variables Math_sin Math_cos : float -> float.
Variable CONFIG : Config.
Variable acb : AnimationCallbacks.
Variable ecb : EventCallbacks.

Definition step (i : Input) : Js World unit :=
  match i with
  | Frame time => animate Math_sin Math_cos CONFIG acb time
  | PointerDirect event => EventsDirect.triggerExplosion acb ecb CONFIG event
  | PointerTap event => EventsTap.triggerExplosion acb ecb CONFIG event
  | TimeoutFires h => fireTimeout acb ecb h
  | ClearReturnTimer => clearReturnTimer
  end.

End Program.

(** ** The specification's notions *)

(** The distance of a particle from its rest position, when it has one. *)
Definition restDistance (p : Particle) : option float :=
  match originalPos (userData p) with
  | Some op => Some (Vector3.distanceTo (position p) op)
  | None => None
  end.

(** "Euclidean distance at most 0.1 from its rest position". *)
Definition withinTolerance (p : Particle) : bool :=
  match restDistance p with
  | Some dist => dist <=? 0.1
  | None => false
  end.

(** The distance is at most 0.1, or it is not a number. *)
Definition withinToleranceOrNaN (p : Particle) : bool :=
  match restDistance p with
  | Some dist => (dist <=? 0.1) || is_nan dist
  | None => false
  end.

(** The test that the loop applies: [dist > 0.1] fails. *)
Definition notBeyondTolerance (p : Particle) : bool :=
  match restDistance p with
  | Some dist => negb (0.1 <? dist)
  | None => false
  end.

Section TwoPhase.

Variables Math_sin Math_cos : float -> float.
Variable CONFIG : Config.
Variable cb : AnimationCallbacks.

(** First phase: the motion integrator alone, on every particle of one
    collection. *)
Definition integrateAll (state : AnimationState) (time : float)
  (ps : list Particle) : list Particle * completion unit :=
  let '((ps', _), c) :=
    forEach (L := unit)
      (fun index =>
         onElement
           (animateSingleParticle Math_sin Math_cos CONFIG (getMouseFn cb)
              state index time))
      0 ps tt in
  (ps', c).

(** Second phase: the convergence aggregator, on particles that are no
    longer moved. *)
Fixpoint inspectAll (ps : list Particle) : completion bool :=
  match ps with
  | [] => Normal true
  | p :: rest =>
      match restDistance p with
      | None => Throw
      | Some dist =>
          match inspectAll rest with
          | Normal all => Normal (negb (0.1 <? dist) && all)
          | Throw => Throw
          end
      end
  end.

(** The frame's particle pass in two phases, as section 5 of the
    specification words it: integrate every particle of both
    collections, then inspect every distance when returning. *)
Definition animateParticles_twoPhase (state : AnimationState)
  (time : float) (ps tps : list Particle)
  : (list Particle * list Particle) * completion bool :=
  match integrateAll state time ps with
  | (ps', Throw) => ((ps', tps), Throw)
  | (ps', Normal _) =>
      match integrateAll state time tps with
      | (tps', Throw) => ((ps', tps'), Throw)
      | (tps', Normal _) =>
          ((ps', tps'),
           if AnimationState_eqb state RETURNING
           then inspectAll (ps' ++ tps')
           else Normal true)
      end
  end.

(** The frame tick with the two-phase pass in the place of
    [animateParticles], and the render call last. *)
Definition animate_twoPhase (time : float) : Js World unit :=
  ( modify (log (if uncapFPS CONFIG then CallSetTimeoutAnimate
                 else CallRequestAnimationFrame)) ;;
    (if updateFpsFn cb then modify (log (CallUpdateFps (showFPS CONFIG)))
     else ret tt) ;;
    (if updateParallaxTargetsFn cb && applyParallaxToGroupFn cb then
       modify (fun w => log (CallUpdateParallaxTargets (animationState w)) w) ;;
       modify (log CallApplyParallaxToGroup)
     else ret tt) ;;
    (if animateShowcaseBoxFn cb
        && match getMouseFn cb with Some _ => true | None => false end
        && getLastMouseMoveTimeFn cb
     then modify (log CallAnimateShowcaseBox)
     else ret tt) ;;
    allReturned <-
      (fun w =>
         let '((ps, tps), c) :=
           animateParticles_twoPhase (animationState w) time
             (particles w) (testParticles w) in
         (set_particles ps tps w, c)) ;;
    w <- get ;;
    (if AnimationState_eqb (animationState w) RETURNING && allReturned
     then modify (setAnimationState cb IDLE)
     else ret tt) ;;
    (if renderShowcaseFn cb then modify (log CallRenderShowcase)
     else ret tt) )%js.

End TwoPhase.

(** The calls that [clearPendingTimer] makes in [w]. *)
Definition clearCalls (w : World) : list Call :=
  match returnTimer w with
  | Some h => [CallClearTimeout h]
  | None => []
  end.

(** The timer queue once [clearPendingTimer] has run in [w]. *)
Definition clearedTimeouts (w : World) : list (timerId * float) :=
  match returnTimer w with
  | Some h => filter (fun t => negb (Pos.eqb (fst t) h)) (timeouts w)
  | None => timeouts w
  end.

(** The calls of a state write through the event module's setter. *)
Definition stateWriteCalls (acb : AnimationCallbacks) (s : AnimationState)
  : list Call :=
  CallSetAnimationState s
  :: (if updateCameraFn acb then [CallUpdateCamera s] else []).

(** The calls of [triggerExplosion] before it reads the state. *)
Definition preludeCalls (direct : bool) (event : Event) : list Call :=
  if direct && EventType_eqb (type event) touchstart
  then [CallPreventDefault] else [].

Definition isCall_onExplosion (c : Call) : bool :=
  match c with CallOnExplosion => true | _ => false end.

Definition isCall_onReturn (c : Call) : bool :=
  match c with CallOnReturn => true | _ => false end.

Definition isCall_setTimeout (c : Call) : bool :=
  match c with CallSetTimeout _ _ => true | _ => false end.

Definition isCall_setState (s : AnimationState) (c : Call) : bool :=
  match c with
  | CallSetAnimationState s' => AnimationState_eqb s s'
  | _ => false
  end.

Definition isCall_hook (c : Call) : bool :=
  match c with
  | CallOnExplosion | CallOnReturn | CallSetAnimationState _
  | CallUpdateCamera _ => true
  | _ => false
  end.

Definition count (f : Call -> bool) (l : list Call) : nat :=
  length (filter f l).

Definition logAll (l : list Call) (w : World) : World :=
  {| animationState := animationState w; particles := particles w;
     testParticles := testParticles w; returnTimer := returnTimer w;
     timeouts := timeouts w; nextTimerId := nextTimerId w;
     calls := calls w ++ l |}.

(** The calls of a frame before its particle pass: the scheduling of the
    next frame and the hooks that are set. *)
Definition frameHookCalls (CONFIG : Config) (cb : AnimationCallbacks)
  (state : AnimationState) : list Call :=
  [if uncapFPS CONFIG then CallSetTimeoutAnimate
   else CallRequestAnimationFrame]
  ++ (if updateFpsFn cb then [CallUpdateFps (showFPS CONFIG)] else [])
  ++ (if updateParallaxTargetsFn cb && applyParallaxToGroupFn cb
      then [CallUpdateParallaxTargets state; CallApplyParallaxToGroup]
      else [])
  ++ (if animateShowcaseBoxFn cb
         && match getMouseFn cb with Some _ => true | None => false end
         && getLastMouseMoveTimeFn cb
      then [CallAnimateShowcaseBox] else []).

(** The calls of a frame after a particle pass that has completed with
    [allReturned]: the camera hook of the transition to IDLE, and the
    render hook. *)
Definition frameTailCalls (cb : AnimationCallbacks) (state : AnimationState)
  (allReturned : bool) : list Call :=
  (if AnimationState_eqb state RETURNING && allReturned && updateCameraFn cb
   then [CallUpdateCamera IDLE] else [])
  ++ (if renderShowcaseFn cb then [CallRenderShowcase] else []).

(** The hooks that the animation module calls for their effect. *)
Inductive Hook : Set :=
| HookUpdateFps
| HookUpdateParallaxTargets
| HookApplyParallaxToGroup
| HookAnimateShowcaseBox
| HookRenderShowcase
| HookUpdateCamera.

Definition hookIsSet (cb : AnimationCallbacks) (h : Hook) : bool :=
  match h with
  | HookUpdateFps => updateFpsFn cb
  | HookUpdateParallaxTargets => updateParallaxTargetsFn cb
  | HookApplyParallaxToGroup => applyParallaxToGroupFn cb
  | HookAnimateShowcaseBox => animateShowcaseBoxFn cb
  | HookRenderShowcase => renderShowcaseFn cb
  | HookUpdateCamera => updateCameraFn cb
  end.

Definition isCallOf (h : Hook) (c : Call) : bool :=
  match h, c with
  | HookUpdateFps, CallUpdateFps _
  | HookUpdateParallaxTargets, CallUpdateParallaxTargets _
  | HookApplyParallaxToGroup, CallApplyParallaxToGroup
  | HookAnimateShowcaseBox, CallAnimateShowcaseBox
  | HookRenderShowcase, CallRenderShowcase
  | HookUpdateCamera, CallUpdateCamera _ => true
  | _, _ => false
  end.

(** ** The animation module as loaded and as initialised

    Until [initAnimation] has run, [CONFIG], the two collections and the
    eight callbacks of the animation module are null; [initAnimation]
    assigns them together.  [initialised] is what it was given, [None]
    before it has run (the collections of the world are not read
    then). *)
Definition nullCallbacks : AnimationCallbacks :=
  {| updateFpsFn := false; updateParallaxTargetsFn := false;
     applyParallaxToGroupFn := false; animateShowcaseBoxFn := false;
     renderShowcaseFn := false; getMouseFn := None;
     getLastMouseMoveTimeFn := false; updateCameraFn := false |}.

Definition callbacksOf (initialised : option (Config * AnimationCallbacks))
  : AnimationCallbacks :=
  match initialised with
  | Some (_, cb) => cb
  | None => nullCallbacks
  end.

Section Loaded.

Variables Math_sin Math_cos : float -> float.

(** [startAnimationLoop()]: the first call of [animate], which reads
    [CONFIG.uncapFPS] before anything else and so throws a TypeError
    while [CONFIG] is null. *)
Definition startAnimationLoop
  (initialised : option (Config * AnimationCallbacks)) (time : float)
  : Js World unit :=
  match initialised with
  | Some (CONFIG, cb) => animate Math_sin Math_cos CONFIG cb time
  | None => throw
  end.

End Loaded.

(** ** Sample values, to run the definitions on *)

Module Sample.

(** A host whose [Math.sin] and [Math.cos] are the first terms of the
    Taylor series. *)
Definition sinTaylor (a : float) : float := a - a * a * a / 6.
Definition cosTaylor (a : float) : float := 1 - a * a / 2.

(** The values of src/v4/config.js; it leaves [explodedParallaxEnabled],
    [uncapFPS] and [showFPS] undefined, which is falsy. *)
Definition config : Config :=
  {| animationSpeed := 0.12;
     idleFloatSpeed := 0.005;
     idleFloatAmount := 0.02;
     explodedParallaxEnabled := false;
     explodedParallaxStrength := 0;
     holdDuration := 15000;
     reassembleOnClick := true;
     uncapFPS := false;
     showFPS := false |}.

Definition configNoReassemble : Config :=
  {| animationSpeed := 0.12;
     idleFloatSpeed := 0.005;
     idleFloatAmount := 0.02;
     explodedParallaxEnabled := true;
     explodedParallaxStrength := 0.5;
     holdDuration := 15000;
     reassembleOnClick := false;
     uncapFPS := true;
     showFPS := true |}.

(** [initAnimation] called with an empty [callbacks] object, and with
    every callback. *)
Definition noHooks : AnimationCallbacks :=
  {| updateFpsFn := false; updateParallaxTargetsFn := false;
     applyParallaxToGroupFn := false; animateShowcaseBoxFn := false;
     renderShowcaseFn := false; getMouseFn := None;
     getLastMouseMoveTimeFn := false; updateCameraFn := false |}.

Definition allHooks : AnimationCallbacks :=
  {| updateFpsFn := true; updateParallaxTargetsFn := true;
     applyParallaxToGroupFn := true; animateShowcaseBoxFn := true;
     renderShowcaseFn := true; getMouseFn := Some (Vector2.make 0.25 (-0.5));
     getLastMouseMoveTimeFn := true; updateCameraFn := true |}.

(** [initEvents] called with all four callbacks, and with [onExplosion]
    and [onReturn] left out. *)
Definition allCallbacks : EventCallbacks :=
  {| onExplosion := true; onReturn := true;
     getAnimationStateFn := true; setAnimationStateFn := true |}.

Definition stateCallbacksOnly : EventCallbacks :=
  {| onExplosion := false; onReturn := false;
     getAnimationStateFn := true; setAnimationStateFn := true |}.

(** A mesh as [createParticleUserData] equips it. *)
Definition mesh (pos rest target : Vector3.t) : Particle :=
  {| position := pos;
     rotation := Vector3.make 0 0 0;
     userData :=
       {| originalPos := Some rest;
          explosionTarget := Some target;
          rotSpeed := Some (Vector3.make 0.01 (-0.01) 0.005);
          individualParallaxShift := Some (Vector3.make 0 0 0);
          baseParallaxSensitivity := 1.25 |} |}.

(** A mesh whose [userData] is the empty object that three.js gives every
    Object3D. *)
Definition bareMesh (pos : Vector3.t) : Particle :=
  {| position := pos;
     rotation := Vector3.make 0 0 0;
     userData :=
       {| originalPos := None; explosionTarget := None; rotSpeed := None;
          individualParallaxShift := None;
          baseParallaxSensitivity := nan |} |}.

Definition rest1 : Vector3.t := Vector3.make 1 2 3.
Definition target1 : Vector3.t := Vector3.make 30 (-3) 40.

(** At rest, one unit away from rest, and with a position that is not a
    number. *)
Definition atRest : Particle := mesh rest1 rest1 target1.
Definition away : Particle := mesh (Vector3.make 2 2 3) rest1 target1.
Definition lost : Particle := mesh (Vector3.make nan 2 3) rest1 target1.

Definition world (state : AnimationState) (ps tps : list Particle)
  (timer : option timerId) (queue : list (timerId * float)) : World :=
  {| animationState := state; particles := ps; testParticles := tps;
     returnTimer := timer; timeouts := queue; nextTimerId := 8%positive;
     calls := [] |}.

Definition click : Event := {| inGui := false; type := mousedown |}.
Definition touch : Event := {| inGui := false; type := touchstart |}.

End Sample.

(** ** Runs of the program

    The host runs one input after the other.  An exception that leaves a
    listener, a timeout or a frame ends that input only: the modules'
    variables stay as the input left them and the next input runs on
    them. *)

Section Runs.

Variables Math_sin Math_cos : float -> float.
Variable CONFIG : Config.
Variable acb : AnimationCallbacks.
Variable ecb : EventCallbacks.

Fixpoint run (inputs : list Input) (w : World) : World :=
  match inputs with
  | [] => w
  | i :: rest =>
      run rest (fst (step Math_sin Math_cos CONFIG acb ecb i w))
  end.

End Runs.

(** The modules as they are loaded: [let animationState = "IDLE"],
    [let returnTimer = null], no timeout scheduled yet; [next] is the
    handle the host will hand out first. *)
Definition initialWorld (ps tps : list Particle) (next : timerId) : World :=
  {| animationState := IDLE; particles := ps; testParticles := tps;
     returnTimer := None; timeouts := []; nextTimerId := next;
     calls := [] |}.

(** At most one return timeout is pending; the pending one is the one
    [returnTimer] holds; a held handle means EXPLODING and is older than
    the next handle. *)
Definition timerInvariant (w : World) : Prop :=
  (length (timeouts w) <= 1)%nat
  /\ (forall h delay, In (h, delay) (timeouts w) -> returnTimer w = Some h)
  /\ (forall h, returnTimer w = Some h ->
                animationState w = EXPLODING /\ (h < nextTimerId w)%positive).

(** The state changes that the state machine is meant to make. *)
Definition permittedTransition (a b : AnimationState) : bool :=
  match a, b with
  | IDLE, EXPLODING | RETURNING, EXPLODING
  | EXPLODING, RETURNING | RETURNING, IDLE => true
  | _, _ => AnimationState_eqb a b
  end.

(** What a particle is created with and keeps. *)
Definition sameIdentity (p p' : Particle) : Prop :=
  originalPos (userData p') = originalPos (userData p)
  /\ explosionTarget (userData p') = explosionTarget (userData p)
  /\ rotSpeed (userData p') = rotSpeed (userData p)
  /\ baseParallaxSensitivity (userData p')
     = baseParallaxSensitivity (userData p).

(** The [userData] has every object the integrator reads. *)
Definition wellFormed (p : Particle) : bool :=
  match originalPos (userData p), explosionTarget (userData p),
        rotSpeed (userData p), individualParallaxShift (userData p) with
  | Some _, Some _, Some _, Some _ => true
  | _, _, _, _ => false
  end.

(** ** Creation of a particle (src/js/particles/particles.js) *)

Definition Math_PI : float := 3.141592653589793.

Section Creation.

(** [random n] is the value of the n-th call of [Math.random()] made
    from the creation of the user data on. *)
Variable random : nat -> float.

(** [createParticleUserData(pos, explosionTarget)].  The target is an
    element read from the array of targets, [undefined] past its end.
    The [velocity] field, which nothing reads, is left out. *)
Definition createParticleUserData (pos : Vector3.t)
  (target : option Vector3.t) : UserData :=
  {| originalPos := Some pos;
     explosionTarget := target;
     rotSpeed :=
       Some (Vector3.make ((random 0 - 0.5) * 0.02)
                          ((random 1 - 0.5) * 0.02)
                          ((random 2 - 0.5) * 0.02));
     individualParallaxShift := Some (Vector3.make 0 0 0);
     baseParallaxSensitivity := 0.5 + random 3 * 1.0 |}.

(** What [rebuildTreeParticles] and [createTestParticle] do to the mesh
    they add to a collection, geometry, material and scale apart:
    [mesh.position.copy(pos)], [mesh.userData = createParticleUserData(...)],
    [mesh.rotation.set(Math.random() * Math.PI, ...)]. *)
Definition createMesh (pos : Vector3.t) (target : option Vector3.t)
  : Particle :=
  {| position := pos;
     rotation := Vector3.make (random 4 * Math_PI) (random 5 * Math_PI)
                              (random 6 * Math_PI);
     userData := createParticleUserData pos target |}.

End Creation.

(** ** Taps and drags (src/js/interaction/events.js)

    The touch listeners of the version that tells a tap from a drag.
    Their variable [touchStartPos] goes beside the world. *)

Module TapTracking.

Record Touch : Set := { clientX : float; clientY : float }.

(** What the listeners read of a TouchEvent. *)
Record TouchEvent : Set := {
  event : Event;
  touches : list Touch;
  changedTouches : list Touch
}.

Definition State : Set := (World * option Vector2.t)%type.

(** pixels - movement less than this is considered a tap *)
Definition TAP_THRESHOLD : float := 10.

Definition handleTouchStart (e : TouchEvent) : Js State unit :=
  (* Ignore touches on dat.GUI elements *)
  if inGui (event e) then ret tt
  else
    ( (* Prevent default to avoid scroll/zoom *)
      modify (fun s : State => (log CallPreventDefault (fst s), snd s)) ;;
      (* Record start position *)
      match touches e with
      | first :: _ =>
          modify (fun s : State =>
            (fst s, Some (Vector2.make (clientX first) (clientY first))))
      | [] => ret tt
      end )%js.

Definition handleTouchEnd (acb : AnimationCallbacks) (ecb : EventCallbacks)
  (CONFIG : Config) (e : TouchEvent) : Js State unit :=
  (* Ignore touches on dat.GUI elements *)
  if inGui (event e) then ret tt
  else
    ( s <- get ;;
      match snd s with
      | None => ret tt
      | Some touchStartPos =>
          (* Check if this was a tap (not a drag) *)
          match changedTouches e with
          | [] => throw
          | endPos :: _ =>
              let dx := clientX endPos - Vector2.x touchStartPos in
              let dy := clientY endPos - Vector2.y touchStartPos in
              let distance := PrimFloat.sqrt (dx * dx + dy * dy) in
              modify (fun s : State => (fst s, None)) ;;
              (* Only trigger explosion if it was a tap *)
              if distance <? TAP_THRESHOLD then
                onElement
                  (EventsTap.triggerExplosion acb ecb CONFIG (event e))
              else ret tt
          end
      end )%js.

End TapTracking.

(** ** The resize listener (both versions of the event module)

    The listener that [initResizeHandler] registers.  [innerWidth] and
    [innerHeight] are the window's, [isometricZoom] is CONFIG's; of the
    cameras, the fields that three.js derives its projection from. *)

Module Resize.

Record PerspectiveCamera : Set := {
  fov : float;
  aspect : float;
  near : float;
  far : float
}.

Record OrthographicCamera : Set := {
  left : float;
  right : float;
  top : float;
  bottom : float;
  orthoNear : float;
  orthoFar : float
}.

(** The context of [initResizeHandler]; of the renderer and the composer,
    the size that [setSize] gave them. *)
Record Context : Set := {
  perspectiveCamera : PerspectiveCamera;
  orthographicCamera : OrthographicCamera;
  renderer : float * float;
  composer : float * float
}.

Definition resizeListener (isometricZoom innerWidth innerHeight : float)
  (context : Context) : Context :=
  let newAspect := innerWidth / innerHeight in
  (* Update orthographic camera *)
  let frustumSize := isometricZoom in
  {| perspectiveCamera :=
       {| fov := fov (perspectiveCamera context);
          aspect := newAspect;
          near := near (perspectiveCamera context);
          far := far (perspectiveCamera context) |};
     orthographicCamera :=
       {| left := frustumSize * newAspect / -2;
          right := frustumSize * newAspect / 2;
          top := frustumSize / 2;
          bottom := frustumSize / -2;
          orthoNear := orthoNear (orthographicCamera context);
          orthoFar := orthoFar (orthographicCamera context) |};
     renderer := (innerWidth, innerHeight);
     composer := (innerWidth, innerHeight) |}.

End Resize.

(** ** Materials and their cache (src/unnamed/part_003)

    A number that an object may lack is an option; so is a string, with
    [None] for null and undefined alike.  A property bag holds the
    properties that the module reads of the material defaults, presets
    and overrides. *)

Module Materials.

Definition string : Set := String.string.

(** [v || fallback] on a number that may be undefined: NaN and zero are
    falsy. *)
Definition orNumber (v : option float) (fallback : float) : float :=
  match v with
  | Some a => if is_nan a || (a =? 0) then fallback else a
  | None => fallback
  end.

(** [v > 0] on a number that may be undefined. *)
Definition positive_ (v : option float) : bool :=
  match v with
  | Some a => 0 <? a
  | None => false
  end.

Record Props : Set := {
  materialClass : option string;
  transmission : option float;
  thickness : option float;
  roughness : option float;
  metalness : option float;
  clearcoat : option float;
  clearcoatRoughness : option float;
  ior : option float;
  envMapIntensity : option float
}.

Definition emptyProps : Props :=
  {| materialClass := None; transmission := None; thickness := None;
     roughness := None; metalness := None; clearcoat := None;
     clearcoatRoughness := None; ior := None; envMapIntensity := None |}.

Definition later {A : Type} (a b : option A) : option A :=
  match b with Some _ => b | None => a end.

(** [{ ...a, ...b }] *)
Definition spread (a b : Props) : Props :=
  {| materialClass := later (materialClass a) (materialClass b);
     transmission := later (transmission a) (transmission b);
     thickness := later (thickness a) (thickness b);
     roughness := later (roughness a) (roughness b);
     metalness := later (metalness a) (metalness b);
     clearcoat := later (clearcoat a) (clearcoat b);
     clearcoatRoughness := later (clearcoatRoughness a) (clearcoatRoughness b);
     ior := later (ior a) (ior b);
     envMapIntensity := later (envMapIntensity a) (envMapIntensity b) |}.

(** An object definition as its author writes it: every property may be
    left out; [materialType] may also be given as null
    ([Some None]). *)
Record ObjectDef : Set := {
  type : option string;
  count : option float;
  scale : option float;
  color : option float;
  emissive : option float;
  emissiveIntensity : option float;
  defMetalness : option float;
  defRoughness : option float;
  materialType : option (option string);
  materialOverrides : option Props
}.

(** A definition as [getMaterialFromDefinition] receives it. *)
Record Def : Set := {
  fullType : option string;
  fullCount : option float;
  fullScale : option float;
  fullColor : option float;
  fullEmissive : option float;
  fullEmissiveIntensity : option float;
  fullMetalness : option float;
  fullRoughness : option float;
  fullMaterialType : option string;
  fullMaterialOverrides : option Props
}.

Definition orDefault {A : Type} (v : option A) (default : A) : option A :=
  match v with Some _ => v | None => Some default end.

(** [{ ...OBJECT_DEFAULTS, ...objectDef }], after the two checks; a
    thrown Error is [Throw]. *)
Definition validateAndMergeObjectDef (objectDef : ObjectDef)
  : completion Def :=
  match type objectDef with
  | None => Throw
  | Some name =>
      if String.eqb name ""%string then Throw
      else
        match count objectDef with
        | None => Throw
        | Some n =>
            if n <? 0 then Throw
            else
              Normal
                {| fullType := type objectDef;
                   fullCount := count objectDef;
                   fullScale := orDefault (scale objectDef) 1.0;
                   fullColor := orDefault (color objectDef) 16777215;
                   fullEmissive := orDefault (emissive objectDef) 0;
                   fullEmissiveIntensity :=
                     orDefault (emissiveIntensity objectDef) 0.0;
                   fullMetalness := orDefault (defMetalness objectDef) 0.5;
                   fullRoughness := orDefault (defRoughness objectDef) 0.5;
                   fullMaterialType :=
                     match materialType objectDef with
                     | Some given => given
                     | None => Some "matte"%string
                     end;
                   fullMaterialOverrides :=
                     orDefault (materialOverrides objectDef) emptyProps |}
        end
  end.

(** [{ ...def, type: name }] *)
Definition withType (name : option string) (def : Def) : Def :=
  {| fullType := name;
     fullCount := fullCount def;
     fullScale := fullScale def;
     fullColor := fullColor def;
     fullEmissive := fullEmissive def;
     fullEmissiveIntensity := fullEmissiveIntensity def;
     fullMetalness := fullMetalness def;
     fullRoughness := fullRoughness def;
     fullMaterialType := fullMaterialType def;
     fullMaterialOverrides := fullMaterialOverrides def |}.

(** The object definition with its metalness and roughness stated as [m]
    and [r], or left out ([None]). *)
Definition withMetalnessRoughness (m r : option float)
  (objectDef : ObjectDef) : ObjectDef :=
  {| type := type objectDef;
     count := count objectDef;
     scale := scale objectDef;
     color := color objectDef;
     emissive := emissive objectDef;
     emissiveIntensity := emissiveIntensity objectDef;
     defMetalness := m;
     defRoughness := r;
     materialType := materialType objectDef;
     materialOverrides := materialOverrides objectDef |}.

Record MaterialConfig : Set := {
  materialDefaults : Props;
  materialPresets : list (string * Props);
  performanceMode : bool
}.

(** [CONFIG.materialPresets[name] || {}] *)
Fixpoint preset (presets : list (string * Props)) (name : string) : Props :=
  match presets with
  | [] => emptyProps
  | (n, props) :: rest =>
      if String.eqb n name then props else preset rest name
  end.

Inductive Side : Set := FrontSide | DoubleSide.

Inductive MaterialClass : Set := MeshPhysicalMaterial | MeshStandardMaterial.

(** The parameters a material is constructed with; [None] for one that
    the constructor is not given or is given as undefined. *)
Record Material (Texture : Type) : Type := {
  class : MaterialClass;
  mColor : option float;
  mEmissive : option float;
  mEmissiveIntensity : option float;
  mTransmission : option float;
  mThickness : option float;
  mRoughness : option float;
  mMetalness : option float;
  mClearcoat : option float;
  mClearcoatRoughness : option float;
  mIor : option float;
  mEnvMap : option Texture;
  mEnvMapIntensity : option float;
  side : Side;
  transparent : option bool;
  opacity : option float
}.
Arguments class {Texture}.
Arguments mRoughness {Texture}.
Arguments mMetalness {Texture}.
Arguments mEnvMap {Texture}.
Arguments side {Texture}.

(** What the module hands to [JSON.stringify] to make a cache key. *)
Inductive KeyData : Set :=
| PresetKey (color emissive emissiveIntensity : option float)
    (materialType : string) (performanceMode : bool) (materialProps : Props)
| PlainKey (color emissive emissiveIntensity metalness roughness
            : option float).

Section Cache.

Variable Texture : Type.

(** [JSON.stringify], the host's. *)
Variable JSON_stringify : KeyData -> string.

Definition sideOf (def : Def) : Side :=
  match fullType def with
  | Some name =>
      if String.eqb name "snowflake"%string then DoubleSide else FrontSide
  | None => FrontSide
  end.

Definition createPhysicalMaterial (def : Def) (materialProps : Props)
  (envMap : Texture) : Material Texture :=
  {| class := MeshPhysicalMaterial;
     mColor := fullColor def;
     mEmissive := fullEmissive def;
     mEmissiveIntensity := fullEmissiveIntensity def;
     mTransmission := Some (orNumber (transmission materialProps) 0);
     mThickness := Some (orNumber (thickness materialProps) 0);
     mRoughness := roughness materialProps;
     mMetalness := Some (orNumber (metalness materialProps) 0);
     mClearcoat := Some (orNumber (clearcoat materialProps) 0);
     mClearcoatRoughness :=
       Some (orNumber (clearcoatRoughness materialProps) 0);
     mIor := Some (orNumber (ior materialProps) 1.5);
     mEnvMap := Some envMap;
     mEnvMapIntensity := Some (orNumber (envMapIntensity materialProps) 1.0);
     side := sideOf def;
     transparent := Some (positive_ (transmission materialProps));
     opacity := Some 1.0 |}.

Definition createPerformanceMaterial (def : Def) (materialProps : Props)
  (envMap : Texture) : Material Texture :=
  let opacity :=
    match transmission materialProps with
    | Some t => if 0 <? t then 0.4 + (1 - t) * 0.6 else 1.0
    | None => 1.0
    end in
  {| class := MeshStandardMaterial;
     mColor := fullColor def;
     mEmissive := fullEmissive def;
     mEmissiveIntensity := fullEmissiveIntensity def;
     mTransmission := None;
     mThickness := None;
     mRoughness := roughness materialProps;
     mMetalness := Some (orNumber (metalness materialProps) 0.1);
     mClearcoat := None;
     mClearcoatRoughness := None;
     mIor := None;
     mEnvMap := Some envMap;
     mEnvMapIntensity := Some (orNumber (envMapIntensity materialProps) 1.0);
     side := sideOf def;
     transparent := Some (positive_ (transmission materialProps));
     opacity := Some opacity |}.

Definition createStandardMaterial (def : Def) (materialProps : Props)
  (envMap : Texture) : Material Texture :=
  {| class := MeshStandardMaterial;
     mColor := fullColor def;
     mEmissive := fullEmissive def;
     mEmissiveIntensity := fullEmissiveIntensity def;
     mTransmission := None;
     mThickness := None;
     mRoughness := roughness materialProps;
     mMetalness := Some (orNumber (metalness materialProps) 0);
     mClearcoat := None;
     mClearcoatRoughness := None;
     mIor := None;
     mEnvMap := Some envMap;
     mEnvMapIntensity := Some (orNumber (envMapIntensity materialProps) 1.0);
     side := sideOf def;
     transparent := Some false;
     opacity := None |}.

(** [materialCache]: a Map from key to material, in insertion order. *)
Definition Cache : Type := list (string * Material Texture).

Fixpoint cacheGet (cache : Cache) (key : string)
  : option (Material Texture) :=
  match cache with
  | [] => None
  | (k, material) :: rest =>
      if String.eqb k key then Some material else cacheGet rest key
  end.

Definition clearMaterialCache (cache : Cache) : Cache := [].

Definition materialPropsOf (def : Def) (CONFIG : MaterialConfig)
  (materialType : string) : Props :=
  spread
    (spread (materialDefaults CONFIG)
       (preset (materialPresets CONFIG) materialType))
    (match fullMaterialOverrides def with
     | Some overrides => overrides
     | None => emptyProps
     end).

Definition cacheKey (def : Def) (CONFIG : MaterialConfig) : string :=
  match fullMaterialType def with
  | Some materialType =>
      JSON_stringify
        (PresetKey (fullColor def) (fullEmissive def)
           (fullEmissiveIntensity def) materialType (performanceMode CONFIG)
           (materialPropsOf def CONFIG materialType))
  | None =>
      JSON_stringify
        (PlainKey (fullColor def) (fullEmissive def)
           (fullEmissiveIntensity def) (fullMetalness def)
           (fullRoughness def))
  end.

Definition newMaterial (def : Def) (CONFIG : MaterialConfig)
  (envMap : Texture) : Material Texture :=
  match fullMaterialType def with
  | Some materialType =>
      let materialProps := materialPropsOf def CONFIG materialType in
      let physical :=
        match materialClass materialProps with
        | Some name => String.eqb name "Physical"%string
        | None => false
        end in
      if physical then
        if performanceMode CONFIG
        then createPerformanceMaterial def materialProps envMap
        else createPhysicalMaterial def materialProps envMap
      else createStandardMaterial def materialProps envMap
  | None =>
      {| class := MeshStandardMaterial;
         mColor := fullColor def;
         mEmissive := fullEmissive def;
         mEmissiveIntensity := fullEmissiveIntensity def;
         mTransmission := None;
         mThickness := None;
         mRoughness := fullRoughness def;
         mMetalness := fullMetalness def;
         mClearcoat := None;
         mClearcoatRoughness := None;
         mIor := None;
         mEnvMap := None;
         mEnvMapIntensity := None;
         side := sideOf def;
         transparent := None;
         opacity := None |}
  end.

(** [getMaterialFromDefinition(def, CONFIG, envMap)]: the material it
    returns and the cache it leaves. *)
Definition getMaterialFromDefinition (def : Def) (CONFIG : MaterialConfig)
  (envMap : Texture) (cache : Cache) : Material Texture * Cache :=
  let key := cacheKey def CONFIG in
  match cacheGet cache key with
  | Some material => (material, cache)
  | None =>
      let material := newMaterial def CONFIG envMap in
      (material, cache ++ [(key, material)])
  end.

End Cache.

End Materials.

(** ** Sample values for the touch listeners and the materials *)

Module Sample2.

Definition finger : TapTracking.Touch :=
  {| TapTracking.clientX := 120; TapTracking.clientY := 340.5 |}.

Definition touchStart : TapTracking.TouchEvent :=
  {| TapTracking.event := Sample.touch;
     TapTracking.touches := [finger];
     TapTracking.changedTouches := [finger] |}.

Definition touchEnd : TapTracking.TouchEvent :=
  {| TapTracking.event := {| inGui := false; type := touchend |};
     TapTracking.touches := [];
     TapTracking.changedTouches := [finger] |}.

(** The red presents of src/v4/config.js, as snowflakes and as stars. *)
Definition presents : Materials.ObjectDef :=
  {| Materials.type := Some "present"%string;
     Materials.count := Some 133;
     Materials.scale := Some 0.8;
     Materials.color := Some 16724787;
     Materials.emissive := Some 16724787;
     Materials.emissiveIntensity := Some 0.05;
     Materials.defMetalness := Some 0.2;
     Materials.defRoughness := Some 0.4;
     Materials.materialType := None;
     Materials.materialOverrides := None |}.

Definition snowflake : Materials.Def :=
  {| Materials.fullType := Some "snowflake"%string;
     Materials.fullCount := Some 12;
     Materials.fullScale := Some 1.0;
     Materials.fullColor := Some 15792383;
     Materials.fullEmissive := Some 8956620;
     Materials.fullEmissiveIntensity := Some 0.15;
     Materials.fullMetalness := Some 0.1;
     Materials.fullRoughness := Some 0.3;
     Materials.fullMaterialType := None;
     Materials.fullMaterialOverrides := None |}.

Definition materialConfig : Materials.MaterialConfig :=
  {| Materials.materialDefaults :=
       {| Materials.materialClass := None;
          Materials.transmission := Some 0;
          Materials.thickness := Some 0;
          Materials.roughness := Some 0.5;
          Materials.metalness := Some 0;
          Materials.clearcoat := Some 0;
          Materials.clearcoatRoughness := Some 0;
          Materials.ior := Some 1.5;
          Materials.envMapIntensity := Some 1.0 |};
     Materials.materialPresets :=
       [("glass"%string,
         {| Materials.materialClass := Some "Physical"%string;
            Materials.transmission := Some 0.9;
            Materials.thickness := Some 10;
            Materials.roughness := Some 0.15;
            Materials.metalness := None;
            Materials.clearcoat := None;
            Materials.clearcoatRoughness := None;
            Materials.ior := None;
            Materials.envMapIntensity := Some 1.5 |})];
     Materials.performanceMode := false |}.

(** A stand-in for [JSON.stringify] that tells the two kinds of key
    apart and nothing else. *)
Definition kindOfKey (k : Materials.KeyData) : Materials.string :=
  match k with
  | Materials.PresetKey _ _ _ materialType _ _ => materialType
  | Materials.PlainKey _ _ _ _ _ => "plain"%string
  end.

End Sample2.

(** ** The explosion and return callbacks in the record of calls *)

(** The calls of [onExplosion] and [onReturn] among the calls made so
    far, in order. *)
Definition hookTrace (w : World) : list Call :=
  filter (fun c => isCall_onExplosion c || isCall_onReturn c) (calls w).

(** The calls are [onExplosion] and [onReturn] in turns; the first one is
    [onExplosion] when [explosionNext] is set. *)
Fixpoint alternating (explosionNext : bool) (l : list Call) : bool :=
  match l with
  | [] => true
  | c :: rest =>
      (if explosionNext then isCall_onExplosion c else isCall_onReturn c)
      && alternating (negb explosionNext) rest
  end.

(** The state goes with the turn: EXPLODING exactly after an
    [onExplosion]. *)
Definition turnInvariant (w : World) : Prop :=
  alternating true (hookTrace w) = true
  /\ Nat.odd (length (hookTrace w))
     = AnimationState_eqb (animationState w) EXPLODING.

(** ** The material of a test particle (src/js/particles/particles.js) *)

Module TestParticles.

(** What [createTestParticle] reads of the configuration of a group of
    test objects; [props] holds the material numbers that the group
    states ([config.transmission] to [config.envMapIntensity]). *)
Record TestConfig : Set := {
  shape : Materials.string;
  materialType : option Materials.string;
  color : Materials.string;
  emissive : Materials.string;
  emissiveIntensity : option float;
  props : Materials.Props
}.

(** [config.x !== undefined && config.x !== usual], then [config.x] goes
    into the overrides. *)
Definition override (given usual : option float) : option float :=
  match given with
  | None => None
  | Some v =>
      match usual with
      | Some u => if v =? u then None else Some v
      | None => Some v
      end
  end.

(** [a ?? b] *)
Definition coalesce {A : Type} (a b : option A) : option A :=
  match a with Some _ => a | None => b end.

Section MaterialDef.

(** [parseInt(text.replace('#', ''), 16)], the host's. *)
Variable parseHex : Materials.string -> float.

Variable CONFIG : Materials.MaterialConfig.

Definition materialOverrides (config : TestConfig) : Materials.Props :=
  let preset :=
    Materials.preset (Materials.materialPresets CONFIG)
      (match materialType config with
       | Some name => name
       | None => "undefined"%string
       end) in
  let usual (f : Materials.Props -> option float) :=
    coalesce (f preset) (f (Materials.materialDefaults CONFIG)) in
  {| Materials.materialClass := None;
     Materials.transmission :=
       override (Materials.transmission (props config))
         (usual Materials.transmission);
     Materials.thickness :=
       override (Materials.thickness (props config))
         (usual Materials.thickness);
     Materials.roughness :=
       override (Materials.roughness (props config))
         (usual Materials.roughness);
     Materials.metalness :=
       override (Materials.metalness (props config))
         (usual Materials.metalness);
     Materials.clearcoat :=
       override (Materials.clearcoat (props config))
         (usual Materials.clearcoat);
     Materials.clearcoatRoughness :=
       override (Materials.clearcoatRoughness (props config))
         (usual Materials.clearcoatRoughness);
     Materials.ior :=
       override (Materials.ior (props config)) (usual Materials.ior);
     Materials.envMapIntensity :=
       override (Materials.envMapIntensity (props config))
         (usual Materials.envMapIntensity) |}.

Definition materialDef (config : TestConfig) : Materials.Def :=
  {| Materials.fullType := Some (shape config);
     Materials.fullCount := None;
     Materials.fullScale := None;
     Materials.fullColor := Some (parseHex (color config));
     Materials.fullEmissive := Some (parseHex (emissive config));
     Materials.fullEmissiveIntensity := emissiveIntensity config;
     Materials.fullMetalness := None;
     Materials.fullRoughness := None;
     Materials.fullMaterialType := materialType config;
     Materials.fullMaterialOverrides := Some (materialOverrides config) |}.

End MaterialDef.

(** The merged property is the number that the group states, up to the
    sign of zero; when the group states none, it is the preset's, or
    else the default. *)
Definition reaches (given usual merged : option float) : bool :=
  match given, merged with
  | Some v, Some v' => (v' =? v) || (is_nan v && is_nan v')
  | Some _, None => false
  | None, Some u' =>
      match usual with
      | Some u => (u' =? u) || (is_nan u && is_nan u')
      | None => false
      end
  | None, None => match usual with Some _ => false | None => true end
  end.

(** A number that [v || fallback] keeps: neither NaN nor a zero. *)
Definition truthy (v : float) : bool := negb (is_nan v || (v =? 0)).

(** The material has the stated number itself, when [||] keeps it. *)
Definition kept (stated got : option float) : Prop :=
  forall v, stated = Some v -> truthy v = true -> got = Some v.

(** The material has [fallback] in the place of a stated number that
    [||] does not keep. *)
Definition replaced (stated got : option float) (fallback : float) : Prop :=
  forall v, stated = Some v -> truthy v = false -> got = Some fallback.

End TestParticles.

(** * Properties *)

(** ** Numbers and the monad *)

Lemma AnimationState_eqb_eq (a b : AnimationState) :
  AnimationState_eqb a b = true <-> a = b.
Proof. destruct a, b; simpl; split; congruence. Qed.

(** IEEE multiplication is commutative. *)
Lemma float_mul_comm (a b : float) : a * b = b * a.
Proof.
  apply Prim2SF_inj. rewrite !FloatAxioms.mul_spec.
  unfold SF64mul, SpecFloat.SFmul.
  destruct (Prim2SF a) as [sa|sa| |sa ma ea],
           (Prim2SF b) as [sb|sb| |sb mb eb];
    try reflexivity; try (rewrite (xorb_comm sa sb); reflexivity).
  rewrite (xorb_comm sa sb), (Pos.mul_comm ma mb), (Z.add_comm ea eb).
  reflexivity.
Qed.

(** ** The motion integrator *)

Section IntegratorFacts.

Variables Math_sin Math_cos : float -> float.
Variable CONFIG : Config.
Variable mouseFn : option Vector2.t.

Let advance := animateSingleParticle Math_sin Math_cos CONFIG mouseFn.

(** The integrator never touches the rest position, and a returning
    particle that it has moved has one. *)
Lemma animateSingleParticle_originalPos state index time p p' c :
  advance state index time p = (p', c) ->
  originalPos (userData p') = originalPos (userData p).
Proof.
  unfold advance, animateSingleParticle, bind, field, modify, get.
  destruct p as [pos rot [op et rs sh sens]]; simpl.
  destruct rs as [rs|]; simpl; [|intros H; inversion H; reflexivity].
  destruct state; simpl.
  - destruct op; simpl; intros H; inversion H; reflexivity.
  - destruct sh as [sh|]; simpl; [|intros H; inversion H; reflexivity].
    destruct (explodedParallaxEnabled CONFIG); simpl;
      destruct et; simpl; intros H; inversion H; reflexivity.
  - destruct op; simpl; [|intros H; inversion H; reflexivity].
    destruct sh; simpl; intros H; inversion H; reflexivity.
Qed.

Lemma animateSingleParticle_returning_rest index time p p' :
  advance RETURNING index time p = (p', Normal tt) ->
  exists op, originalPos (userData p') = Some op.
Proof.
  unfold advance, animateSingleParticle, bind, field, modify.
  destruct p as [pos rot [op et rs sh sens]]; simpl.
  destruct rs as [rs|]; simpl; [|discriminate].
  destruct op as [op|]; simpl; [|discriminate].
  destruct sh; simpl; [|discriminate].
  intros H; inversion H; simpl. eauto.
Qed.

End IntegratorFacts.

(** C5. In the IDLE state the integrator puts every particle that has its
    rotation speed and rest position at the rest position on the
    horizontal and depth axes, and at
    [restPosition.y + idleFloatAmount * sin (time * idleFloatSpeed + index * 0.1)]
    on the vertical axis, whatever the position was before; the rest
    position itself is left as it was. *)
Theorem idle_position_is_rest_plus_float
  (Math_sin Math_cos : float -> float) (CONFIG : Config)
  (mouseFn : option Vector2.t) (index : nat) (time : float)
  (p : Particle) (rs op : Vector3.t) :
  rotSpeed (userData p) = Some rs ->
  originalPos (userData p) = Some op ->
  exists p',
    animateSingleParticle Math_sin Math_cos CONFIG mouseFn IDLE index time p
    = (p', Normal tt)
    /\ position p'
       = Vector3.make
           (Vector3.x op)
           (Vector3.y op
            + idleFloatAmount CONFIG
              * Math_sin (time * idleFloatSpeed CONFIG + num index * 0.1))
           (Vector3.z op)
    /\ originalPos (userData p') = Some op.
Proof.
  intros Hrs Hop.
  destruct p as [pos rot [op0 et rs0 sh sens]]; simpl in Hrs, Hop; subst.
  unfold animateSingleParticle, bind, field, modify; simpl.
  eexists; split; [reflexivity|].
  simpl. split; [|reflexivity].
  rewrite (float_mul_comm (idleFloatAmount CONFIG)). reflexivity.
Qed.

(** The fourth particle of a collection, one unit off its rest position,
    in an idle frame. *)
Lemma idle_position_is_rest_plus_float_witness :
  rotSpeed (userData Sample.away) = Some (Vector3.make 0.01 (-0.01) 0.005)
  /\ originalPos (userData Sample.away) = Some Sample.rest1
  /\ exists p',
       animateSingleParticle Sample.sinTaylor Sample.cosTaylor Sample.config
         None IDLE 3 1700000000000 Sample.away = (p', Normal tt)
       /\ position p'
          = Vector3.make
              1
              (2 + 0.02 * Sample.sinTaylor
                            (1700000000000 * 0.005 + num 3 * 0.1))
              3
       /\ originalPos (userData p') = Some Sample.rest1.
Proof.
  split; [reflexivity|]. split; [reflexivity|].
  exact (idle_position_is_rest_plus_float Sample.sinTaylor Sample.cosTaylor
           Sample.config None 3 1700000000000 Sample.away
           (Vector3.make 0.01 (-0.01) 0.005) Sample.rest1
           eq_refl eq_refl).
Defined.

(** C6. In the EXPLODING state, for every particle that has the fields the
    branch reads: the parallax shift is smoothed with factor 0.08 toward
    mouse * strength * sensitivity on x and y when parallax is enabled,
    and multiplied by 0.95 on x and y otherwise; the target is the
    explosion target plus the new shift on x and y and the explosion
    target's own z; the position moves by
    [current + (target - current) * animationSpeed] on each axis, on top
    of which the branch adds its sinusoidal jitter. *)
Theorem exploding_parallax_target_lerp
  (Math_sin Math_cos : float -> float) (CONFIG : Config)
  (mouseFn : option Vector2.t) (index : nat) (time : float)
  (p : Particle) (rs sh et : Vector3.t) :
  rotSpeed (userData p) = Some rs ->
  individualParallaxShift (userData p) = Some sh ->
  explosionTarget (userData p) = Some et ->
  let mouse :=
    match mouseFn with Some m => m | None => Vector2.make 0 0 end in
  let sensitivity := baseParallaxSensitivity (userData p) in
  let shift' :=
    if explodedParallaxEnabled CONFIG then
      Vector3.make
        (Vector3.x sh
         + (Vector2.x mouse * explodedParallaxStrength CONFIG * sensitivity
            - Vector3.x sh) * 0.08)
        (Vector3.y sh
         + (Vector2.y mouse * explodedParallaxStrength CONFIG * sensitivity
            - Vector3.y sh) * 0.08)
        (Vector3.z sh)
    else
      Vector3.make (Vector3.x sh * 0.95) (Vector3.y sh * 0.95) (Vector3.z sh) in
  let target :=
    Vector3.make (Vector3.x et + Vector3.x shift')
                 (Vector3.y et + Vector3.y shift')
                 (Vector3.z et) in
  let lerped := Vector3.lerp (position p) target (animationSpeed CONFIG) in
  exists p',
    animateSingleParticle Math_sin Math_cos CONFIG mouseFn EXPLODING
      index time p = (p', Normal tt)
    /\ individualParallaxShift (userData p') = Some shift'
    /\ position p'
       = Vector3.make
           (Vector3.x lerped + Math_sin (time * 0.001 + num index) * 0.01)
           (Vector3.y lerped
            + Math_sin (time * idleFloatSpeed CONFIG * 2 + num index * 0.1)
              * idleFloatAmount CONFIG)
           (Vector3.z lerped + Math_cos (time * 0.001 + num index) * 0.01)
    /\ explosionTarget (userData p') = Some et.
Proof.
  intros Hrs Hsh Het.
  destruct p as [pos rot [op et0 rs0 sh0 sens]]; simpl in Hrs, Hsh, Het; subst.
  unfold animateSingleParticle, bind, field, modify, get; simpl.
  destruct (explodedParallaxEnabled CONFIG); simpl;
    (eexists; split; [reflexivity|]); simpl; auto.
Qed.

(** The same particle in an exploding frame with parallax enabled and the
    mouse at (0.25, -0.5). *)
Lemma exploding_parallax_target_lerp_witness :
  individualParallaxShift (userData Sample.away)
  = Some (Vector3.make 0 0 0)
  /\ explosionTarget (userData Sample.away) = Some Sample.target1
  /\ exists p',
       animateSingleParticle Sample.sinTaylor Sample.cosTaylor
         Sample.configNoReassemble (getMouseFn Sample.allHooks) EXPLODING
         3 1700000000000 Sample.away = (p', Normal tt)
       /\ individualParallaxShift (userData p')
          = Some (Vector3.make (0 + (0.25 * 0.5 * 1.25 - 0) * 0.08)
                               (0 + (-0.5 * 0.5 * 1.25 - 0) * 0.08)
                               0)
       /\ explosionTarget (userData p') = Some Sample.target1.
Proof.
  split; [reflexivity|]. split; [reflexivity|].
  destruct (exploding_parallax_target_lerp Sample.sinTaylor Sample.cosTaylor
              Sample.configNoReassemble (getMouseFn Sample.allHooks)
              3 1700000000000 Sample.away
              (Vector3.make 0.01 (-0.01) 0.005) (Vector3.make 0 0 0)
              Sample.target1 eq_refl eq_refl eq_refl)
    as [p' [Hrun [Hshift [_ Htarget]]]].
  exists p'. split; [exact Hrun|]. split; [exact Hshift | exact Htarget].
Defined.

(** ** Comparisons of doubles *)

Lemma SFcompare_antisym (a b : SpecFloat.spec_float) :
  SpecFloat.SFcompare b a = option_map CompOpp (SpecFloat.SFcompare a b).
Proof.
  destruct a as [sa|sa| |sa ma ea], b as [sb|sb| |sb mb eb]; simpl;
    try reflexivity;
    try (destruct sa; reflexivity); try (destruct sb; reflexivity);
    try (destruct sa, sb; reflexivity).
  assert (Hm : Pos.compare_cont Eq mb ma
               = CompOpp (Pos.compare_cont Eq ma mb))
    by (symmetry; apply (Pos.compare_cont_antisym ma mb Eq)).
  destruct sa, sb; simpl; try reflexivity;
    rewrite (Z.compare_antisym ea eb), Hm;
    destruct (ea ?= eb)%Z; simpl; try reflexivity;
    destruct (Pos.compare_cont Eq ma mb); reflexivity.
Qed.

Lemma SFcompare_refl (a : SpecFloat.spec_float) :
  SpecFloat.SFcompare a a
  = match a with SpecFloat.S754_nan => None | _ => Some Eq end.
Proof.
  destruct a as [s|s| |s m e]; simpl; try reflexivity.
  - destruct s; reflexivity.
  - rewrite Z.compare_refl, Pos.compare_cont_refl. destruct s; reflexivity.
Qed.

(** For a number [a], the test [a > b] fails exactly when [b <= a] holds
    or [b] is NaN. *)
Lemma not_ltb_leb_or_nan (a b : float) :
  is_nan a = false ->
  negb (a <? b) = (b <=? a) || is_nan b.
Proof.
  unfold is_nan.
  rewrite !FloatAxioms.eqb_spec, FloatAxioms.ltb_spec, FloatAxioms.leb_spec.
  unfold SpecFloat.SFeqb, SpecFloat.SFltb, SpecFloat.SFleb.
  rewrite (SFcompare_antisym (Prim2SF a) (Prim2SF b)), !SFcompare_refl.
  destruct (Prim2SF a) as [sa|sa| |sa ma ea]; try discriminate; intros _;
    destruct (Prim2SF b) as [sb|sb| |sb mb eb]; simpl; try reflexivity;
    try (destruct sa; reflexivity); try (destruct sb; reflexivity);
    try (destruct sa, sb; reflexivity).
  destruct sa, sb; simpl; try reflexivity;
    destruct (ea ?= eb)%Z; simpl; try reflexivity;
    destruct (Pos.compare_cont Eq ma mb); reflexivity.
Qed.

Lemma notBeyondTolerance_withinToleranceOrNaN (p : Particle) :
  notBeyondTolerance p = withinToleranceOrNaN p.
Proof.
  unfold notBeyondTolerance, withinToleranceOrNaN.
  destruct (restDistance p) as [dist|]; [|reflexivity].
  apply not_ltb_leb_or_nan. reflexivity.
Qed.

(** ** The particle pass of a frame *)

Lemma inspectAll_app (ps tps : list Particle) :
  inspectAll (ps ++ tps)
  = match inspectAll ps, inspectAll tps with
    | Normal b1, Normal b2 => Normal (b1 && b2)
    | _, _ => Throw
    end.
Proof.
  induction ps as [|p ps IH]; simpl.
  - destruct (inspectAll tps); reflexivity.
  - destruct (restDistance p) as [dist|]; [|reflexivity].
    rewrite IH.
    destruct (inspectAll ps) as [b1|], (inspectAll tps) as [b2|];
      try reflexivity.
    now rewrite andb_assoc.
Qed.

Lemma inspectAll_forallb (ps : list Particle) (b : bool) :
  inspectAll ps = Normal b -> b = forallb notBeyondTolerance ps.
Proof.
  revert b. induction ps as [|p ps IH]; simpl; intros b H.
  - now inversion H.
  - unfold notBeyondTolerance at 1.
    destruct (restDistance p) as [dist|]; [|discriminate].
    destruct (inspectAll ps) as [all|]; [|discriminate].
    inversion H. now rewrite <- (IH all eq_refl).
Qed.

Section AnimationFacts.

Variables Math_sin Math_cos : float -> float.
Variable CONFIG : Config.
Variable cb : AnimationCallbacks.

Let advance :=
  animateSingleParticle Math_sin Math_cos CONFIG (getMouseFn cb).
Let body := animateParticles_body Math_sin Math_cos CONFIG cb.

(** One turn of the loop: the update, then the test on the particle
    that was just updated. *)
Lemma animateParticles_body_step state time index p allReturned :
  match advance state index time p with
  | (p', Throw) =>
      body state time index (p, allReturned) = ((p', allReturned), Throw)
  | (p', Normal _) =>
      if AnimationState_eqb state RETURNING then
        exists dist,
          restDistance p' = Some dist
          /\ body state time index (p, allReturned)
             = ((p', allReturned && negb (0.1 <? dist)), Normal tt)
      else
        body state time index (p, allReturned)
        = ((p', allReturned), Normal tt)
  end.
Proof.
  unfold body, animateParticles_body, bind, onElement; simpl.
  fold (advance state index time p).
  destruct (advance state index time p) as [p' [[]|]] eqn:E; [|reflexivity].
  destruct state; simpl; try reflexivity.
  destruct (animateSingleParticle_returning_rest
              Math_sin Math_cos CONFIG (getMouseFn cb) index time p p' E)
    as [op Hop].
  exists (Vector3.distanceTo (position p') op).
  unfold restDistance, field, modify; simpl. rewrite Hop. split; [reflexivity|].
  simpl.
  destruct (0.1 <? Vector3.distanceTo (position p') op); simpl.
  - now rewrite andb_false_r.
  - now rewrite andb_true_r.
Qed.

(** The interleaved loop against the integrator run alone: the same
    particles and the same completion, and, when it completes, the
    local is what it was, conjoined when returning with the tests of
    the particles as the loop leaves them. *)
Lemma forEach_body_integrate state time ps :
  forall index allReturned,
    let r := forEach (body state time) index ps allReturned in
    let r2 :=
      forEach (L := unit)
        (fun i => onElement (advance state i time)) index ps tt in
    fst (fst r) = fst (fst r2)
    /\ snd r = snd r2
    /\ (snd r = Normal tt ->
        if AnimationState_eqb state RETURNING then
          exists b,
            inspectAll (fst (fst r)) = Normal b
            /\ snd (fst r) = allReturned && b
        else snd (fst r) = allReturned).
Proof.
  destruct (AnimationState_eqb state RETURNING) eqn:Est;
    induction ps as [|p ps IH]; intros index allReturned; cbv zeta;
    cbn [forEach].
  - repeat split. intros _. exists true. now rewrite andb_true_r.
  - pose proof (animateParticles_body_step state time index p allReturned)
      as Hstep.
    rewrite Est in Hstep.
    change (onElement (L := unit) (advance state index time) (p, tt))
      with (let '(x', c) := advance state index time p in ((x', tt), c)).
    destruct (advance state index time p) as [p' [[]|]].
    + destruct Hstep as [dist [Hd Hb]]. rewrite Hb.
      specialize (IH (S index) (allReturned && negb (0.1 <? dist))).
      cbv zeta in IH.
      destruct (forEach (body state time) (S index) ps _)
        as [[ps1 a1] c1].
      destruct (forEach _ (S index) ps tt) as [[ps2 []] c2].
      cbn [fst snd] in *. destruct IH as [-> [-> IH]].
      repeat split. intros Hc. destruct (IH Hc) as [b [Hi Ha]].
      cbn [inspectAll]. rewrite Hd, Hi. eexists; split; [reflexivity|].
      rewrite Ha. now rewrite <- andb_assoc.
    + rewrite Hstep. cbn [fst snd]. repeat split. discriminate.
  - repeat split.
  - pose proof (animateParticles_body_step state time index p allReturned)
      as Hstep.
    rewrite Est in Hstep.
    change (onElement (L := unit) (advance state index time) (p, tt))
      with (let '(x', c) := advance state index time p in ((x', tt), c)).
    destruct (advance state index time p) as [p' [[]|]].
    + rewrite Hstep.
      specialize (IH (S index) allReturned).
      cbv zeta in IH.
      destruct (forEach (body state time) (S index) ps _)
        as [[ps1 a1] c1].
      destruct (forEach _ (S index) ps tt) as [[ps2 []] c2].
      cbn [fst snd] in *. destruct IH as [-> [-> IH]].
      repeat split; auto.
    + rewrite Hstep. cbn [fst snd]. repeat split.
Qed.

End AnimationFacts.

Lemma bind_ext {S A B : Type} (m m' : Js S A) (k k' : A -> Js S B) (s : S) :
  m s = m' s ->
  (forall a s', k a s' = k' a s') ->
  bind m k s = bind m' k' s.
Proof.
  intros Hm Hk. unfold bind. rewrite Hm.
  destruct (m' s) as [s' [a|]]; [apply Hk | reflexivity].
Qed.

Section PassRefinement.

Variables Math_sin Math_cos : float -> float.
Variable CONFIG : Config.
Variable cb : AnimationCallbacks.

Lemma animateParticles_twoPhase_eq state time ps tps :
  animateParticles Math_sin Math_cos CONFIG cb state time ps tps
  = animateParticles_twoPhase Math_sin Math_cos CONFIG cb state time ps tps.
Proof.
  unfold animateParticles, animateParticles_twoPhase, integrateAll.
  pose proof (forEach_body_integrate Math_sin Math_cos CONFIG cb
                state time ps 0%nat true) as H1.
  cbv zeta in H1.
  destruct (forEach (animateParticles_body _ _ _ _ state time) 0 ps true)
    as [[ps1 a1] c1].
  destruct (forEach _ 0 ps tt) as [[ps2 []] c2].
  cbn [fst snd] in H1. destruct H1 as [<- [<- H1]].
  destruct c1 as [[]|]; [|reflexivity].
  specialize (H1 eq_refl).
  pose proof (forEach_body_integrate Math_sin Math_cos CONFIG cb
                state time tps 0%nat a1) as H2.
  cbv zeta in H2.
  destruct (forEach (animateParticles_body _ _ _ _ state time) 0 tps a1)
    as [[tps1 a2] c1'].
  destruct (forEach _ 0 tps tt) as [[tps2 []] c2'].
  cbn [fst snd] in H2. destruct H2 as [<- [<- H2]].
  destruct c1' as [[]|]; [|reflexivity].
  specialize (H2 eq_refl).
  destruct (AnimationState_eqb state RETURNING).
  - destruct H1 as [b1 [Hi1 ->]], H2 as [b2 [Hi2 ->]].
    rewrite inspectAll_app, Hi1, Hi2. reflexivity.
  - now subst.
Qed.

Lemma animate_twoPhase_eq time w :
  animate Math_sin Math_cos CONFIG cb time w
  = animate_twoPhase Math_sin Math_cos CONFIG cb time w.
Proof.
  unfold animate, animate_twoPhase.
  repeat (apply bind_ext; [reflexivity | intros ? ?]).
  apply bind_ext; [|reflexivity].
  now rewrite animateParticles_twoPhase_eq.
Qed.

End PassRefinement.

(** C7. The interleaved update-then-check loops of [animateParticles]
    give the same particles, the same aggregate and the same completion
    as the two-phase pass that first runs the integrator on every particle
    of both collections and only then inspects the distances; hence the
    frame tick is the tick that integrates everything, then runs the
    aggregator, then the transition, then the render call. *)
Theorem interleaved_pass_refines_two_phase
  (Math_sin Math_cos : float -> float) (CONFIG : Config)
  (cb : AnimationCallbacks) :
  (forall state time ps tps,
     animateParticles Math_sin Math_cos CONFIG cb state time ps tps
     = animateParticles_twoPhase Math_sin Math_cos CONFIG cb
         state time ps tps)
  /\ (forall time w,
        animate Math_sin Math_cos CONFIG cb time w
        = animate_twoPhase Math_sin Math_cos CONFIG cb time w).
Proof.
  split; intros.
  - apply animateParticles_twoPhase_eq.
  - apply animate_twoPhase_eq.
Qed.

(** ** The frame tick *)

Section FrameFacts.

Variables Math_sin Math_cos : float -> float.
Variable CONFIG : Config.
Variable cb : AnimationCallbacks.

(** A frame tick is: the hooks, the particle pass, and, only when the
    pass has completed, the transition and the render call. *)
Lemma animate_unfold time w :
  animate Math_sin Math_cos CONFIG cb time w
  = let w0 := logAll (frameHookCalls CONFIG cb (animationState w)) w in
    match animateParticles Math_sin Math_cos CONFIG cb
            (animationState w) time (particles w) (testParticles w) with
    | ((ps, tps), Throw) => (set_particles ps tps w0, Throw)
    | ((ps, tps), Normal allReturned) =>
        let w1 := set_particles ps tps w0 in
        let w2 :=
          if AnimationState_eqb (animationState w) RETURNING && allReturned
          then setAnimationState cb IDLE w1 else w1 in
        (if renderShowcaseFn cb then log CallRenderShowcase w2 else w2,
         Normal tt)
    end.
Proof.
  unfold animate, frameHookCalls, bind, modify, ret, get, logAll, log,
    setAnimationState, set_animationState, set_particles, log.
  destruct w as [st ps tps rt tq nx cl]; simpl.
  destruct (updateFpsFn cb),
           (updateParallaxTargetsFn cb && applyParallaxToGroupFn cb),
           (animateShowcaseBoxFn cb
            && match getMouseFn cb with Some _ => true | None => false end
            && getLastMouseMoveTimeFn cb);
    simpl;
    destruct (animateParticles Math_sin Math_cos CONFIG cb st time ps tps)
      as [[ps' tps'] [a|]]; simpl; rewrite <- ?app_assoc; simpl;
    try reflexivity;
    destruct st, a, (updateCameraFn cb), (renderShowcaseFn cb);
    simpl; rewrite <- ?app_assoc; reflexivity.
Qed.

End FrameFacts.

(** ** The event module *)

(** Runs the statements of the event module on a world given by its
    fields. *)
Ltac run_events :=
  cbv [triggerExplosion_fromState call_getAnimationState
       call_setAnimationState call_onExplosion call_onReturn returnClosure
       setTimeout clearPendingTimer clearTimeout clearReturnTimer
       setAnimationState clearedTimeouts clearCalls stateWriteCalls
       bind modify ret get throw log logAll
       set_returnTimer set_timeouts set_animationState set_particles
       animationState particles testParticles returnTimer timeouts
       nextTimerId calls AnimationState_eqb andb negb fst snd];
  rewrite <- ?app_assoc; cbn [app].

Section EventFacts.

Variable acb : AnimationCallbacks.
Variable ecb : EventCallbacks.
Variable CONFIG : Config.

(** A trigger from IDLE or RETURNING, all in one record. *)
Lemma triggerExplosion_fromState_explodes w :
  animationState w = IDLE \/ animationState w = RETURNING ->
  getAnimationStateFn ecb = true ->
  setAnimationStateFn ecb = true ->
  onExplosion ecb = true ->
  triggerExplosion_fromState acb ecb CONFIG w
  = ({| animationState := EXPLODING;
        particles := particles w;
        testParticles := testParticles w;
        returnTimer := Some (nextTimerId w);
        timeouts := clearedTimeouts w ++ [(nextTimerId w, holdDuration CONFIG)];
        nextTimerId := Pos.succ (nextTimerId w);
        calls := calls w ++ clearCalls w ++ stateWriteCalls acb EXPLODING
                 ++ [CallOnExplosion;
                     CallSetTimeout (nextTimerId w) (holdDuration CONFIG)] |},
     Normal tt).
Proof.
  intros Hst Hget Hset Hexp.
  unfold triggerExplosion_fromState, call_getAnimationState,
    call_setAnimationState, call_onExplosion, setAnimationState,
    stateWriteCalls.
  rewrite Hget, Hset, Hexp.
  destruct w as [st ps tps rt tq nx cl]; cbn [animationState] in Hst.
  destruct Hst as [-> | ->], rt as [h0|], (updateCameraFn acb);
    run_events; reflexivity.
Qed.

(** A trigger while EXPLODING with reassembleOnClick, all in one record. *)
Lemma triggerExplosion_fromState_reassembles w :
  animationState w = EXPLODING ->
  reassembleOnClick CONFIG = true ->
  getAnimationStateFn ecb = true ->
  setAnimationStateFn ecb = true ->
  onReturn ecb = true ->
  triggerExplosion_fromState acb ecb CONFIG w
  = ({| animationState := RETURNING;
        particles := particles w;
        testParticles := testParticles w;
        returnTimer := None;
        timeouts := clearedTimeouts w;
        nextTimerId := nextTimerId w;
        calls := calls w ++ clearCalls w ++ [CallOnReturn]
                 ++ stateWriteCalls acb RETURNING |},
     Normal tt).
Proof.
  intros Hst Hre Hget Hset Hret.
  unfold triggerExplosion_fromState, call_getAnimationState,
    call_setAnimationState, call_onReturn, setAnimationState,
    stateWriteCalls.
  rewrite Hget, Hset, Hret, Hre.
  destruct w as [st ps tps rt tq nx cl]; cbn [animationState] in Hst.
  subst st.
  destruct rt as [h0|], (updateCameraFn acb); run_events; reflexivity.
Qed.

(** A trigger while EXPLODING without reassembleOnClick changes nothing. *)
Lemma triggerExplosion_fromState_ignored w :
  animationState w = EXPLODING ->
  reassembleOnClick CONFIG = false ->
  getAnimationStateFn ecb = true ->
  triggerExplosion_fromState acb ecb CONFIG w = (w, Normal tt).
Proof.
  intros Hst Hre Hget.
  unfold triggerExplosion_fromState, call_getAnimationState, bind, ret, get.
  rewrite Hget, Hst, Hre. reflexivity.
Qed.

(** The return closure, when its two callbacks are set. *)
Lemma returnClosure_returns w :
  setAnimationStateFn ecb = true ->
  onReturn ecb = true ->
  returnClosure acb ecb w
  = ({| animationState := RETURNING;
        particles := particles w;
        testParticles := testParticles w;
        returnTimer := None;
        timeouts := timeouts w;
        nextTimerId := nextTimerId w;
        calls := calls w ++ [CallOnReturn] ++ stateWriteCalls acb RETURNING |},
     Normal tt).
Proof.
  intros Hset Hret.
  unfold returnClosure, call_setAnimationState, call_onReturn,
    setAnimationState, stateWriteCalls.
  rewrite Hset, Hret.
  destruct w as [st ps tps rt tq nx cl].
  destruct (updateCameraFn acb); run_events; reflexivity.
Qed.

(** No operation of the event module writes IDLE: the state it leaves is
    the one it found, EXPLODING or RETURNING. *)
Lemma triggerExplosion_fromState_state w :
  let w' := fst (triggerExplosion_fromState acb ecb CONFIG w) in
  animationState w' = animationState w
  \/ animationState w' = EXPLODING \/ animationState w' = RETURNING.
Proof.
  unfold triggerExplosion_fromState, call_getAnimationState,
    call_setAnimationState, call_onExplosion, call_onReturn,
    setAnimationState.
  destruct w as [st ps tps rt tq nx cl].
  destruct (getAnimationStateFn ecb), (setAnimationStateFn ecb),
    (onExplosion ecb), (onReturn ecb), (reassembleOnClick CONFIG),
    (updateCameraFn acb), st, rt; run_events; auto.
Qed.

Lemma fireTimeout_state h w :
  let w' := fst (fireTimeout acb ecb h w) in
  animationState w' = animationState w \/ animationState w' = RETURNING.
Proof.
  unfold fireTimeout, returnClosure, call_setAnimationState, call_onReturn,
    setAnimationState.
  destruct w as [st ps tps rt tq nx cl]. cbn [timeouts].
  destruct (existsb (fun t => Pos.eqb (fst t) h) tq); [|left; reflexivity].
  destruct (setAnimationStateFn ecb), (onReturn ecb), (updateCameraFn acb);
    run_events; auto.
Qed.

Lemma clearReturnTimer_state w :
  animationState (fst (clearReturnTimer w)) = animationState w.
Proof.
  destruct w as [st ps tps rt tq nx cl].
  destruct rt; run_events; reflexivity.
Qed.

End EventFacts.

(** ** Convergence and the transition to IDLE *)

Lemma forallb_pointwise {A : Type} (f g : A -> bool) (l : list A) :
  (forall a, f a = g a) -> forallb f l = forallb g l.
Proof.
  intros H. induction l as [|a l IH]; simpl; [reflexivity|].
  now rewrite H, IH.
Qed.

(** When the pass of a returning frame completes, its aggregate is the
    conjunction, over the particles of both collections as the pass
    leaves them, of "the distance is at most 0.1 or not a number". *)
Lemma animateParticles_returning_aggregate
  (Math_sin Math_cos : float -> float) (CONFIG : Config)
  (cb : AnimationCallbacks) time ps tps ps' tps' allReturned :
  animateParticles Math_sin Math_cos CONFIG cb RETURNING time ps tps
  = ((ps', tps'), Normal allReturned) ->
  allReturned = forallb withinToleranceOrNaN (ps' ++ tps').
Proof.
  rewrite animateParticles_twoPhase_eq.
  unfold animateParticles_twoPhase.
  destruct (integrateAll _ _ _ _ RETURNING time ps) as [ps1 [[]|]];
    [|discriminate].
  destruct (integrateAll _ _ _ _ RETURNING time tps) as [tps1 [[]|]];
    [|discriminate].
  simpl. intros H. inversion H; subst.
  rewrite (inspectAll_forallb _ _ H3).
  apply forallb_pointwise, notBeyondTolerance_withinToleranceOrNaN.
Qed.

Lemma triggerExplosion_state (direct : bool) acb ecb CONFIG event w :
  let w' :=
    fst (if direct then EventsDirect.triggerExplosion acb ecb CONFIG event w
         else EventsTap.triggerExplosion acb ecb CONFIG event w) in
  animationState w' = animationState w
  \/ animationState w' = EXPLODING \/ animationState w' = RETURNING.
Proof.
  unfold EventsDirect.triggerExplosion, EventsTap.triggerExplosion.
  destruct direct, (inGui event); unfold ret; cbv zeta; cbn [fst]; auto.
  - unfold bind at 1, modify.
    destruct (EventType_eqb (type event) touchstart); unfold ret.
    + apply (triggerExplosion_fromState_state acb ecb CONFIG
               (log CallPreventDefault w)).
    + apply triggerExplosion_fromState_state.
  - apply triggerExplosion_fromState_state.
Qed.

(** C1, as the code has it. Whatever runs (a frame, a pointer event on either
    listener, a return timeout, [clearReturnTimer]), the state becomes
    IDLE, from a state that was not IDLE, exactly when what ran is a
    frame tick in the RETURNING state whose particle pass completed and
    left every particle of both collections at a distance from its rest
    position that is at most 0.1 or is not a number: the loop tests
    [dist > 0.1], which fails for NaN. *)
Theorem idle_exactly_by_convergence
  (Math_sin Math_cos : float -> float) (CONFIG : Config)
  (acb : AnimationCallbacks) (ecb : EventCallbacks)
  (i : Input) (w w' : World) (c : completion unit) :
  step Math_sin Math_cos CONFIG acb ecb i w = (w', c) ->
  animationState w <> IDLE ->
  (animationState w' = IDLE
   <-> exists time,
         i = Frame time
         /\ animationState w = RETURNING
         /\ c = Normal tt
         /\ forallb withinToleranceOrNaN (particles w' ++ testParticles w')
            = true).
Proof.
  intros Hstep Hne.
  assert (Hother :
    (animationState w' = animationState w
     \/ animationState w' = EXPLODING \/ animationState w' = RETURNING) ->
    (forall time, i <> Frame time) ->
    (animationState w' = IDLE
     <-> exists time,
           i = Frame time /\ animationState w = RETURNING /\ c = Normal tt
           /\ forallb withinToleranceOrNaN (particles w' ++ testParticles w')
              = true)).
  { intros Hs Hi. split.
    - intros Hidle. destruct Hs as [Hs | [Hs | Hs]]; congruence.
    - intros [time [Heq _]]. now destruct (Hi time). }
  destruct i as [time | event | event | h | ]; simpl in Hstep.
  - clear Hother. rewrite animate_unfold in Hstep. cbv zeta in Hstep.
    destruct (animateParticles Math_sin Math_cos CONFIG acb
                (animationState w) time (particles w) (testParticles w))
      as [[ps' tps'] [allReturned|]] eqn:E.
    + destruct (animationState w) eqn:Est; [congruence | |].
      * inversion Hstep; subst; clear Hstep. split.
        -- destruct (renderShowcaseFn acb); simpl; rewrite Est; discriminate.
        -- intros [t [_ [Hx _]]]. discriminate.
      * apply animateParticles_returning_aggregate in E.
        injection Hstep as <- <-.
        unfold setAnimationState.
        destruct allReturned, (renderShowcaseFn acb), (updateCameraFn acb);
          cbn [animationState particles testParticles log logAll
               set_particles set_animationState andb AnimationState_eqb];
          try (split; [|intros _; reflexivity]; intros _; exists time;
               repeat split; auto; fail);
          try (rewrite Est; split; [discriminate|];
               intros [t [_ [_ [_ Hall]]]]; congruence).
    + inversion Hstep; subst; clear Hstep. simpl. split.
      * intros Hidle. congruence.
      * intros [t [_ [_ [Hc _]]]]. discriminate.
  - apply Hother; [|discriminate].
    pose proof (triggerExplosion_state true acb ecb CONFIG event w) as H.
    cbv zeta in H. cbn [fst] in H. now rewrite Hstep in H.
  - apply Hother; [|discriminate].
    pose proof (triggerExplosion_state false acb ecb CONFIG event w) as H.
    cbv zeta in H. cbn [fst] in H. now rewrite Hstep in H.
  - apply Hother; [|discriminate].
    pose proof (fireTimeout_state acb ecb h w) as H.
    cbv zeta in H. rewrite Hstep in H. destruct H; auto.
  - apply Hother; [|discriminate].
    pose proof (clearReturnTimer_state w) as H.
    rewrite Hstep in H. left. exact H.
Qed.

(** C1 as the specification words it fails on a particle whose distance
    is not a number: the returning frame below ends in IDLE, yet not every
    particle is within 0.1 of its rest position. *)
Lemma nan_distance_counts_as_returned :
  let w := Sample.world RETURNING [Sample.atRest; Sample.lost] [] None [] in
  let r := animate Sample.sinTaylor Sample.cosTaylor Sample.config
             Sample.allHooks 1700000000000 w in
  animationState w = RETURNING
  /\ snd r = Normal tt
  /\ animationState (fst r) = IDLE
  /\ forallb withinTolerance (particles (fst r) ++ testParticles (fst r))
     = false.
Proof. vm_compute. repeat split. Qed.

(** A returning frame on particles at rest, run through the theorem. *)
Lemma idle_exactly_by_convergence_witness :
  let w := Sample.world RETURNING [Sample.atRest] [Sample.atRest] None [] in
  let i := Frame 1700000000000 in
  let r := step Sample.sinTaylor Sample.cosTaylor Sample.config
             Sample.allHooks Sample.allCallbacks i w in
  animationState w <> IDLE
  /\ (animationState (fst r) = IDLE
      <-> exists time,
            i = Frame time
            /\ animationState w = RETURNING
            /\ snd r = Normal tt
            /\ forallb withinToleranceOrNaN
                 (particles (fst r) ++ testParticles (fst r)) = true).
Proof.
  cbv zeta. split; [discriminate|].
  apply (idle_exactly_by_convergence Sample.sinTaylor Sample.cosTaylor
           Sample.config Sample.allHooks Sample.allCallbacks).
  - apply surjective_pairing.
  - discriminate.
Defined.

(** C10. With both collections empty, a frame tick in the RETURNING state
    completes, leaves the state IDLE and the collections empty. *)
Theorem empty_collections_return_at_once
  (Math_sin Math_cos : float -> float) (CONFIG : Config)
  (cb : AnimationCallbacks) (time : float) (w : World) :
  animationState w = RETURNING ->
  particles w = [] ->
  testParticles w = [] ->
  exists w',
    animate Math_sin Math_cos CONFIG cb time w = (w', Normal tt)
    /\ animationState w' = IDLE
    /\ particles w' = []
    /\ testParticles w' = [].
Proof.
  intros Hst Hps Htps.
  rewrite animate_unfold, Hst, Hps, Htps. cbv zeta. simpl.
  eexists; split; [reflexivity|].
  unfold setAnimationState.
  destruct (renderShowcaseFn cb), (updateCameraFn cb); simpl; auto.
Qed.

(** A frame tick with no hook set, on empty collections. *)
Lemma empty_collections_return_at_once_witness :
  let w := Sample.world RETURNING [] [] None [] in
  animationState w = RETURNING
  /\ exists w',
       animate Sample.sinTaylor Sample.cosTaylor Sample.config
         Sample.noHooks 1700000000000 w = (w', Normal tt)
       /\ animationState w' = IDLE
       /\ particles w' = []
       /\ testParticles w' = [].
Proof.
  cbv zeta. split; [reflexivity|].
  apply (empty_collections_return_at_once Sample.sinTaylor Sample.cosTaylor
           Sample.config Sample.noHooks 1700000000000
           (Sample.world RETURNING [] [] None []));
    reflexivity.
Defined.

(** ** A fault in one particle's update *)

Lemma forEach_app {X L : Type} (body : nat -> Js (X * L) unit)
  (xs ys : list X) :
  forall index l,
    forEach body index (xs ++ ys) l
    = match forEach body index xs l with
      | ((xs', l'), Normal _) =>
          let '((ys', l''), c) :=
            forEach body (index + length xs) ys l' in
          ((xs' ++ ys', l''), c)
      | ((xs', l'), Throw) => ((xs' ++ ys, l'), Throw)
      end.
Proof.
  induction xs as [|x xs IH]; intros index l; cbn [forEach app length].
  - rewrite Nat.add_0_r.
    destruct (forEach body index ys l) as [[ys' l'] c]. reflexivity.
  - destruct (body index (x, l)) as [[x' l1] [[]|]]; [|reflexivity].
    rewrite IH, Nat.add_succ_r. cbn [Nat.add].
    destruct (forEach body (S index) xs l1) as [[xs' l2] [[]|]];
      [|reflexivity].
    destruct (forEach body (S (index + length xs)) ys l2) as [[ys' l3] c].
    reflexivity.
Qed.

Section FaultFacts.

Variables Math_sin Math_cos : float -> float.
Variable CONFIG : Config.
Variable cb : AnimationCallbacks.

(** A collection whose particle [bad] throws, after the particles
    [before] have been integrated: the loop stops there. *)
Lemma forEach_body_fault state time before bad after before' bad' l :
  integrateAll Math_sin Math_cos CONFIG cb state time before
  = (before', Normal tt) ->
  animateSingleParticle Math_sin Math_cos CONFIG (getMouseFn cb)
    state (length before) time bad = (bad', Throw) ->
  exists l',
    forEach (animateParticles_body Math_sin Math_cos CONFIG cb state time)
      0 (before ++ bad :: after) l
    = ((before' ++ bad' :: after, l'), Throw).
Proof.
  intros Hbefore Hbad.
  pose proof (forEach_body_integrate Math_sin Math_cos CONFIG cb
                state time before 0%nat l) as H.
  cbv zeta in H. unfold integrateAll in Hbefore.
  destruct (forEach (L := unit) _ 0 before tt) as [[ps2 []] c2].
  injection Hbefore as -> ->.
  rewrite forEach_app.
  destruct (forEach (animateParticles_body _ _ _ _ state time) 0 before l)
    as [[ps1 l1] c1].
  cbn [fst snd] in H. destruct H as [-> [-> _]].
  cbn [Nat.add forEach].
  pose proof (animateParticles_body_step Math_sin Math_cos CONFIG cb
                state time (length before) bad l1) as Hstep.
  rewrite Hbad in Hstep. rewrite Hstep.
  exists l1. reflexivity.
Qed.

Lemma forEach_body_completes state time ps ps' l :
  integrateAll Math_sin Math_cos CONFIG cb state time ps = (ps', Normal tt) ->
  exists l',
    forEach (animateParticles_body Math_sin Math_cos CONFIG cb state time)
      0 ps l
    = ((ps', l'), Normal tt).
Proof.
  intros Hps.
  pose proof (forEach_body_integrate Math_sin Math_cos CONFIG cb
                state time ps 0%nat l) as H.
  cbv zeta in H. unfold integrateAll in Hps.
  destruct (forEach (L := unit) _ 0 ps tt) as [[ps2 []] c2].
  injection Hps as -> ->.
  destruct (forEach (animateParticles_body _ _ _ _ state time) 0 ps l)
    as [[ps1 l1] c1].
  cbn [fst snd] in H. destruct H as [-> [-> _]].
  exists l1. reflexivity.
Qed.

End FaultFacts.

(** C8, as the code has it. A fault raised during one particle's update is not
    isolated: it ends the frame tick.  The particles that the pass reaches
    before the faulting one are integrated; the faulting one is left as
    its update had it when it threw; the particles after it in its
    collection, and every test particle when it is a tree particle, are
    not touched in that tick; the state is not changed and nothing is
    called after the hooks that precede the pass, so neither the camera
    hook nor the render hook runs. *)
Theorem particle_fault_ends_the_frame
  (Math_sin Math_cos : float -> float) (CONFIG : Config)
  (cb : AnimationCallbacks) (time : float) (w : World)
  (before after : list Particle) (bad : Particle)
  (before' : list Particle) (bad' : Particle) :
  let integrate :=
    integrateAll Math_sin Math_cos CONFIG cb (animationState w) time in
  let advance :=
    animateSingleParticle Math_sin Math_cos CONFIG (getMouseFn cb)
      (animationState w) in
  integrate before = (before', Normal tt) ->
  advance (length before) time bad = (bad', Throw) ->
  (particles w = before ++ bad :: after ->
   exists w',
     animate Math_sin Math_cos CONFIG cb time w = (w', Throw)
     /\ particles w' = before' ++ bad' :: after
     /\ testParticles w' = testParticles w
     /\ animationState w' = animationState w
     /\ calls w' = calls w ++ frameHookCalls CONFIG cb (animationState w))
  /\ (forall ps',
        integrate (particles w) = (ps', Normal tt) ->
        testParticles w = before ++ bad :: after ->
        exists w',
          animate Math_sin Math_cos CONFIG cb time w = (w', Throw)
          /\ particles w' = ps'
          /\ testParticles w' = before' ++ bad' :: after
          /\ animationState w' = animationState w
          /\ calls w' = calls w ++ frameHookCalls CONFIG cb (animationState w)).
Proof.
  cbv zeta. intros Hbefore Hbad. split.
  - intros Hps.
    destruct (forEach_body_fault Math_sin Math_cos CONFIG cb
                (animationState w) time before bad after before' bad' true
                Hbefore Hbad) as [l' Hloop].
    rewrite animate_unfold. unfold animateParticles.
    rewrite Hps, Hloop. cbv zeta. eexists; split; [reflexivity|].
    cbn [particles testParticles animationState calls set_particles logAll].
    auto.
  - intros ps' Hps Htps.
    destruct (forEach_body_completes Math_sin Math_cos CONFIG cb
                (animationState w) time (particles w) ps' true Hps)
      as [l1 Hloop1].
    destruct (forEach_body_fault Math_sin Math_cos CONFIG cb
                (animationState w) time before bad after before' bad' l1
                Hbefore Hbad) as [l' Hloop].
    rewrite animate_unfold. unfold animateParticles.
    rewrite Hloop1, Htps, Hloop. cbv zeta. eexists; split; [reflexivity|].
    cbn [particles testParticles animationState calls set_particles logAll].
    auto.
Qed.

(** C8 as the specification words it fails: the second particle of the
    collection below has no [userData] fields, the pass throws on it, and
    the third particle, which the integrator would move, is left where it
    was. *)
Lemma particle_after_fault_is_not_updated :
  let ps := [Sample.atRest; Sample.bareMesh Sample.rest1; Sample.away] in
  let w := Sample.world RETURNING ps [] None [] in
  let r := animate Sample.sinTaylor Sample.cosTaylor Sample.config
             Sample.allHooks 1700000000000 w in
  snd r = Throw
  /\ nth_error (particles (fst r)) 2 = Some Sample.away
  /\ exists p',
       animateSingleParticle Sample.sinTaylor Sample.cosTaylor Sample.config
         (getMouseFn Sample.allHooks) RETURNING 2 1700000000000 Sample.away
       = (p', Normal tt)
       /\ (Vector3.x (position p') =? Vector3.x (position Sample.away)) = false.
Proof.
  cbv zeta. split; [vm_compute; reflexivity|].
  split; [vm_compute; reflexivity|].
  eexists. split; [vm_compute; reflexivity|]. vm_compute. reflexivity.
Qed.

(** A bare mesh between two particles of the tree collection. *)
Lemma particle_fault_ends_the_frame_witness :
  let ps := [Sample.atRest; Sample.bareMesh Sample.rest1; Sample.away] in
  let w := Sample.world RETURNING ps [Sample.away] None [] in
  exists w' p',
    animate Sample.sinTaylor Sample.cosTaylor Sample.config
      Sample.allHooks 1700000000000 w = (w', Throw)
    /\ particles w' = [p'; Sample.bareMesh Sample.rest1; Sample.away]
    /\ testParticles w' = [Sample.away]
    /\ animationState w' = RETURNING.
Proof.
  cbv zeta.
  destruct (particle_fault_ends_the_frame Sample.sinTaylor Sample.cosTaylor
              Sample.config Sample.allHooks 1700000000000
              (Sample.world RETURNING
                 [Sample.atRest; Sample.bareMesh Sample.rest1; Sample.away]
                 [Sample.away] None [])
              [Sample.atRest] [Sample.away] (Sample.bareMesh Sample.rest1)
              (fst (integrateAll Sample.sinTaylor Sample.cosTaylor
                      Sample.config Sample.allHooks RETURNING 1700000000000
                      [Sample.atRest]))
              (Sample.bareMesh Sample.rest1))
    as [Hmain _].
  - vm_compute. reflexivity.
  - vm_compute. reflexivity.
  - destruct (Hmain eq_refl) as [w' [Hrun [Hps [Htps [Hst _]]]]].
    exists w'.
    exists (hd Sample.atRest
              (fst (integrateAll Sample.sinTaylor Sample.cosTaylor
                      Sample.config Sample.allHooks RETURNING 1700000000000
                      [Sample.atRest]))).
    repeat split; assumption.
Defined.

(** ** Triggers *)

(** A handle that has been cleared is no longer in the queue. *)
Lemma existsb_filter_out (h : timerId) (q : list (timerId * float)) :
  existsb (fun t => Pos.eqb (fst t) h)
    (filter (fun t => negb (Pos.eqb (fst t) h)) q) = false.
Proof.
  induction q as [|[h' delay] q IH]; [reflexivity|].
  cbn [filter fst]. destruct (Pos.eqb h' h) eqn:E; cbn [negb].
  - exact IH.
  - cbn [existsb fst]. now rewrite E, IH.
Qed.

Lemma triggerExplosion_unfold (direct : bool) acb ecb CONFIG event w :
  inGui event = false ->
  (if direct then EventsDirect.triggerExplosion acb ecb CONFIG event w
   else EventsTap.triggerExplosion acb ecb CONFIG event w)
  = triggerExplosion_fromState acb ecb CONFIG
      (logAll (preludeCalls direct event) w).
Proof.
  intros Hgui.
  unfold EventsDirect.triggerExplosion, EventsTap.triggerExplosion,
    preludeCalls.
  rewrite Hgui.
  assert (Hnil : logAll [] w = w)
    by (destruct w; unfold logAll; cbn; now rewrite app_nil_r).
  destruct direct; cbn [andb]; [|now rewrite Hnil].
  unfold bind at 1.
  destruct (EventType_eqb (type event) touchstart);
    unfold modify, ret; [reflexivity | now rewrite Hnil].
Qed.

(** C2. A trigger that arrives in IDLE or RETURNING from outside the
    control panel, in either version of the event module: clears the
    pending return timer if there is one, writes EXPLODING once, calls the
    explosion callback once and not the return callback, and schedules
    one timeout of holdDuration whose handle it keeps; when that timeout
    fires, its closure calls the return callback, writes RETURNING and
    resets the handle. *)
Theorem trigger_starts_explosion
  (acb : AnimationCallbacks) (ecb : EventCallbacks) (CONFIG : Config)
  (direct : bool) (event : Event) (w : World) :
  inGui event = false ->
  animationState w = IDLE \/ animationState w = RETURNING ->
  getAnimationStateFn ecb = true ->
  setAnimationStateFn ecb = true ->
  onExplosion ecb = true ->
  onReturn ecb = true ->
  let h := nextTimerId w in
  let made :=
    clearCalls w ++ stateWriteCalls acb EXPLODING
    ++ [CallOnExplosion; CallSetTimeout h (holdDuration CONFIG)] in
  exists w',
    (if direct then EventsDirect.triggerExplosion acb ecb CONFIG event w
     else EventsTap.triggerExplosion acb ecb CONFIG event w)
    = (w', Normal tt)
    /\ animationState w' = EXPLODING
    /\ calls w' = calls w ++ preludeCalls direct event ++ made
    /\ count (isCall_setState EXPLODING) made = 1%nat
    /\ count isCall_onExplosion made = 1%nat
    /\ count isCall_onReturn made = 0%nat
    /\ count isCall_setTimeout made = 1%nat
    /\ returnTimer w' = Some h
    /\ timeouts w' = clearedTimeouts w ++ [(h, holdDuration CONFIG)]
    /\ (forall h0,
          returnTimer w = Some h0 -> h0 <> h ->
          fireTimeout acb ecb h0 w' = (w', Normal tt))
    /\ exists w'',
         fireTimeout acb ecb h w' = (w'', Normal tt)
         /\ animationState w'' = RETURNING
         /\ returnTimer w'' = None
         /\ calls w'' = calls w' ++ [CallOnReturn]
                        ++ stateWriteCalls acb RETURNING
         /\ timeouts w''
            = filter (fun t => negb (Pos.eqb (fst t) h)) (timeouts w').
Proof.
  intros Hgui Hst Hget Hset Hexp Hret. cbv zeta.
  rewrite (triggerExplosion_unfold direct acb ecb CONFIG event w Hgui).
  rewrite triggerExplosion_fromState_explodes by assumption.
  eexists; split; [reflexivity|].
  cbn [animationState calls returnTimer timeouts nextTimerId logAll].
  split; [reflexivity|].
  split; [now rewrite <- app_assoc|].
  assert (Hcounts :
    count (isCall_setState EXPLODING)
      (clearCalls w ++ stateWriteCalls acb EXPLODING
       ++ [CallOnExplosion; CallSetTimeout (nextTimerId w) (holdDuration CONFIG)])
    = 1%nat
    /\ count isCall_onExplosion
         (clearCalls w ++ stateWriteCalls acb EXPLODING
          ++ [CallOnExplosion;
              CallSetTimeout (nextTimerId w) (holdDuration CONFIG)])
       = 1%nat
    /\ count isCall_onReturn
         (clearCalls w ++ stateWriteCalls acb EXPLODING
          ++ [CallOnExplosion;
              CallSetTimeout (nextTimerId w) (holdDuration CONFIG)])
       = 0%nat
    /\ count isCall_setTimeout
         (clearCalls w ++ stateWriteCalls acb EXPLODING
          ++ [CallOnExplosion;
              CallSetTimeout (nextTimerId w) (holdDuration CONFIG)])
       = 1%nat)
    by (unfold clearCalls, stateWriteCalls;
        destruct (returnTimer w), (updateCameraFn acb); repeat split).
  destruct Hcounts as [H1 [H2 [H3 H4]]].
  repeat (split; [assumption || reflexivity|]).
  split.
  { intros h0 Hold Hfresh. unfold fireTimeout, clearedTimeouts.
    cbn [timeouts returnTimer logAll]. rewrite Hold.
    rewrite existsb_app, existsb_filter_out. cbn [existsb fst orb].
    apply Pos.eqb_neq in Hfresh. rewrite Pos.eqb_sym, Hfresh. reflexivity. }
  unfold fireTimeout. cbn [timeouts].
  rewrite existsb_app. cbn [existsb fst]. rewrite Pos.eqb_refl, orb_true_r.
  rewrite returnClosure_returns by assumption.
  eexists; split; [reflexivity|].
  cbn [animationState calls returnTimer timeouts nextTimerId set_timeouts].
  repeat split.
Qed.

(** A touch while returning, with the timer of handle 7 still pending. *)
Lemma trigger_starts_explosion_witness :
  let w :=
    Sample.world RETURNING [Sample.away] [] (Some 7%positive)
      [(7%positive, 15000)] in
  exists w' w'',
    EventsDirect.triggerExplosion Sample.allHooks Sample.allCallbacks
      Sample.config Sample.touch w = (w', Normal tt)
    /\ animationState w' = EXPLODING
    /\ calls w'
       = [CallPreventDefault; CallClearTimeout 7%positive;
          CallSetAnimationState EXPLODING; CallUpdateCamera EXPLODING;
          CallOnExplosion; CallSetTimeout 8%positive 15000]
    /\ returnTimer w' = Some 8%positive
    /\ timeouts w' = [(8%positive, 15000)]
    /\ fireTimeout Sample.allHooks Sample.allCallbacks 8%positive w'
       = (w'', Normal tt)
    /\ animationState w'' = RETURNING
    /\ returnTimer w'' = None.
Proof.
  cbv zeta.
  destruct (trigger_starts_explosion Sample.allHooks Sample.allCallbacks
              Sample.config true Sample.touch
              (Sample.world RETURNING [Sample.away] [] (Some 7%positive)
                 [(7%positive, 15000)])
              eq_refl (or_intror eq_refl) eq_refl eq_refl eq_refl eq_refl)
    as [w' [Hrun [Hst [Hcalls [_ [_ [_ [_ [Htimer [Hqueue [_ Hfire]]]]]]]]]]].
  destruct Hfire as [w'' [Hfire [Hst' [Htimer' _]]]].
  exists w', w''. repeat split; assumption.
Defined.

(** C3. A trigger that arrives in EXPLODING with reassembleOnClick set, from
    outside the control panel, in either version of the event module:
    clears the pending return timer if there is one, calls the return
    callback once, writes RETURNING once and schedules nothing: no
    [setTimeout] is called, the queue only loses the cleared timer and no
    handle is kept. *)
Theorem trigger_reassembles
  (acb : AnimationCallbacks) (ecb : EventCallbacks) (CONFIG : Config)
  (direct : bool) (event : Event) (w : World) :
  inGui event = false ->
  animationState w = EXPLODING ->
  reassembleOnClick CONFIG = true ->
  getAnimationStateFn ecb = true ->
  setAnimationStateFn ecb = true ->
  onReturn ecb = true ->
  let made :=
    clearCalls w ++ [CallOnReturn] ++ stateWriteCalls acb RETURNING in
  exists w',
    (if direct then EventsDirect.triggerExplosion acb ecb CONFIG event w
     else EventsTap.triggerExplosion acb ecb CONFIG event w)
    = (w', Normal tt)
    /\ animationState w' = RETURNING
    /\ calls w' = calls w ++ preludeCalls direct event ++ made
    /\ count isCall_onReturn made = 1%nat
    /\ count (isCall_setState RETURNING) made = 1%nat
    /\ count isCall_onExplosion made = 0%nat
    /\ count isCall_setTimeout made = 0%nat
    /\ returnTimer w' = None
    /\ timeouts w' = clearedTimeouts w
    /\ nextTimerId w' = nextTimerId w
    /\ (forall h0,
          returnTimer w = Some h0 ->
          fireTimeout acb ecb h0 w' = (w', Normal tt)).
Proof.
  intros Hgui Hst Hre Hget Hset Hret. cbv zeta.
  rewrite (triggerExplosion_unfold direct acb ecb CONFIG event w Hgui).
  rewrite triggerExplosion_fromState_reassembles by assumption.
  eexists; split; [reflexivity|].
  cbn [animationState calls returnTimer timeouts nextTimerId logAll].
  split; [reflexivity|].
  split; [now rewrite <- app_assoc|].
  assert (Hfire :
    forall h0, returnTimer w = Some h0 ->
      existsb (fun t => Pos.eqb (fst t) h0)
        (clearedTimeouts (logAll (preludeCalls direct event) w)) = false).
  { intros h0 Hold. unfold clearedTimeouts. cbn [returnTimer timeouts logAll].
    rewrite Hold. apply existsb_filter_out. }
  unfold fireTimeout. cbn [timeouts].
  unfold clearCalls, stateWriteCalls.
  destruct (returnTimer w) as [h1|], (updateCameraFn acb); repeat split;
    try (intros h0 Hold; rewrite (Hfire h0 Hold); reflexivity);
    try discriminate.
Qed.

(** A click while exploding, with the timer of handle 7 pending. *)
Lemma trigger_reassembles_witness :
  let w :=
    Sample.world EXPLODING [Sample.away] [] (Some 7%positive)
      [(7%positive, 15000)] in
  exists w',
    EventsTap.triggerExplosion Sample.allHooks Sample.allCallbacks
      Sample.config Sample.click w = (w', Normal tt)
    /\ animationState w' = RETURNING
    /\ calls w'
       = [CallClearTimeout 7%positive; CallOnReturn;
          CallSetAnimationState RETURNING; CallUpdateCamera RETURNING]
    /\ returnTimer w' = None
    /\ timeouts w' = [].
Proof.
  cbv zeta.
  destruct (trigger_reassembles Sample.allHooks Sample.allCallbacks
              Sample.config false Sample.click
              (Sample.world EXPLODING [Sample.away] [] (Some 7%positive)
                 [(7%positive, 15000)])
              eq_refl eq_refl eq_refl eq_refl eq_refl eq_refl)
    as [w' [Hrun [Hst [Hcalls [_ [_ [_ [_ [Htimer [Hqueue _]]]]]]]]]].
  exists w'. repeat split; assumption.
Defined.

(** C4. A trigger that arrives in EXPLODING with reassembleOnClick not set
    is a no-op in either version of the event module: it completes
    without a call to any callback ([onExplosion], [onReturn], the state
    setter, the camera hook) or to the timers, and it leaves the state,
    the timer handle, the timer queue and the particles as they were.
    The version that listens to touchstart itself still calls
    [event.preventDefault()] on a touch; otherwise the world is the one
    it found. *)
Theorem trigger_ignored_while_exploding
  (acb : AnimationCallbacks) (ecb : EventCallbacks) (CONFIG : Config)
  (direct : bool) (event : Event) (w : World) :
  animationState w = EXPLODING ->
  reassembleOnClick CONFIG = false ->
  getAnimationStateFn ecb = true ->
  let made := if inGui event then [] else preludeCalls direct event in
  (if direct then EventsDirect.triggerExplosion acb ecb CONFIG event w
   else EventsTap.triggerExplosion acb ecb CONFIG event w)
  = (logAll made w, Normal tt)
  /\ animationState (logAll made w) = EXPLODING
  /\ returnTimer (logAll made w) = returnTimer w
  /\ timeouts (logAll made w) = timeouts w
  /\ nextTimerId (logAll made w) = nextTimerId w
  /\ count isCall_hook made = 0%nat
  /\ count isCall_setTimeout made = 0%nat
  /\ (made = [] -> logAll made w = w).
Proof.
  intros Hst Hre Hget. cbv zeta.
  assert (Hnil : logAll [] w = w)
    by (destruct w; unfold logAll; cbn; now rewrite app_nil_r).
  split.
  - destruct (inGui event) eqn:Hgui.
    + rewrite Hnil.
      unfold EventsDirect.triggerExplosion, EventsTap.triggerExplosion.
      rewrite Hgui. now destruct direct.
    + rewrite (triggerExplosion_unfold direct acb ecb CONFIG event w Hgui).
      now apply triggerExplosion_fromState_ignored.
  - cbn [animationState returnTimer timeouts nextTimerId logAll].
    repeat split; try assumption.
    + unfold preludeCalls.
      destruct (inGui event), (direct && EventType_eqb (type event) touchstart);
        reflexivity.
    + unfold preludeCalls.
      destruct (inGui event), (direct && EventType_eqb (type event) touchstart);
        reflexivity.
    + intros ->. exact Hnil.
Qed.

(** A touch while exploding, on both listeners, reassembleOnClick off. *)
Lemma trigger_ignored_while_exploding_witness :
  let w :=
    Sample.world EXPLODING [Sample.away] [] (Some 7%positive)
      [(7%positive, 15000)] in
  EventsTap.triggerExplosion Sample.allHooks Sample.allCallbacks
    Sample.configNoReassemble Sample.touch w = (w, Normal tt)
  /\ EventsDirect.triggerExplosion Sample.allHooks Sample.allCallbacks
       Sample.configNoReassemble Sample.touch w
     = (log CallPreventDefault w, Normal tt).
Proof.
  cbv zeta. split.
  - destruct (trigger_ignored_while_exploding Sample.allHooks
                Sample.allCallbacks Sample.configNoReassemble false
                Sample.touch
                (Sample.world EXPLODING [Sample.away] [] (Some 7%positive)
                   [(7%positive, 15000)])
                eq_refl eq_refl eq_refl) as [Hrun _].
    exact Hrun.
  - destruct (trigger_ignored_while_exploding Sample.allHooks
                Sample.allCallbacks Sample.configNoReassemble true
                Sample.touch
                (Sample.world EXPLODING [Sample.away] [] (Some 7%positive)
                   [(7%positive, 15000)])
                eq_refl eq_refl eq_refl) as [Hrun _].
    exact Hrun.
Defined.

(** ** Callbacks that are not set *)

Lemma triggerExplosion_fromState_completes acb ecb CONFIG w :
  getAnimationStateFn ecb = true ->
  setAnimationStateFn ecb = true ->
  onExplosion ecb = true ->
  onReturn ecb = true ->
  snd (triggerExplosion_fromState acb ecb CONFIG w) = Normal tt.
Proof.
  intros Hget Hset Hexp Hret.
  destruct (animationState w) eqn:Hst.
  - rewrite triggerExplosion_fromState_explodes; auto.
  - destruct (reassembleOnClick CONFIG) eqn:Hre.
    + rewrite triggerExplosion_fromState_reassembles; auto.
    + rewrite triggerExplosion_fromState_ignored; auto.
  - rewrite triggerExplosion_fromState_explodes; auto.
Qed.

(** C9 as the specification words it fails for the event module: with the
    state callbacks set and [onExplosion] and [onReturn] not set, a trigger
    in IDLE throws when it calls [onExplosion], after it has written
    EXPLODING and before it schedules the return, and a trigger in
    EXPLODING throws when it calls [onReturn]. *)
Lemma trigger_with_unset_callbacks_throws :
  let idle := Sample.world IDLE [Sample.atRest] [] None [] in
  let exploding := Sample.world EXPLODING [Sample.away] [] None [] in
  let explode :=
    EventsTap.triggerExplosion Sample.allHooks Sample.stateCallbacksOnly
      Sample.config Sample.click idle in
  let reassemble :=
    EventsDirect.triggerExplosion Sample.allHooks Sample.stateCallbacksOnly
      Sample.config Sample.click exploding in
  snd explode = Throw
  /\ animationState (fst explode) = EXPLODING
  /\ returnTimer (fst explode) = None
  /\ timeouts (fst explode) = []
  /\ snd reassemble = Throw.
Proof. vm_compute. repeat split. Qed.

(** C9, as the code has it.  The animation module guards every hook it
    calls.  [setAnimationState] with no camera hook only writes the
    state, before [initAnimation] too.  A frame tick of the initialised
    module ends as its particle pass ends, whichever hooks are set; the
    calls it makes are the scheduling of the next frame and the hooks
    whose guards hold, and a hook that is not set is not called.  Before
    [initAnimation] the frame throws at once, reading [CONFIG.uncapFPS]
    of null, and changes nothing.  The event module calls its callbacks
    unguarded: a trigger, through either listener, completes without
    error when the four callbacks that [initEvents] stores are set. *)
Theorem unset_hooks_are_skipped_by_the_animation_module :
  (forall acb newState w,
     updateCameraFn acb = false ->
     setAnimationState acb newState w = set_animationState newState w)
  /\ (forall newState w,
        setAnimationState (callbacksOf None) newState w
        = set_animationState newState w)
  /\ (forall Math_sin Math_cos time w,
        startAnimationLoop Math_sin Math_cos None time w = (w, Throw))
  /\ (forall Math_sin Math_cos CONFIG acb time w,
        let frame :=
          startAnimationLoop Math_sin Math_cos (Some (CONFIG, acb)) time w in
        let pass :=
          animateParticles Math_sin Math_cos CONFIG acb (animationState w)
            time (particles w) (testParticles w) in
        snd frame
        = match snd pass with Normal _ => Normal tt | Throw => Throw end
        /\ calls (fst frame)
           = calls w ++ frameHookCalls CONFIG acb (animationState w)
             ++ match snd pass with
                | Normal allReturned =>
                    frameTailCalls acb (animationState w) allReturned
                | Throw => []
                end
        /\ (forall h,
              hookIsSet acb h = false ->
              count (isCallOf h) (calls (fst frame))
              = count (isCallOf h) (calls w)))
  /\ (forall acb ecb CONFIG (direct : bool) event w,
        getAnimationStateFn ecb = true ->
        setAnimationStateFn ecb = true ->
        onExplosion ecb = true ->
        onReturn ecb = true ->
        snd (if direct
             then EventsDirect.triggerExplosion acb ecb CONFIG event w
             else EventsTap.triggerExplosion acb ecb CONFIG event w)
        = Normal tt).
Proof.
  split; [|split; [|split; [|split]]].
  - intros acb newState w Hcam. unfold setAnimationState. now rewrite Hcam.
  - intros newState w. reflexivity.
  - intros Math_sin Math_cos time w. reflexivity.
  - intros Math_sin Math_cos CONFIG acb time w frame pass.
    assert (Hcalls :
      calls (fst frame)
      = calls w ++ frameHookCalls CONFIG acb (animationState w)
        ++ match snd pass with
           | Normal allReturned =>
               frameTailCalls acb (animationState w) allReturned
           | Throw => []
           end).
    { subst frame. unfold startAnimationLoop.
      rewrite animate_unfold. fold pass.
      destruct pass as [[ps tps] [allReturned | ]]; cbv zeta; cbn [snd].
      - unfold frameTailCalls, setAnimationState.
        destruct (AnimationState_eqb (animationState w) RETURNING
                  && allReturned),
                 (updateCameraFn acb), (renderShowcaseFn acb);
          cbn [fst snd calls log logAll set_particles set_animationState
               andb app];
          rewrite <- ?app_assoc, ?app_nil_r; reflexivity.
      - cbn [fst snd calls logAll set_particles].
        now rewrite app_nil_r. }
    split; [|split].
    + subst frame. unfold startAnimationLoop.
      rewrite animate_unfold. fold pass.
      destruct pass as [[ps tps] [allReturned | ]]; reflexivity.
    + exact Hcalls.
    + intros h Hunset.
      rewrite Hcalls.
      unfold count.
      rewrite !filter_app, !length_app.
      assert (Hhooks :
        filter (isCallOf h) (frameHookCalls CONFIG acb (animationState w))
        = []).
      { unfold frameHookCalls.
        destruct h; cbn [hookIsSet] in Hunset; rewrite ?Hunset;
          destruct (uncapFPS CONFIG), (updateFpsFn acb),
            (updateParallaxTargetsFn acb), (applyParallaxToGroupFn acb),
            (animateShowcaseBoxFn acb), (getMouseFn acb),
            (getLastMouseMoveTimeFn acb);
          try discriminate; reflexivity. }
      assert (Htail :
        forall allReturned,
          filter (isCallOf h)
            (frameTailCalls acb (animationState w) allReturned) = []).
      { intros allReturned. unfold frameTailCalls.
        destruct h; cbn [hookIsSet] in Hunset; rewrite ?Hunset;
          destruct (AnimationState_eqb (animationState w) RETURNING
                    && allReturned),
            (updateCameraFn acb), (renderShowcaseFn acb);
          try discriminate; reflexivity. }
      rewrite Hhooks.
      destruct (snd pass) as [allReturned | ];
        rewrite ?Htail; cbn [length]; rewrite !Nat.add_0_r; reflexivity.
  - intros acb ecb CONFIG direct event w Hget Hset Hexp Hret.
    destruct (inGui event) eqn:Hgui.
    + unfold EventsDirect.triggerExplosion, EventsTap.triggerExplosion.
      rewrite Hgui. now destruct direct.
    + rewrite (triggerExplosion_unfold direct acb ecb CONFIG event w Hgui).
      now apply triggerExplosion_fromState_completes.
Qed.

(** The module before [initAnimation]; after it with the render and the
    camera hook only, on a frame whose pass completes; and a click with
    all event callbacks set. *)
Lemma unset_hooks_are_skipped_by_the_animation_module_witness :
  let w := Sample.world RETURNING [Sample.atRest] [Sample.atRest] None [] in
  let acb :=
    {| updateFpsFn := false; updateParallaxTargetsFn := true;
       applyParallaxToGroupFn := false; animateShowcaseBoxFn := true;
       renderShowcaseFn := true; getMouseFn := None;
       getLastMouseMoveTimeFn := true; updateCameraFn := true |} in
  let frame :=
    startAnimationLoop Sample.sinTaylor Sample.cosTaylor
      (Some (Sample.config, acb)) 1700000000000 w in
  setAnimationState (callbacksOf None) EXPLODING w
  = set_animationState EXPLODING w
  /\ startAnimationLoop Sample.sinTaylor Sample.cosTaylor None
       1700000000000 w = (w, Throw)
  /\ snd frame = Normal tt
  /\ calls (fst frame)
     = [CallRequestAnimationFrame; CallUpdateCamera IDLE; CallRenderShowcase]
  /\ count (isCallOf HookApplyParallaxToGroup) (calls (fst frame)) = 0%nat
  /\ snd (EventsTap.triggerExplosion Sample.noHooks Sample.allCallbacks
            Sample.config Sample.click w) = Normal tt.
Proof.
  intros w acb frame.
  destruct unset_hooks_are_skipped_by_the_animation_module
    as [_ [Hset [Hloaded [Hframe Htrigger]]]].
  destruct (Hframe Sample.sinTaylor Sample.cosTaylor Sample.config acb
              1700000000000 w) as [Hdone [Hcalls Hskipped]].
  split; [apply Hset|].
  split; [apply Hloaded|].
  split; [etransitivity; [exact Hdone | vm_compute; reflexivity]|].
  split; [etransitivity; [exact Hcalls | vm_compute; reflexivity]|].
  split; [etransitivity;
          [exact (Hskipped HookApplyParallaxToGroup eq_refl)
          | reflexivity]|].
  exact (Htrigger Sample.noHooks Sample.allCallbacks Sample.config false
           Sample.click w eq_refl eq_refl eq_refl eq_refl).
Defined.

(** * Further properties *)

(** ** The return timer over a run *)

Lemma timerInvariant_shape (w : World) :
  timerInvariant w <->
  (returnTimer w = None /\ timeouts w = [])
  \/ (exists h,
        returnTimer w = Some h
        /\ animationState w = EXPLODING
        /\ (h < nextTimerId w)%positive
        /\ (timeouts w = [] \/ exists delay, timeouts w = [(h, delay)])).
Proof.
  unfold timerInvariant. split.
  - intros [Hlen [Hin Hheld]].
    destruct (returnTimer w) as [h|] eqn:Hrt.
    + right. exists h. destruct (Hheld h eq_refl) as [Hst Hlt].
      repeat split; try assumption.
      destruct (timeouts w) as [|[h' delay] q]; [now left|right].
      destruct q; [|simpl in Hlen; lia].
      specialize (Hin h' delay (or_introl eq_refl)).
      injection Hin as ->. now exists delay.
    + left. split; [reflexivity|].
      destruct (timeouts w) as [|[h' delay] q]; [reflexivity|].
      specialize (Hin h' delay (or_introl eq_refl)). discriminate.
  - intros [[Hrt Hq] | [h [Hrt [Hst [Hlt Hq]]]]].
    + rewrite Hrt, Hq. simpl. split; [lia|]. split.
      * intros h delay [].
      * discriminate.
    + rewrite Hrt.
      assert (Hheld :
        forall h1, Some h = Some h1 ->
          animationState w = EXPLODING /\ (h1 < nextTimerId w)%positive)
        by (intros h1 E; injection E as <-; now split).
      destruct Hq as [Hq | [delay Hq]]; rewrite Hq; simpl;
        (split; [lia|]); (split; [|exact Hheld]).
      * intros h1 d [].
      * intros h1 d [E | []]. now injection E as -> _.
Qed.

(** The fields a world is made of, to reason on a world given by them. *)
Lemma world_eta (w : World) :
  w = {| animationState := animationState w; particles := particles w;
         testParticles := testParticles w; returnTimer := returnTimer w;
         timeouts := timeouts w; nextTimerId := nextTimerId w;
         calls := calls w |}.
Proof. now destruct w. Qed.

Ltac shape_after :=
  apply timerInvariant_shape;
  cbn [animationState returnTimer timeouts nextTimerId];
  first
    [ left; split; reflexivity
    | right; eexists; split; [reflexivity|];
      split; [reflexivity|];
      split; [first [assumption | apply Pos.lt_succ_diag_r
                     | eapply Pos.lt_trans;
                       [eassumption | apply Pos.lt_succ_diag_r]]|];
      first [left; reflexivity | right; eexists; reflexivity] ].

Section TimerFacts.

Variable acb : AnimationCallbacks.
Variable ecb : EventCallbacks.
Variable CONFIG : Config.

Lemma triggerExplosion_fromState_invariant w :
  timerInvariant w ->
  timerInvariant (fst (triggerExplosion_fromState acb ecb CONFIG w)).
Proof.
  intros Hinv. apply timerInvariant_shape in Hinv.
  unfold triggerExplosion_fromState, call_getAnimationState,
    call_setAnimationState, call_onExplosion, call_onReturn,
    setAnimationState.
  destruct w as [st ps tps rt tq nx cl].
  cbn [animationState returnTimer timeouts nextTimerId] in Hinv.
  destruct Hinv as [[-> ->] | [h [-> [-> [Hlt [-> | [delay ->]]]]]]];
    destruct (getAnimationStateFn ecb), (setAnimationStateFn ecb),
      (onExplosion ecb), (onReturn ecb), (reassembleOnClick CONFIG),
      (updateCameraFn acb);
    try destruct st;
    run_events; cbn [filter fst negb]; rewrite ?Pos.eqb_refl;
    cbn [negb app]; shape_after.
Qed.

Lemma fireTimeout_invariant h w :
  timerInvariant w -> timerInvariant (fst (fireTimeout acb ecb h w)).
Proof.
  intros Hinv. apply timerInvariant_shape in Hinv.
  unfold fireTimeout, returnClosure, call_setAnimationState, call_onReturn,
    setAnimationState.
  destruct w as [st ps tps rt tq nx cl].
  cbn [animationState returnTimer timeouts nextTimerId] in Hinv |- *.
  destruct Hinv as [[-> ->] | [h0 [-> [-> [Hlt [-> | [delay ->]]]]]]];
    cbn [existsb filter fst orb negb];
    try (cbn [fst]; shape_after; fail).
  destruct (Pos.eqb h0 h); cbn [orb negb fst]; [|shape_after].
  destruct (setAnimationStateFn ecb), (onReturn ecb), (updateCameraFn acb);
    run_events; shape_after.
Qed.

Lemma clearReturnTimer_invariant w :
  timerInvariant w -> timerInvariant (fst (clearReturnTimer w)).
Proof.
  intros Hinv. apply timerInvariant_shape in Hinv.
  destruct w as [st ps tps rt tq nx cl].
  cbn [animationState returnTimer timeouts nextTimerId] in Hinv.
  destruct Hinv as [[-> ->] | [h [-> [-> [Hlt [-> | [delay ->]]]]]]];
    run_events; cbn [filter fst negb]; rewrite ?Pos.eqb_refl;
    cbn [negb]; shape_after.
Qed.

End TimerFacts.

Section FrameEffect.

Variables Math_sin Math_cos : float -> float.
Variable CONFIG : Config.
Variable cb : AnimationCallbacks.

(** What a frame can change beside the particles and the calls: the
    state, and only from RETURNING to IDLE. *)
Lemma animate_frame_effect time w :
  let w' := fst (animate Math_sin Math_cos CONFIG cb time w) in
  returnTimer w' = returnTimer w
  /\ timeouts w' = timeouts w
  /\ nextTimerId w' = nextTimerId w
  /\ (animationState w' = animationState w
      \/ (animationState w = RETURNING /\ animationState w' = IDLE)).
Proof.
  cbv zeta. rewrite animate_unfold. cbv zeta.
  destruct (animateParticles Math_sin Math_cos CONFIG cb (animationState w)
              time (particles w) (testParticles w))
    as [[ps tps] [allReturned|]]; cbn [fst].
  - unfold setAnimationState.
    destruct (animationState w) eqn:Est, allReturned, (renderShowcaseFn cb),
      (updateCameraFn cb);
      cbn [AnimationState_eqb andb animationState returnTimer timeouts
           nextTimerId log logAll set_particles set_animationState];
      rewrite ?Est; repeat split; auto.
  - cbn [animationState returnTimer timeouts nextTimerId logAll
         set_particles]. auto.
Qed.

Lemma animate_particles_of_pass time w :
  let w' := fst (animate Math_sin Math_cos CONFIG cb time w) in
  let pass :=
    animateParticles Math_sin Math_cos CONFIG cb (animationState w) time
      (particles w) (testParticles w) in
  particles w' = fst (fst pass) /\ testParticles w' = snd (fst pass).
Proof.
  cbv zeta. rewrite animate_unfold. cbv zeta.
  destruct (animateParticles Math_sin Math_cos CONFIG cb (animationState w)
              time (particles w) (testParticles w))
    as [[ps tps] [allReturned|]]; cbn [fst snd].
  - unfold setAnimationState.
    destruct (AnimationState_eqb (animationState w) RETURNING && allReturned),
      (renderShowcaseFn cb), (updateCameraFn cb);
      cbn [particles testParticles log logAll set_particles
           set_animationState]; auto.
  - cbn [particles testParticles set_particles]. auto.
Qed.

End FrameEffect.

Section RunFacts.

Variables Math_sin Math_cos : float -> float.
Variable CONFIG : Config.
Variable acb : AnimationCallbacks.
Variable ecb : EventCallbacks.

Let step' := step Math_sin Math_cos CONFIG acb ecb.
Let run' := run Math_sin Math_cos CONFIG acb ecb.

Lemma triggerExplosion_prelude (direct : bool) event w :
  fst (if direct then EventsDirect.triggerExplosion acb ecb CONFIG event w
       else EventsTap.triggerExplosion acb ecb CONFIG event w)
  = if inGui event then w
    else fst (triggerExplosion_fromState acb ecb CONFIG
                (logAll (preludeCalls direct event) w)).
Proof.
  destruct (inGui event) eqn:Hgui.
  - unfold EventsDirect.triggerExplosion, EventsTap.triggerExplosion.
    rewrite Hgui. now destruct direct.
  - now rewrite (triggerExplosion_unfold direct acb ecb CONFIG event w Hgui).
Qed.

Lemma logAll_invariant l w : timerInvariant w -> timerInvariant (logAll l w).
Proof. intros H. exact H. Qed.

Lemma step_invariant i w :
  timerInvariant w -> timerInvariant (fst (step' i w)).
Proof.
  intros Hinv. unfold step', step. destruct i as [time|event|event|h|].
  - pose proof (animate_frame_effect Math_sin Math_cos CONFIG acb time w)
      as [Hrt [Hq [Hnx Hst]]].
    apply timerInvariant_shape in Hinv. apply timerInvariant_shape.
    rewrite Hrt, Hq, Hnx.
    destruct Hinv as [Hquiet | [h [Hheld [Hexp Hrest]]]]; [now left|].
    right. exists h. split; [exact Hheld|]. split; [|exact Hrest].
    destruct Hst as [-> | [Hret _]]; congruence.
  - rewrite (triggerExplosion_prelude true event w).
    destruct (inGui event); [exact Hinv|].
    now apply triggerExplosion_fromState_invariant, logAll_invariant.
  - rewrite (triggerExplosion_prelude false event w).
    destruct (inGui event); [exact Hinv|].
    now apply triggerExplosion_fromState_invariant, logAll_invariant.
  - now apply fireTimeout_invariant.
  - now apply clearReturnTimer_invariant.
Qed.

Lemma run_invariant inputs :
  forall w, timerInvariant w -> timerInvariant (run' inputs w).
Proof.
  induction inputs as [|i inputs IH]; intros w Hinv; [exact Hinv|].
  apply IH, step_invariant, Hinv.
Qed.

Lemma initialWorld_invariant ps tps next :
  timerInvariant (initialWorld ps tps next).
Proof. apply timerInvariant_shape. left. split; reflexivity. Qed.

Lemma triggerExplosion_fromState_permitted w :
  permittedTransition (animationState w)
    (animationState (fst (triggerExplosion_fromState acb ecb CONFIG w)))
  = true.
Proof.
  unfold triggerExplosion_fromState, call_getAnimationState,
    call_setAnimationState, call_onExplosion, call_onReturn,
    setAnimationState.
  destruct w as [st ps tps rt tq nx cl].
  destruct (getAnimationStateFn ecb), (setAnimationStateFn ecb),
    (onExplosion ecb), (onReturn ecb), (reassembleOnClick CONFIG),
    (updateCameraFn acb), st, rt; run_events; reflexivity.
Qed.

Lemma fireTimeout_permitted h w :
  timerInvariant w ->
  permittedTransition (animationState w)
    (animationState (fst (fireTimeout acb ecb h w))) = true.
Proof.
  intros Hinv. apply timerInvariant_shape in Hinv.
  unfold fireTimeout, returnClosure, call_setAnimationState, call_onReturn,
    setAnimationState.
  destruct w as [st ps tps rt tq nx cl].
  cbn [animationState returnTimer timeouts nextTimerId] in Hinv |- *.
  destruct Hinv as [[-> ->] | [h0 [-> [-> [Hlt [-> | [delay ->]]]]]]];
    cbn [existsb filter fst orb negb animationState];
    try (destruct st; reflexivity); try reflexivity.
  destruct (Pos.eqb h0 h); cbn [orb negb fst animationState];
    [|reflexivity].
  destruct (setAnimationStateFn ecb), (onReturn ecb), (updateCameraFn acb);
    run_events; reflexivity.
Qed.

Lemma permittedTransition_refl a : permittedTransition a a = true.
Proof. now destruct a. Qed.

Lemma step_permitted i w :
  timerInvariant w ->
  permittedTransition (animationState w) (animationState (fst (step' i w)))
  = true.
Proof.
  intros Hinv. unfold step', step. destruct i as [time|event|event|h|].
  - pose proof (animate_frame_effect Math_sin Math_cos CONFIG acb time w)
      as [_ [_ [_ Hst]]].
    destruct Hst as [-> | [-> ->]];
      [apply permittedTransition_refl | reflexivity].
  - rewrite (triggerExplosion_prelude true event w).
    destruct (inGui event); [apply permittedTransition_refl|].
    apply (triggerExplosion_fromState_permitted
             (logAll (preludeCalls true event) w)).
  - rewrite (triggerExplosion_prelude false event w).
    destruct (inGui event); [apply permittedTransition_refl|].
    apply (triggerExplosion_fromState_permitted
             (logAll (preludeCalls false event) w)).
  - now apply fireTimeout_permitted.
  - rewrite (clearReturnTimer_state w). apply permittedTransition_refl.
Qed.

End RunFacts.

(** X1. From the modules as loaded, whatever inputs run and whichever
    callbacks are set: at most one return timeout is pending, it is the
    one whose handle [returnTimer] holds, and [returnTimer] holds a handle
    only while the state is EXPLODING. *)
Theorem one_return_timer_at_most
  (Math_sin Math_cos : float -> float) (CONFIG : Config)
  (acb : AnimationCallbacks) (ecb : EventCallbacks)
  (inputs : list Input) (ps tps : list Particle) (next : timerId) :
  let w :=
    run Math_sin Math_cos CONFIG acb ecb inputs (initialWorld ps tps next) in
  (length (timeouts w) <= 1)%nat
  /\ (forall h delay, In (h, delay) (timeouts w) -> returnTimer w = Some h)
  /\ (forall h, returnTimer w = Some h ->
                animationState w = EXPLODING /\ (h < nextTimerId w)%positive).
Proof.
  cbv zeta.
  exact (run_invariant Math_sin Math_cos CONFIG acb ecb inputs
           (initialWorld ps tps next) (initialWorld_invariant ps tps next)).
Qed.

(** X2. From the modules as loaded, every input leaves the state as it
    was or makes one of IDLE to EXPLODING, RETURNING to EXPLODING,
    EXPLODING to RETURNING, RETURNING to IDLE. *)
Theorem only_permitted_transitions
  (Math_sin Math_cos : float -> float) (CONFIG : Config)
  (acb : AnimationCallbacks) (ecb : EventCallbacks)
  (inputs : list Input) (i : Input)
  (ps tps : list Particle) (next : timerId) :
  let w :=
    run Math_sin Math_cos CONFIG acb ecb inputs (initialWorld ps tps next) in
  permittedTransition (animationState w)
    (animationState (fst (step Math_sin Math_cos CONFIG acb ecb i w)))
  = true.
Proof.
  cbv zeta. apply step_permitted.
  apply run_invariant, initialWorld_invariant.
Qed.

(** ** What the integrator keeps *)

Lemma sameIdentity_refl p : sameIdentity p p.
Proof. repeat split. Qed.

Lemma sameIdentity_trans p q r :
  sameIdentity p q -> sameIdentity q r -> sameIdentity p r.
Proof.
  unfold sameIdentity. intros [H1 [H2 [H3 H4]]] [K1 [K2 [K3 K4]]].
  repeat split; congruence.
Qed.

Lemma Forall2_sameIdentity_refl ps : Forall2 sameIdentity ps ps.
Proof. induction ps; constructor; auto using sameIdentity_refl. Qed.

Lemma Forall2_sameIdentity_trans ps :
  forall qs rs,
    Forall2 sameIdentity ps qs -> Forall2 sameIdentity qs rs ->
    Forall2 sameIdentity ps rs.
Proof.
  induction ps as [|p ps IH]; intros qs rs H1 H2.
  - inversion H1; subst. inversion H2; subst. constructor.
  - inversion H1; subst. inversion H2; subst. constructor.
    + eapply sameIdentity_trans; eassumption.
    + eapply IH; eassumption.
Qed.

Section IdentityFacts.

Variables Math_sin Math_cos : float -> float.
Variable CONFIG : Config.
Variable cb : AnimationCallbacks.

Let advance :=
  animateSingleParticle Math_sin Math_cos CONFIG (getMouseFn cb).
Let body := animateParticles_body Math_sin Math_cos CONFIG cb.

Lemma animateSingleParticle_identity state index time p :
  sameIdentity p (fst (advance state index time p)).
Proof.
  unfold advance, animateSingleParticle, bind, field, modify, get,
    sameIdentity.
  destruct p as [pos rot [op et rs sh sens]]; simpl.
  destruct rs as [rs|]; simpl; [|auto].
  destruct state; simpl.
  - destruct op; simpl; auto.
  - destruct sh as [sh|]; simpl; [|auto].
    destruct (explodedParallaxEnabled CONFIG); simpl;
      destruct et; simpl; auto.
  - destruct op; simpl; [|auto].
    destruct sh; simpl; auto.
Qed.

Lemma animateParticles_body_element state time index p allReturned :
  fst (fst (body state time index (p, allReturned)))
  = fst (advance state index time p).
Proof.
  pose proof (animateParticles_body_step Math_sin Math_cos CONFIG cb
                state time index p allReturned) as H.
  fold advance in H. fold body in H.
  destruct (advance state index time p) as [p' [[]|]].
  - destruct (AnimationState_eqb state RETURNING).
    + destruct H as [dist [_ ->]]. reflexivity.
    + now rewrite H.
  - now rewrite H.
Qed.

Lemma forEach_body_identity state time ps :
  forall index allReturned,
    Forall2 sameIdentity ps
      (fst (fst (forEach (body state time) index ps allReturned))).
Proof.
  induction ps as [|p ps IH]; intros index allReturned; cbn [forEach].
  - constructor.
  - pose proof (animateParticles_body_element state time index p allReturned)
      as Hel.
    pose proof (animateSingleParticle_identity state index time p) as Hid.
    rewrite <- Hel in Hid.
    destruct (body state time index (p, allReturned)) as [[p' l'] [[]|]];
      cbn [fst] in Hid.
    + specialize (IH (S index) l').
      destruct (forEach (body state time) (S index) ps l') as [[ps' l''] c].
      cbn [fst] in *. now constructor.
    + cbn [fst]. constructor; [exact Hid|apply Forall2_sameIdentity_refl].
Qed.

Lemma animateParticles_identity state time ps tps :
  let pass :=
    animateParticles Math_sin Math_cos CONFIG cb state time ps tps in
  Forall2 sameIdentity ps (fst (fst pass))
  /\ Forall2 sameIdentity tps (snd (fst pass)).
Proof.
  cbv zeta. unfold animateParticles. fold body.
  pose proof (forEach_body_identity state time ps 0%nat true) as H1.
  destruct (forEach (body state time) 0 ps true) as [[ps' a] [[]|]];
    cbn [fst snd] in *.
  - pose proof (forEach_body_identity state time tps 0%nat a) as H2.
    destruct (forEach (body state time) 0 tps a) as [[tps' a'] [[]|]];
      cbn [fst snd] in *; auto.
  - split; [exact H1|apply Forall2_sameIdentity_refl].
Qed.

(** A particle with all its objects is updated without a fault, in every
    state, and still has them. *)
Lemma animateSingleParticle_wellFormed state index time p :
  wellFormed p = true ->
  snd (advance state index time p) = Normal tt
  /\ wellFormed (fst (advance state index time p)) = true.
Proof.
  unfold advance, animateSingleParticle, bind, field, modify, get,
    wellFormed.
  destruct p as [pos rot [[op|] [et|] [rs|] [sh|] sens]]; simpl;
    try discriminate.
  intros _.
  destruct state; simpl; auto.
  destruct (explodedParallaxEnabled CONFIG); simpl; auto.
Qed.

Lemma forEach_body_wellFormed state time ps :
  forall index allReturned,
    forallb wellFormed ps = true ->
    snd (forEach (body state time) index ps allReturned) = Normal tt
    /\ forallb wellFormed
         (fst (fst (forEach (body state time) index ps allReturned))) = true.
Proof.
  induction ps as [|p ps IH]; intros index allReturned Hwf;
    cbn [forEach forallb] in *.
  - auto.
  - apply andb_true_iff in Hwf. destruct Hwf as [Hp Hps].
    destruct (animateSingleParticle_wellFormed state index time p Hp)
      as [Hdone Hwf'].
    pose proof (animateParticles_body_step Math_sin Math_cos CONFIG cb
                  state time index p allReturned) as Hstep.
    fold advance in Hstep. fold body in Hstep.
    destruct (advance state index time p) as [p' c]. cbn [fst snd] in *.
    subst c.
    assert (Hbody :
      exists l', body state time index (p, allReturned)
                 = ((p', l'), Normal tt)).
    { destruct (AnimationState_eqb state RETURNING).
      - destruct Hstep as [dist [_ Hb]]. eauto.
      - eauto. }
    destruct Hbody as [l' ->].
    destruct (IH (S index) l' Hps) as [Hc Hw].
    destruct (forEach (body state time) (S index) ps l') as [[ps' l''] c].
    cbn [fst snd forallb] in *. now rewrite Hwf', Hw.
Qed.

Lemma animate_wellFormed time w :
  forallb wellFormed (particles w ++ testParticles w) = true ->
  let r := animate Math_sin Math_cos CONFIG cb time w in
  snd r = Normal tt
  /\ forallb wellFormed (particles (fst r) ++ testParticles (fst r)) = true.
Proof.
  intros Hwf. cbv zeta.
  rewrite forallb_app in Hwf. apply andb_true_iff in Hwf.
  destruct Hwf as [Hps Htps].
  pose proof (animate_particles_of_pass Math_sin Math_cos CONFIG cb time w)
    as [Hp Ht].
  rewrite forallb_app, Hp, Ht. rewrite animate_unfold. cbv zeta.
  unfold animateParticles. fold body.
  destruct (forEach_body_wellFormed (animationState w) time (particles w)
              0%nat true Hps) as [Hc1 Hw1].
  destruct (forEach (body (animationState w) time) 0 (particles w) true)
    as [[ps' a] c1]. cbn [fst snd] in *. subst c1.
  destruct (forEach_body_wellFormed (animationState w) time (testParticles w)
              0%nat a Htps) as [Hc2 Hw2].
  destruct (forEach (body (animationState w) time) 0 (testParticles w) a)
    as [[tps' a'] c2]. cbn [fst snd] in *. subst c2.
  cbn [fst snd]. split; [reflexivity|]. now rewrite Hw1, Hw2.
Qed.

End IdentityFacts.

Section StepFacts.

Variables Math_sin Math_cos : float -> float.
Variable CONFIG : Config.
Variable acb : AnimationCallbacks.
Variable ecb : EventCallbacks.

Lemma triggerExplosion_fromState_particles w :
  let w' := fst (triggerExplosion_fromState acb ecb CONFIG w) in
  particles w' = particles w /\ testParticles w' = testParticles w.
Proof.
  unfold triggerExplosion_fromState, call_getAnimationState,
    call_setAnimationState, call_onExplosion, call_onReturn,
    setAnimationState.
  destruct w as [st ps tps rt tq nx cl].
  destruct (getAnimationStateFn ecb), (setAnimationStateFn ecb),
    (onExplosion ecb), (onReturn ecb), (reassembleOnClick CONFIG),
    (updateCameraFn acb), st, rt; run_events; auto.
Qed.

Lemma fireTimeout_particles h w :
  let w' := fst (fireTimeout acb ecb h w) in
  particles w' = particles w /\ testParticles w' = testParticles w.
Proof.
  unfold fireTimeout, returnClosure, call_setAnimationState, call_onReturn,
    setAnimationState.
  destruct w as [st ps tps rt tq nx cl]. cbn [timeouts].
  destruct (existsb (fun t => Pos.eqb (fst t) h) tq); [|auto].
  destruct (setAnimationStateFn ecb), (onReturn ecb), (updateCameraFn acb);
    run_events; auto.
Qed.

Lemma clearReturnTimer_particles w :
  let w' := fst (clearReturnTimer w) in
  particles w' = particles w /\ testParticles w' = testParticles w.
Proof.
  destruct w as [st ps tps rt tq nx cl].
  destruct rt; run_events; auto.
Qed.

(** Every input but a frame leaves both collections as they are. *)
Lemma step_particles i w :
  (forall time, i <> Frame time) ->
  let w' := fst (step Math_sin Math_cos CONFIG acb ecb i w) in
  particles w' = particles w /\ testParticles w' = testParticles w.
Proof.
  intros Hi. cbv zeta. unfold step.
  destruct i as [time|event|event|h|].
  - now destruct (Hi time).
  - rewrite (triggerExplosion_prelude CONFIG acb ecb true event w).
    destruct (inGui event); [auto|].
    apply (triggerExplosion_fromState_particles
             (logAll (preludeCalls true event) w)).
  - rewrite (triggerExplosion_prelude CONFIG acb ecb false event w).
    destruct (inGui event); [auto|].
    apply (triggerExplosion_fromState_particles
             (logAll (preludeCalls false event) w)).
  - apply fireTimeout_particles.
  - apply clearReturnTimer_particles.
Qed.

Lemma step_identity i w :
  let w' := fst (step Math_sin Math_cos CONFIG acb ecb i w) in
  Forall2 sameIdentity (particles w) (particles w')
  /\ Forall2 sameIdentity (testParticles w) (testParticles w').
Proof.
  cbv zeta.
  assert (Hother :
    (forall time, i <> Frame time) ->
    Forall2 sameIdentity (particles w)
      (particles (fst (step Math_sin Math_cos CONFIG acb ecb i w)))
    /\ Forall2 sameIdentity (testParticles w)
         (testParticles (fst (step Math_sin Math_cos CONFIG acb ecb i w)))).
  { intros Hi. destruct (step_particles i w Hi) as [-> ->].
    split; apply Forall2_sameIdentity_refl. }
  destruct i as [time|event|event|h|];
    try (apply Hother; intros; discriminate).
  unfold step.
  destruct (animate_particles_of_pass Math_sin Math_cos CONFIG acb time w)
    as [-> ->].
  apply animateParticles_identity.
Qed.

Lemma step_wellFormed i w :
  forallb wellFormed (particles w ++ testParticles w) = true ->
  let w' := fst (step Math_sin Math_cos CONFIG acb ecb i w) in
  forallb wellFormed (particles w' ++ testParticles w') = true.
Proof.
  intros Hwf. cbv zeta.
  assert (Hother :
    (forall time, i <> Frame time) ->
    forallb wellFormed
      (particles (fst (step Math_sin Math_cos CONFIG acb ecb i w))
       ++ testParticles (fst (step Math_sin Math_cos CONFIG acb ecb i w)))
    = true).
  { intros Hi. destruct (step_particles i w Hi) as [-> ->]. exact Hwf. }
  destruct i as [time|event|event|h|];
    try (apply Hother; intros; discriminate).
  apply (animate_wellFormed Math_sin Math_cos CONFIG acb time w Hwf).
Qed.

End StepFacts.

(** X3. No run of inputs adds, removes or reorders a particle of either
    collection, or changes the rest position, the explosion target, the
    rotation speed or the parallax sensitivity of one, faults included. *)
Theorem particles_keep_their_identity
  (Math_sin Math_cos : float -> float) (CONFIG : Config)
  (acb : AnimationCallbacks) (ecb : EventCallbacks)
  (inputs : list Input) (w : World) :
  let w' := run Math_sin Math_cos CONFIG acb ecb inputs w in
  Forall2 sameIdentity (particles w) (particles w')
  /\ Forall2 sameIdentity (testParticles w) (testParticles w')
  /\ length (particles w') = length (particles w)
  /\ length (testParticles w') = length (testParticles w).
Proof.
  cbv zeta.
  assert (H :
    Forall2 sameIdentity (particles w)
      (particles (run Math_sin Math_cos CONFIG acb ecb inputs w))
    /\ Forall2 sameIdentity (testParticles w)
         (testParticles (run Math_sin Math_cos CONFIG acb ecb inputs w))).
  { revert w. induction inputs as [|i inputs IH]; intros w; cbn [run].
    - split; apply Forall2_sameIdentity_refl.
    - destruct (step_identity Math_sin Math_cos CONFIG acb ecb i w)
        as [H1 H2].
      destruct (IH (fst (step Math_sin Math_cos CONFIG acb ecb i w)))
        as [K1 K2].
      split; eapply Forall2_sameIdentity_trans; eassumption. }
  destruct H as [H1 H2]. repeat split; try assumption.
  - symmetry. eapply Forall2_length; eassumption.
  - symmetry. eapply Forall2_length; eassumption.
Qed.

(** X4. A frame tick never touches the return timer: [returnTimer] and
    the pending return closures are after it what they were before.  A
    pointer event, a timeout and [clearReturnTimer] never touch a
    particle: both collections are after them what they were before.
    This holds whichever callbacks are set and whether or not the input
    throws. *)
Theorem frames_and_events_keep_apart
  (Math_sin Math_cos : float -> float) (CONFIG : Config)
  (acb : AnimationCallbacks) (ecb : EventCallbacks)
  (i : Input) (w : World) :
  let w' := fst (step Math_sin Math_cos CONFIG acb ecb i w) in
  match i with
  | Frame _ =>
      returnTimer w' = returnTimer w
      /\ timeouts w' = timeouts w
  | _ => particles w' = particles w /\ testParticles w' = testParticles w
  end.
Proof.
  cbv zeta. destruct i as [time|event|event|h|];
    try (apply step_particles; intros; discriminate).
  unfold step.
  destruct (animate_frame_effect Math_sin Math_cos CONFIG acb time w)
    as [H1 [H2 _]].
  auto.
Qed.

(** X5. When every particle of both collections has the objects the
    integrator reads, no frame ever throws, after whatever inputs, and
    the particles still have them. *)
Theorem frames_never_throw_on_well_formed_particles
  (Math_sin Math_cos : float -> float) (CONFIG : Config)
  (acb : AnimationCallbacks) (ecb : EventCallbacks)
  (inputs : list Input) (time : float) (w : World) :
  forallb wellFormed (particles w ++ testParticles w) = true ->
  let w' := run Math_sin Math_cos CONFIG acb ecb inputs w in
  snd (animate Math_sin Math_cos CONFIG acb time w') = Normal tt
  /\ forallb wellFormed (particles w' ++ testParticles w') = true.
Proof.
  intros Hwf. cbv zeta.
  assert (H :
    forallb wellFormed
      (particles (run Math_sin Math_cos CONFIG acb ecb inputs w)
       ++ testParticles (run Math_sin Math_cos CONFIG acb ecb inputs w))
    = true).
  { revert w Hwf. induction inputs as [|i inputs IH]; intros w Hwf;
      cbn [run]; [exact Hwf|].
    apply IH, step_wellFormed, Hwf. }
  split; [|exact H].
  apply (animate_wellFormed Math_sin Math_cos CONFIG acb time _ H).
Qed.

(** A returning world with three particles, after a click and a frame. *)
Lemma frames_never_throw_on_well_formed_particles_witness :
  let w :=
    Sample.world RETURNING [Sample.atRest; Sample.away] [Sample.away]
      None [] in
  let inputs := [PointerTap Sample.click; Frame 1700000000000] in
  let w' :=
    run Sample.sinTaylor Sample.cosTaylor Sample.config Sample.allHooks
      Sample.allCallbacks inputs w in
  forallb wellFormed (particles w ++ testParticles w) = true
  /\ snd (animate Sample.sinTaylor Sample.cosTaylor Sample.config
            Sample.allHooks 1700000000016 w') = Normal tt
  /\ forallb wellFormed (particles w' ++ testParticles w') = true.
Proof.
  cbv zeta. split; [reflexivity|].
  apply (frames_never_throw_on_well_formed_particles
           Sample.sinTaylor Sample.cosTaylor Sample.config Sample.allHooks
           Sample.allCallbacks
           [PointerTap Sample.click; Frame 1700000000000] 1700000000016
           (Sample.world RETURNING [Sample.atRest; Sample.away]
              [Sample.away] None [])).
  reflexivity.
Defined.

(** X6. A mesh as [rebuildTreeParticles] and [createTestParticle] make it
    starts at its rest position with a zero parallax shift.  When its
    explosion target was read inside the array of targets it has every
    object the integrator reads, and its update completes in every
    state; when the target was read past the end of the array, its update
    completes in IDLE and RETURNING and throws in EXPLODING. *)
Theorem created_mesh_faults_only_without_target
  (Math_sin Math_cos : float -> float) (CONFIG : Config)
  (mouseFn : option Vector2.t) (random : nat -> float)
  (pos : Vector3.t) (target : option Vector3.t)
  (state : AnimationState) (index : nat) (time : float) :
  let p := createMesh random pos target in
  position p = pos
  /\ originalPos (userData p) = Some pos
  /\ individualParallaxShift (userData p) = Some (Vector3.make 0 0 0)
  /\ wellFormed p = match target with Some _ => true | None => false end
  /\ snd (animateSingleParticle Math_sin Math_cos CONFIG mouseFn
            state index time p)
     = match target, state with
       | None, EXPLODING => Throw
       | _, _ => Normal tt
       end.
Proof.
  cbv zeta. unfold createMesh, createParticleUserData, wellFormed,
    animateSingleParticle, bind, field, modify, get.
  destruct target, state; simpl; repeat split;
    destruct (explodedParallaxEnabled CONFIG); reflexivity.
Qed.

(** ** An explosion without its timer *)

Section StuckFacts.

Variables Math_sin Math_cos : float -> float.
Variable CONFIG : Config.
Variable acb : AnimationCallbacks.
Variable ecb : EventCallbacks.

Lemma triggerExplosion_fromState_exploding_ignored w :
  animationState w = EXPLODING ->
  reassembleOnClick CONFIG = false ->
  fst (triggerExplosion_fromState acb ecb CONFIG w) = w.
Proof.
  intros Hst Hre.
  destruct (getAnimationStateFn ecb) eqn:Hget.
  - now rewrite triggerExplosion_fromState_ignored.
  - unfold triggerExplosion_fromState, call_getAnimationState, bind, throw.
    now rewrite Hget.
Qed.

Lemma step_exploding_without_timer i w :
  reassembleOnClick CONFIG = false ->
  animationState w = EXPLODING ->
  timeouts w = [] ->
  let w' := fst (step Math_sin Math_cos CONFIG acb ecb i w) in
  animationState w' = EXPLODING /\ timeouts w' = [].
Proof.
  intros Hre Hst Hq. cbv zeta. unfold step.
  destruct i as [time|event|event|h|].
  - destruct (animate_frame_effect Math_sin Math_cos CONFIG acb time w)
      as [_ [-> [_ [-> | [Hret _]]]]]; [auto | congruence].
  - rewrite (triggerExplosion_prelude CONFIG acb ecb true event w).
    destruct (inGui event); [auto|].
    now rewrite triggerExplosion_fromState_exploding_ignored.
  - rewrite (triggerExplosion_prelude CONFIG acb ecb false event w).
    destruct (inGui event); [auto|].
    now rewrite triggerExplosion_fromState_exploding_ignored.
  - unfold fireTimeout. rewrite Hq. cbn [existsb fst]. auto.
  - rewrite (clearReturnTimer_state w). split; [exact Hst|].
    destruct w as [st ps tps rt tq nx cl]. cbn [timeouts] in Hq. subst tq.
    destruct rt; run_events; reflexivity.
Qed.

Lemma run_exploding_without_timer inputs :
  forall w,
    reassembleOnClick CONFIG = false ->
    animationState w = EXPLODING ->
    timeouts w = [] ->
    animationState (run Math_sin Math_cos CONFIG acb ecb inputs w)
    = EXPLODING.
Proof.
  induction inputs as [|i inputs IH]; intros w Hre Hst Hq; cbn [run];
    [exact Hst|].
  destruct (step_exploding_without_timer i w Hre Hst Hq) as [Hst' Hq'].
  now apply IH.
Qed.

Lemma clearReturnTimer_clears w :
  timerInvariant w ->
  let w' := fst (clearReturnTimer w) in
  returnTimer w' = None /\ timeouts w' = [].
Proof.
  intros Hinv. apply timerInvariant_shape in Hinv.
  destruct w as [st ps tps rt tq nx cl].
  cbn [animationState returnTimer timeouts nextTimerId] in Hinv.
  destruct Hinv as [[-> ->] | [h [-> [-> [Hlt [-> | [delay ->]]]]]]];
    run_events; cbn [filter fst negb]; rewrite ?Pos.eqb_refl; auto.
Qed.

End StuckFacts.

(** X7. With reassembleOnClick off, a call of [clearReturnTimer] during
    an explosion ends the explosion's only way out: whatever inputs
    follow (frames, pointer events on either listener, timeouts, further
    calls), the state stays EXPLODING. *)
Theorem cleared_explosion_never_returns
  (Math_sin Math_cos : float -> float) (CONFIG : Config)
  (acb : AnimationCallbacks) (ecb : EventCallbacks)
  (before after : list Input) (ps tps : list Particle) (next : timerId) :
  let w :=
    fst (clearReturnTimer
           (run Math_sin Math_cos CONFIG acb ecb before
              (initialWorld ps tps next))) in
  reassembleOnClick CONFIG = false ->
  animationState w = EXPLODING ->
  animationState (run Math_sin Math_cos CONFIG acb ecb after w) = EXPLODING.
Proof.
  cbv zeta. intros Hre Hst.
  apply run_exploding_without_timer; try assumption.
  apply clearReturnTimer_clears, run_invariant, initialWorld_invariant.
Qed.

(** A click, then [clearReturnTimer], then a timeout, clicks and frames. *)
Lemma cleared_explosion_never_returns_witness :
  let before := [PointerTap Sample.click] in
  let after :=
    [TimeoutFires 1%positive; PointerDirect Sample.touch;
     Frame 1700000000000; PointerTap Sample.click; ClearReturnTimer;
     Frame 1700000015000] in
  let w :=
    fst (clearReturnTimer
           (run Sample.sinTaylor Sample.cosTaylor Sample.configNoReassemble
              Sample.allHooks Sample.allCallbacks before
              (initialWorld [Sample.atRest] [] 1%positive))) in
  animationState w = EXPLODING
  /\ animationState
       (run Sample.sinTaylor Sample.cosTaylor Sample.configNoReassemble
          Sample.allHooks Sample.allCallbacks after w) = EXPLODING.
Proof.
  cbv zeta. split; [reflexivity|].
  apply (cleared_explosion_never_returns
           Sample.sinTaylor Sample.cosTaylor Sample.configNoReassemble
           Sample.allHooks Sample.allCallbacks
           [PointerTap Sample.click]
           [TimeoutFires 1%positive; PointerDirect Sample.touch;
            Frame 1700000000000; PointerTap Sample.click; ClearReturnTimer;
            Frame 1700000015000]
           [Sample.atRest] [] 1%positive);
    reflexivity.
Defined.

(** X8. After [clearReturnTimer], at any point of a run from the modules
    as loaded: no handle is held, nothing is pending, no timeout fires
    any more, and a second [clearReturnTimer] changes nothing. *)
Theorem clearReturnTimer_cancels_for_good
  (Math_sin Math_cos : float -> float) (CONFIG : Config)
  (acb : AnimationCallbacks) (ecb : EventCallbacks)
  (inputs : list Input) (ps tps : list Particle) (next h : timerId) :
  let w :=
    fst (clearReturnTimer
           (run Math_sin Math_cos CONFIG acb ecb inputs
              (initialWorld ps tps next))) in
  returnTimer w = None
  /\ timeouts w = []
  /\ fireTimeout acb ecb h w = (w, Normal tt)
  /\ clearReturnTimer w = (w, Normal tt).
Proof.
  cbv zeta.
  destruct (clearReturnTimer_clears
              (run Math_sin Math_cos CONFIG acb ecb inputs
                 (initialWorld ps tps next))
              (run_invariant Math_sin Math_cos CONFIG acb ecb inputs _
                 (initialWorld_invariant ps tps next)))
    as [Hrt Hq].
  cbv zeta in Hrt, Hq.
  set (w := fst (clearReturnTimer
                   (run Math_sin Math_cos CONFIG acb ecb inputs
                      (initialWorld ps tps next)))) in *.
  clearbody w.
  repeat split; try assumption.
  - unfold fireTimeout. now rewrite Hq.
  - unfold clearReturnTimer, modify, clearPendingTimer. now rewrite Hrt.
Qed.

(** ** Taps *)

(** A finite double minus itself is zero. *)
Lemma float_sub_diag (a : float) : is_finite a = true -> a - a = 0.
Proof.
  unfold is_finite, is_nan, is_infinity. intros Hfin.
  apply Prim2SF_inj. rewrite FloatAxioms.sub_spec.
  rewrite !FloatAxioms.eqb_spec, FloatAxioms.abs_spec in Hfin.
  unfold SpecFloat.SFeqb in Hfin. rewrite SFcompare_refl in Hfin.
  change (Prim2SF infinity) with (SpecFloat.S754_infinity false) in Hfin.
  change (Prim2SF 0) with (SpecFloat.S754_zero false).
  unfold SF64sub, SpecFloat.SFsub.
  destruct (Prim2SF a) as [s|s| |s m e]; simpl in Hfin; try discriminate.
  - now destruct s.
  - cbv zeta. now rewrite Z.sub_diag.
Qed.

Section TapFacts.

Variable acb : AnimationCallbacks.
Variable ecb : EventCallbacks.
Variable CONFIG : Config.

Lemma handleTouchEnd_without_start e s :
  snd s = None ->
  TapTracking.handleTouchEnd acb ecb CONFIG e s = (s, Normal tt).
Proof.
  intros Hs. unfold TapTracking.handleTouchEnd.
  destruct (inGui (TapTracking.event e)); [reflexivity|].
  unfold bind, get, ret. now rewrite Hs.
Qed.

Lemma handleTouchEnd_clears_start e s :
  inGui (TapTracking.event e) = false ->
  TapTracking.changedTouches e <> [] ->
  snd (fst (TapTracking.handleTouchEnd acb ecb CONFIG e s)) = None.
Proof.
  intros Hgui Hnonempty. unfold TapTracking.handleTouchEnd.
  rewrite Hgui. unfold bind at 1, get.
  destruct (snd s) as [start|] eqn:Hs; [|exact Hs].
  destruct (TapTracking.changedTouches e) as [|endPos rest];
    [now destruct Hnonempty|].
  cbv zeta. unfold bind, modify, ret, onElement.
  match goal with
  | |- context [if ?b then _ else _] => destruct b
  end; cbn [fst snd]; [|reflexivity].
  destruct (EventsTap.triggerExplosion acb ecb CONFIG
              (TapTracking.event e) (fst s)) as [w' c].
  reflexivity.
Qed.

End TapFacts.

(** X9. In the version that tracks taps, a touch that ends where it
    started, at finite coordinates and outside the control panel, does
    what [triggerExplosion] does on the world that the touchstart left
    (the world with its [preventDefault] call), and forgets the start
    position. *)
Theorem stationary_tap_triggers
  (acb : AnimationCallbacks) (ecb : EventCallbacks) (CONFIG : Config)
  (start finish : TapTracking.TouchEvent) (at_ : TapTracking.Touch)
  (others others' : list TapTracking.Touch)
  (w : World) (pos : option Vector2.t) :
  inGui (TapTracking.event start) = false ->
  inGui (TapTracking.event finish) = false ->
  TapTracking.touches start = at_ :: others ->
  TapTracking.changedTouches finish = at_ :: others' ->
  is_finite (TapTracking.clientX at_) = true ->
  is_finite (TapTracking.clientY at_) = true ->
  let triggered :=
    EventsTap.triggerExplosion acb ecb CONFIG (TapTracking.event finish)
      (log CallPreventDefault w) in
  TapTracking.handleTouchEnd acb ecb CONFIG finish
    (fst (TapTracking.handleTouchStart start (w, pos)))
  = ((fst triggered, None), snd triggered).
Proof.
  intros Hgui1 Hgui2 Htouches Hchanged Hx Hy. cbv zeta.
  unfold TapTracking.handleTouchStart, TapTracking.handleTouchEnd.
  rewrite Hgui1, Hgui2, Htouches, Hchanged.
  unfold bind, modify, get, ret, onElement. cbn [fst snd Vector2.x Vector2.y].
  rewrite (float_sub_diag _ Hx), (float_sub_diag _ Hy).
  change (PrimFloat.sqrt (0 * 0 + 0 * 0) <? TapTracking.TAP_THRESHOLD)
    with true.
  cbv iota. cbn [fst snd].
  destruct (EventsTap.triggerExplosion acb ecb CONFIG
              (TapTracking.event finish) (log CallPreventDefault w))
    as [w' c].
  reflexivity.
Qed.

(** X10. A touchend outside the control panel uses up the recorded start
    position, whether it triggers, ignores a drag or throws inside
    [triggerExplosion]; every later touchend without a new touchstart
    changes nothing, so one touchstart yields at most one trigger. *)
Theorem touch_end_consumes_the_start
  (acb : AnimationCallbacks) (ecb : EventCallbacks) (CONFIG : Config)
  (finish later : TapTracking.TouchEvent) (s : TapTracking.State) :
  inGui (TapTracking.event finish) = false ->
  TapTracking.changedTouches finish <> [] ->
  let s' := fst (TapTracking.handleTouchEnd acb ecb CONFIG finish s) in
  snd s' = None
  /\ TapTracking.handleTouchEnd acb ecb CONFIG later s' = (s', Normal tt).
Proof.
  intros Hgui Hnonempty. cbv zeta.
  pose proof (handleTouchEnd_clears_start acb ecb CONFIG finish s
                Hgui Hnonempty) as Hnone.
  split; [exact Hnone|].
  now apply handleTouchEnd_without_start.
Qed.

(** A finger put down and lifted at (120, 340.5) while the tree is idle. *)
Lemma stationary_tap_triggers_witness :
  let w := Sample.world IDLE [Sample.atRest] [] None [] in
  exists w',
    TapTracking.handleTouchEnd Sample.allHooks Sample.allCallbacks
      Sample.config Sample2.touchEnd
      (fst (TapTracking.handleTouchStart Sample2.touchStart (w, None)))
    = ((w', None), Normal tt)
    /\ animationState w' = EXPLODING
    /\ returnTimer w' = Some 8%positive.
Proof.
  cbv zeta. eexists. split.
  - rewrite (stationary_tap_triggers Sample.allHooks Sample.allCallbacks
               Sample.config Sample2.touchStart Sample2.touchEnd
               Sample2.finger [] []
               (Sample.world IDLE [Sample.atRest] [] None []) None
               eq_refl eq_refl eq_refl eq_refl eq_refl eq_refl).
    vm_compute. reflexivity.
  - split; reflexivity.
Defined.

(** The same finger lifted twice. *)
Lemma touch_end_consumes_the_start_witness :
  let w := Sample.world IDLE [Sample.atRest] [] None [] in
  let s :=
    fst (TapTracking.handleTouchEnd Sample.allHooks Sample.allCallbacks
           Sample.config Sample2.touchEnd
           (w, Some (Vector2.make 120 340.5))) in
  animationState (fst s) = EXPLODING
  /\ snd s = None
  /\ TapTracking.handleTouchEnd Sample.allHooks Sample.allCallbacks
       Sample.config Sample2.touchEnd s = (s, Normal tt).
Proof.
  cbv zeta. split; [vm_compute; reflexivity|].
  apply (touch_end_consumes_the_start Sample.allHooks Sample.allCallbacks
           Sample.config Sample2.touchEnd Sample2.touchEnd
           (Sample.world IDLE [Sample.atRest] [] None [],
            Some (Vector2.make 120 340.5))).
  - reflexivity.
  - discriminate.
Defined.

(** ** The resize listener *)

Lemma binary_round_aux_negb s m e l :
  SpecFloat.binary_round_aux prec emax (negb s) m e l
  = SpecFloat.SFopp (SpecFloat.binary_round_aux prec emax s m e l).
Proof.
  unfold SpecFloat.binary_round_aux.
  destruct (SpecFloat.shr_fexp prec emax m e l) as [mrs e'].
  destruct (SpecFloat.shr_fexp prec emax _ e' SpecFloat.loc_Exact)
    as [mrs' e''].
  destruct (SpecFloat.shr_m mrs'); try reflexivity.
  destruct (Z.leb e'' (emax - prec)); reflexivity.
Qed.

(** Dividing by -2 is the opposite of dividing by 2, for every double. *)
Lemma float_div_neg_two (a : float) : a / -2 = - (a / 2).
Proof.
  apply Prim2SF_inj. rewrite FloatAxioms.opp_spec, !FloatAxioms.div_spec.
  change (Prim2SF (-2))
    with (SpecFloat.S754_finite true 4503599627370496 (-51)).
  change (Prim2SF 2)
    with (SpecFloat.S754_finite false 4503599627370496 (-51)).
  unfold SF64div, SpecFloat.SFdiv.
  destruct (Prim2SF a) as [s|s| |s m e]; try reflexivity;
    try (destruct s; reflexivity).
  destruct (SpecFloat.SFdiv_core_binary prec emax (Z.pos m) e _ _)
    as [[mz ez] lz].
  replace (xorb s true) with (negb (xorb s false)) by now destruct s.
  apply binary_round_aux_negb.
Qed.

(** X11. After a resize the orthographic frustum is symmetric, for every
    zoom and every viewport, a degenerate one included: left is the
    opposite of right and bottom the opposite of top, as doubles.  The
    perspective aspect is width over height, renderer and composer have
    the viewport's size, and the other camera fields are untouched; a
    second resize with the same viewport changes nothing. *)
Theorem resize_makes_a_symmetric_frustum
  (isometricZoom innerWidth innerHeight : float) (context : Resize.Context) :
  let after :=
    Resize.resizeListener isometricZoom innerWidth innerHeight context in
  Resize.left (Resize.orthographicCamera after)
  = - Resize.right (Resize.orthographicCamera after)
  /\ Resize.bottom (Resize.orthographicCamera after)
     = - Resize.top (Resize.orthographicCamera after)
  /\ Resize.aspect (Resize.perspectiveCamera after)
     = innerWidth / innerHeight
  /\ Resize.renderer after = (innerWidth, innerHeight)
  /\ Resize.composer after = (innerWidth, innerHeight)
  /\ Resize.fov (Resize.perspectiveCamera after)
     = Resize.fov (Resize.perspectiveCamera context)
  /\ Resize.resizeListener isometricZoom innerWidth innerHeight after
     = after.
Proof.
  cbv zeta. unfold Resize.resizeListener. cbn.
  repeat split; apply float_div_neg_two.
Qed.

(** ** The material cache *)

Section CacheFacts.

Variable Texture : Type.
Variable JSON_stringify : Materials.KeyData -> Materials.string.

Let fetch := Materials.getMaterialFromDefinition Texture JSON_stringify.
Let key := Materials.cacheKey JSON_stringify.

Lemma cacheGet_app (cache more : Materials.Cache Texture) k :
  Materials.cacheGet Texture (cache ++ more) k
  = match Materials.cacheGet Texture cache k with
    | Some material => Some material
    | None => Materials.cacheGet Texture more k
    end.
Proof.
  induction cache as [|[k' material] cache IH]; [reflexivity|].
  cbn [app Materials.cacheGet]. destruct (String.eqb k' k); auto.
Qed.

(** After a call the cache answers the definition's key with the
    material that the call returned. *)
Lemma getMaterialFromDefinition_stores def CONFIG envMap cache :
  Materials.cacheGet Texture (snd (fetch def CONFIG envMap cache))
    (key def CONFIG)
  = Some (fst (fetch def CONFIG envMap cache)).
Proof.
  unfold fetch, key, Materials.getMaterialFromDefinition. cbv zeta.
  destruct (Materials.cacheGet Texture cache
              (Materials.cacheKey JSON_stringify def CONFIG))
    as [material|] eqn:E; cbn [fst snd]; [exact E|].
  rewrite cacheGet_app, E. cbn [Materials.cacheGet].
  now rewrite String.eqb_refl.
Qed.

Lemma getMaterialFromDefinition_hit def CONFIG envMap cache material :
  Materials.cacheGet Texture cache (key def CONFIG) = Some material ->
  fetch def CONFIG envMap cache = (material, cache).
Proof.
  intros E. unfold fetch, Materials.getMaterialFromDefinition. cbv zeta.
  fold (key def CONFIG). now rewrite E.
Qed.

Lemma cacheKey_withType name def CONFIG :
  key (Materials.withType name def) CONFIG = key def CONFIG.
Proof. reflexivity. Qed.

End CacheFacts.

(** X12. [getMaterialFromDefinition] memoises: a second call for the same
    definition returns the material of the first call and leaves the
    cache as the first call left it, whatever environment map it is
    given; a call adds at most one entry and never changes the answer
    of the cache for a key that it answered before. *)
Theorem material_cache_round_trip
  (Texture : Type) (JSON_stringify : Materials.KeyData -> Materials.string)
  (def : Materials.Def) (CONFIG : Materials.MaterialConfig)
  (envMap envMap' : Texture) (cache : Materials.Cache Texture) :
  let first :=
    Materials.getMaterialFromDefinition Texture JSON_stringify
      def CONFIG envMap cache in
  Materials.getMaterialFromDefinition Texture JSON_stringify
    def CONFIG envMap' (snd first) = first
  /\ (length (snd first) <= S (length cache))%nat
  /\ (forall k material,
        Materials.cacheGet Texture cache k = Some material ->
        Materials.cacheGet Texture (snd first) k = Some material).
Proof.
  cbv zeta. split; [|split].
  - rewrite (getMaterialFromDefinition_hit Texture JSON_stringify def CONFIG
               envMap' _ _
               (getMaterialFromDefinition_stores Texture JSON_stringify
                  def CONFIG envMap cache)).
    now destruct (Materials.getMaterialFromDefinition Texture JSON_stringify
                    def CONFIG envMap cache).
  - unfold Materials.getMaterialFromDefinition. cbv zeta.
    destruct (Materials.cacheGet Texture cache _); cbn [snd].
    + lia.
    + rewrite length_app. cbn [length]. lia.
  - intros k material Hk.
    unfold Materials.getMaterialFromDefinition. cbv zeta.
    destruct (Materials.cacheGet Texture cache
                (Materials.cacheKey JSON_stringify def CONFIG));
      cbn [snd]; [exact Hk|].
    now rewrite cacheGet_app, Hk.
Qed.

(** X13. The cache key leaves out the definition's type, on which the
    side of the material depends: once a material has been made for a
    definition, a definition that differs from it in its type only is
    given that same material, with the side of the first definition's
    type, and the cache does not grow. *)
Theorem material_cache_ignores_the_type
  (Texture : Type) (JSON_stringify : Materials.KeyData -> Materials.string)
  (def : Materials.Def) (name : option Materials.string)
  (CONFIG : Materials.MaterialConfig)
  (envMap envMap' : Texture) (cache : Materials.Cache Texture) :
  Materials.cacheGet Texture cache
    (Materials.cacheKey JSON_stringify def CONFIG) = None ->
  let first :=
    Materials.getMaterialFromDefinition Texture JSON_stringify
      def CONFIG envMap cache in
  let second :=
    Materials.getMaterialFromDefinition Texture JSON_stringify
      (Materials.withType name def) CONFIG envMap' (snd first) in
  second = first
  /\ Materials.side (fst second) = Materials.sideOf def.
Proof.
  intros Hmiss. cbv zeta.
  assert (Hsecond :
    Materials.getMaterialFromDefinition Texture JSON_stringify
      (Materials.withType name def) CONFIG envMap'
      (snd (Materials.getMaterialFromDefinition Texture JSON_stringify
              def CONFIG envMap cache))
    = Materials.getMaterialFromDefinition Texture JSON_stringify
        def CONFIG envMap cache).
  { rewrite (getMaterialFromDefinition_hit Texture JSON_stringify
               (Materials.withType name def) CONFIG envMap' _ _
               (getMaterialFromDefinition_stores Texture JSON_stringify
                  def CONFIG envMap cache)).
    now destruct (Materials.getMaterialFromDefinition Texture JSON_stringify
                    def CONFIG envMap cache). }
  split; [exact Hsecond|]. rewrite Hsecond.
  unfold Materials.getMaterialFromDefinition. cbv zeta. rewrite Hmiss.
  cbn [fst]. unfold Materials.newMaterial.
  destruct (Materials.fullMaterialType def); [|reflexivity].
  cbv zeta.
  destruct (match Materials.materialClass _ with
            | Some n => String.eqb n "Physical"%string
            | None => false
            end); [destruct (Materials.performanceMode CONFIG)|];
    reflexivity.
Qed.

(** Snowflakes made first, then stars with the same colours: the stars
    are given the double-sided material of the snowflakes. *)
Lemma material_cache_ignores_the_type_witness :
  let first :=
    Materials.getMaterialFromDefinition nat Sample2.kindOfKey
      Sample2.snowflake Sample2.materialConfig 0%nat [] in
  let second :=
    Materials.getMaterialFromDefinition nat Sample2.kindOfKey
      (Materials.withType (Some "star"%string) Sample2.snowflake)
      Sample2.materialConfig 1%nat (snd first) in
  second = first
  /\ Materials.side (fst second) = Materials.DoubleSide
  /\ Materials.sideOf
       (Materials.withType (Some "star"%string) Sample2.snowflake)
     = Materials.FrontSide.
Proof.
  cbv zeta.
  destruct (material_cache_ignores_the_type nat Sample2.kindOfKey
              Sample2.snowflake (Some "star"%string) Sample2.materialConfig
              0%nat 1%nat [] eq_refl) as [Hsame Hside].
  split; [exact Hsame|]. split; [exact Hside|reflexivity].
Defined.

(** X14. An object definition that does not name a material type is
    given the type 'matte' by [validateAndMergeObjectDef], and then the
    metalness and roughness it states reach neither the cache key nor the
    material: these come from the material defaults, the preset and the
    overrides alone. *)
Theorem untyped_definition_metalness_is_ignored
  (Texture : Type) (JSON_stringify : Materials.KeyData -> Materials.string)
  (objectDef : Materials.ObjectDef) (m r : option float)
  (CONFIG : Materials.MaterialConfig) (envMap : Texture)
  (def : Materials.Def) :
  Materials.materialType objectDef = None ->
  Materials.validateAndMergeObjectDef objectDef = Normal def ->
  exists def',
    Materials.validateAndMergeObjectDef
      (Materials.withMetalnessRoughness m r objectDef) = Normal def'
    /\ Materials.fullMaterialType def' = Some "matte"%string
    /\ Materials.cacheKey JSON_stringify def' CONFIG
       = Materials.cacheKey JSON_stringify def CONFIG
    /\ Materials.newMaterial Texture def' CONFIG envMap
       = Materials.newMaterial Texture def CONFIG envMap.
Proof.
  intros Htype Hvalid.
  unfold Materials.validateAndMergeObjectDef in *.
  cbn [Materials.type Materials.count Materials.withMetalnessRoughness].
  destruct (Materials.type objectDef) as [name|]; [|discriminate].
  destruct (String.eqb name ""%string); [discriminate|].
  destruct (Materials.count objectDef) as [n|]; [|discriminate].
  destruct (n <? 0); [discriminate|].
  injection Hvalid as <-.
  eexists; split; [reflexivity|].
  cbn. rewrite Htype. repeat split.
Qed.

(** The red presents of the configuration, with other values. *)
Lemma untyped_definition_metalness_is_ignored_witness :
  exists def def',
    Materials.validateAndMergeObjectDef Sample2.presents = Normal def
    /\ Materials.validateAndMergeObjectDef
         (Materials.withMetalnessRoughness (Some 1) (Some 0)
            Sample2.presents) = Normal def'
    /\ Materials.newMaterial nat def' Sample2.materialConfig 0%nat
       = Materials.newMaterial nat def Sample2.materialConfig 0%nat
    /\ Materials.mMetalness
         (Materials.newMaterial nat def Sample2.materialConfig 0%nat)
       = Some 0.
Proof.
  destruct (untyped_definition_metalness_is_ignored nat Sample2.kindOfKey
              Sample2.presents (Some 1) (Some 0) Sample2.materialConfig
              0%nat _ eq_refl eq_refl)
    as [def' [Hvalid [_ [_ Hsame]]]].
  eexists. exists def'. split; [reflexivity|].
  split; [exact Hvalid|]. split; [exact Hsame|]. reflexivity.
Defined.

(** ** The explosion and return callbacks take turns *)

Lemma alternating_snoc (l : list Call) :
  forall explosionNext c,
    alternating explosionNext (l ++ [c])
    = alternating explosionNext l
      && (if xorb explosionNext (Nat.odd (length l))
          then isCall_onExplosion c else isCall_onReturn c).
Proof.
  induction l as [|a l IH]; intros b c; cbn [app alternating length].
  - cbn [Nat.odd Nat.even negb]. rewrite xorb_false_r, andb_true_r.
    reflexivity.
  - rewrite IH, Nat.odd_succ, <- Nat.negb_odd, andb_assoc.
    now destruct b, (Nat.odd (length l)).
Qed.

Lemma hookTrace_logAll l w :
  hookTrace (logAll l w)
  = hookTrace w
    ++ filter (fun c => isCall_onExplosion c || isCall_onReturn c) l.
Proof. unfold hookTrace, logAll. cbn [calls]. apply filter_app. Qed.

Lemma turnInvariant_quiet (w w' : World) :
  turnInvariant w ->
  hookTrace w' = hookTrace w ->
  AnimationState_eqb (animationState w') EXPLODING
  = AnimationState_eqb (animationState w) EXPLODING ->
  turnInvariant w'.
Proof.
  unfold turnInvariant. intros [Halt Hodd] -> ->. now split.
Qed.

Lemma turnInvariant_explosion (w w' : World) :
  turnInvariant w ->
  animationState w <> EXPLODING ->
  hookTrace w' = hookTrace w ++ [CallOnExplosion] ->
  animationState w' = EXPLODING ->
  turnInvariant w'.
Proof.
  unfold turnInvariant. intros [Halt Hodd] Hst -> ->.
  rewrite alternating_snoc, Halt, length_app, Nat.add_1_r, Nat.odd_succ,
    <- Nat.negb_odd, Hodd.
  now destruct (animationState w).
Qed.

Lemma turnInvariant_return (w w' : World) :
  turnInvariant w ->
  animationState w = EXPLODING ->
  hookTrace w' = hookTrace w ++ [CallOnReturn] ->
  animationState w' = RETURNING ->
  turnInvariant w'.
Proof.
  unfold turnInvariant. intros [Halt Hodd] Hst -> ->.
  rewrite alternating_snoc, Halt, length_app, Nat.add_1_r, Nat.odd_succ,
    <- Nat.negb_odd, Hodd, Hst. split; reflexivity.
Qed.

Section TurnFacts.

Variables Math_sin Math_cos : float -> float.
Variable CONFIG : Config.
Variable acb : AnimationCallbacks.
Variable ecb : EventCallbacks.

Hypothesis Hget : getAnimationStateFn ecb = true.
Hypothesis Hset : setAnimationStateFn ecb = true.
Hypothesis Hexp : onExplosion ecb = true.
Hypothesis Hret : onReturn ecb = true.

Lemma animate_hookTrace time w :
  hookTrace (fst (animate Math_sin Math_cos CONFIG acb time w))
  = hookTrace w.
Proof.
  rewrite animate_unfold. cbv zeta.
  destruct (animateParticles Math_sin Math_cos CONFIG acb (animationState w)
              time (particles w) (testParticles w))
    as [[ps tps] [allReturned|]]; cbn [fst];
    unfold setAnimationState, hookTrace, frameHookCalls;
    [destruct (AnimationState_eqb (animationState w) RETURNING
               && allReturned),
       (renderShowcaseFn acb), (updateCameraFn acb)|];
    destruct (uncapFPS CONFIG), (updateFpsFn acb),
      (updateParallaxTargetsFn acb && applyParallaxToGroupFn acb),
      (animateShowcaseBoxFn acb
       && match getMouseFn acb with Some _ => true | None => false end
       && getLastMouseMoveTimeFn acb);
    cbn [calls log logAll set_particles set_animationState];
    rewrite ?filter_app; cbn [filter isCall_onExplosion isCall_onReturn orb];
    rewrite ?app_nil_r; reflexivity.
Qed.

Lemma triggerExplosion_fromState_turn w :
  turnInvariant w ->
  turnInvariant (fst (triggerExplosion_fromState acb ecb CONFIG w)).
Proof.
  intros Hturn.
  destruct (animationState w) eqn:Hst.
  - rewrite triggerExplosion_fromState_explodes by auto. cbn [fst].
    apply (turnInvariant_explosion w); try congruence; try reflexivity.
    unfold hookTrace, clearCalls, stateWriteCalls. cbn [calls].
    destruct (returnTimer w), (updateCameraFn acb);
      rewrite !filter_app; cbn [filter isCall_onExplosion isCall_onReturn
                                  orb app]; reflexivity.
  - destruct (reassembleOnClick CONFIG) eqn:Hre.
    + rewrite triggerExplosion_fromState_reassembles by auto. cbn [fst].
      apply (turnInvariant_return w); try assumption; try reflexivity.
      unfold hookTrace, clearCalls, stateWriteCalls. cbn [calls].
      destruct (returnTimer w), (updateCameraFn acb);
        rewrite !filter_app; cbn [filter isCall_onExplosion isCall_onReturn
                                    orb app]; reflexivity.
    + rewrite triggerExplosion_fromState_ignored by auto. exact Hturn.
  - rewrite triggerExplosion_fromState_explodes by auto. cbn [fst].
    apply (turnInvariant_explosion w); try congruence; try reflexivity.
    unfold hookTrace, clearCalls, stateWriteCalls. cbn [calls].
    destruct (returnTimer w), (updateCameraFn acb);
      rewrite !filter_app; cbn [filter isCall_onExplosion isCall_onReturn
                                  orb app]; reflexivity.
Qed.

Lemma logAll_prelude_turn (direct : bool) event w :
  turnInvariant w -> turnInvariant (logAll (preludeCalls direct event) w).
Proof.
  intros Hturn. apply (turnInvariant_quiet w); [exact Hturn| |reflexivity].
  rewrite hookTrace_logAll. unfold preludeCalls.
  destruct (direct && EventType_eqb (type event) touchstart);
    cbn [filter isCall_onExplosion isCall_onReturn orb];
    apply app_nil_r.
Qed.

Lemma fireTimeout_turn h w :
  timerInvariant w -> turnInvariant w ->
  turnInvariant (fst (fireTimeout acb ecb h w)).
Proof.
  intros [_ [Hin Hheld]] Hturn. unfold fireTimeout.
  destruct (existsb (fun t => Pos.eqb (fst t) h) (timeouts w)) eqn:Hpending;
    [|exact Hturn].
  apply existsb_exists in Hpending. destruct Hpending as [[h' d] [Hmem _]].
  destruct (Hheld h' (Hin h' d Hmem)) as [Hst _].
  rewrite returnClosure_returns by auto. cbn [fst].
  apply (turnInvariant_return w); try assumption; try reflexivity.
  unfold hookTrace, stateWriteCalls.
  cbn [calls set_timeouts].
  destruct (updateCameraFn acb);
    rewrite !filter_app; cbn [filter isCall_onExplosion isCall_onReturn
                                orb app]; reflexivity.
Qed.

Lemma clearReturnTimer_turn w :
  turnInvariant w -> turnInvariant (fst (clearReturnTimer w)).
Proof.
  intros Hturn. apply (turnInvariant_quiet w); [exact Hturn| |].
  - destruct w as [st ps tps rt tq nx cl].
    destruct rt; run_events; unfold hookTrace; cbn [calls];
      rewrite ?filter_app; cbn [filter isCall_onExplosion isCall_onReturn
                                  orb]; rewrite ?app_nil_r; reflexivity.
  - now rewrite clearReturnTimer_state.
Qed.

Lemma step_turn i w :
  timerInvariant w -> turnInvariant w ->
  turnInvariant (fst (step Math_sin Math_cos CONFIG acb ecb i w)).
Proof.
  intros Hinv Hturn. unfold step. destruct i as [time|event|event|h|].
  - apply (turnInvariant_quiet w); [exact Hturn| |].
    + apply animate_hookTrace.
    + destruct (animate_frame_effect Math_sin Math_cos CONFIG acb time w)
        as [_ [_ [_ [-> | [-> ->]]]]]; reflexivity.
  - rewrite (triggerExplosion_prelude CONFIG acb ecb true event w).
    destruct (inGui event); [exact Hturn|].
    now apply triggerExplosion_fromState_turn, logAll_prelude_turn.
  - rewrite (triggerExplosion_prelude CONFIG acb ecb false event w).
    destruct (inGui event); [exact Hturn|].
    now apply triggerExplosion_fromState_turn, logAll_prelude_turn.
  - now apply fireTimeout_turn.
  - now apply clearReturnTimer_turn.
Qed.

Lemma run_turn inputs :
  forall w,
    timerInvariant w -> turnInvariant w ->
    turnInvariant (run Math_sin Math_cos CONFIG acb ecb inputs w).
Proof.
  induction inputs as [|i inputs IH]; intros w Hinv Hturn; cbn [run];
    [exact Hturn|].
  apply IH.
  - now apply step_invariant.
  - now apply step_turn.
Qed.

End TurnFacts.

(** X15. With the four callbacks of [initEvents] set, from the modules as
    loaded and whatever inputs run: the calls of [onExplosion] and
    [onReturn] take turns, [onExplosion] first, and the state is
    EXPLODING exactly when the last of them was [onExplosion]. *)
Theorem explosion_and_return_callbacks_alternate
  (Math_sin Math_cos : float -> float) (CONFIG : Config)
  (acb : AnimationCallbacks) (ecb : EventCallbacks)
  (inputs : list Input) (ps tps : list Particle) (next : timerId) :
  getAnimationStateFn ecb = true ->
  setAnimationStateFn ecb = true ->
  onExplosion ecb = true ->
  onReturn ecb = true ->
  let w :=
    run Math_sin Math_cos CONFIG acb ecb inputs (initialWorld ps tps next) in
  alternating true (hookTrace w) = true
  /\ Nat.odd (length (hookTrace w))
     = AnimationState_eqb (animationState w) EXPLODING.
Proof.
  intros Hget Hset Hexp Hret. cbv zeta.
  apply (run_turn Math_sin Math_cos CONFIG acb ecb Hget Hset Hexp Hret).
  - apply initialWorld_invariant.
  - split; reflexivity.
Qed.

(** Two clicks, the second one reassembling, a click while returning, the
    timeout of that third click, and frames in between. *)
Lemma explosion_and_return_callbacks_alternate_witness :
  let inputs :=
    [PointerTap Sample.click; Frame 1700000000000; PointerTap Sample.click;
     PointerDirect Sample.touch; TimeoutFires 1%positive;
     TimeoutFires 2%positive; Frame 1700000015000] in
  let w :=
    run Sample.sinTaylor Sample.cosTaylor Sample.config Sample.allHooks
      Sample.allCallbacks inputs
      (initialWorld [Sample.atRest] [] 1%positive) in
  hookTrace w
  = [CallOnExplosion; CallOnReturn; CallOnExplosion; CallOnReturn]
  /\ alternating true (hookTrace w) = true
  /\ Nat.odd (length (hookTrace w))
     = AnimationState_eqb (animationState w) EXPLODING.
Proof.
  cbv zeta. split; [vm_compute; reflexivity|].
  apply (explosion_and_return_callbacks_alternate
           Sample.sinTaylor Sample.cosTaylor Sample.config Sample.allHooks
           Sample.allCallbacks
           [PointerTap Sample.click; Frame 1700000000000;
            PointerTap Sample.click; PointerDirect Sample.touch;
            TimeoutFires 1%positive; TimeoutFires 2%positive;
            Frame 1700000015000]
           [Sample.atRest] [] 1%positive);
    reflexivity.
Defined.

(** ** The material numbers of a test particle *)

Lemma float_eqb_sym (a b : float) : (a =? b) = (b =? a).
Proof.
  rewrite !FloatAxioms.eqb_spec.
  unfold SFeqb.
  rewrite (SFcompare_antisym (Prim2SF b) (Prim2SF a)).
  destruct (SFcompare (Prim2SF b) (Prim2SF a)) as [[ | | ] | ]; reflexivity.
Qed.

Lemma float_same_or_nan (a : float) : (a =? a) || (is_nan a && is_nan a) = true.
Proof.
  unfold is_nan.
  destruct (a =? a); reflexivity.
Qed.

Lemma reaches_override (given fromPreset default : option float) :
  TestParticles.reaches given
    (TestParticles.coalesce fromPreset default)
    (Materials.later (Materials.later default fromPreset)
       (TestParticles.override given
          (TestParticles.coalesce fromPreset default))) = true.
Proof.
  assert (Husual : Materials.later default fromPreset
                   = TestParticles.coalesce fromPreset default)
    by (destruct fromPreset; reflexivity).
  rewrite Husual.
  destruct given as [v | ];
    destruct (TestParticles.coalesce fromPreset default) as [u | ];
    cbn [TestParticles.override TestParticles.reaches Materials.later].
  - destruct (v =? u) eqn:Hvu;
      cbn [TestParticles.reaches Materials.later].
    + rewrite float_eqb_sym, Hvu.
      reflexivity.
    + apply float_same_or_nan.
  - apply float_same_or_nan.
  - apply float_same_or_nan.
  - reflexivity.
Qed.

Lemma float_eqb_zero_zero (a b : float) :
  (a =? 0) = true -> (a =? b) = true -> (b =? 0) = true.
Proof.
  rewrite !FloatAxioms.eqb_spec.
  change (Prim2SF 0) with (S754_zero false).
  unfold SFeqb.
  destruct (Prim2SF a) as [sa | sa | | sa ma ea],
           (Prim2SF b) as [sb | sb | | sb mb eb];
    cbn [SFcompare]; intros Hzero Hab;
    try discriminate; try reflexivity;
    destruct sa, sb; discriminate.
Qed.

Lemma float_eqb_truthy_eq (a b : float) :
  TestParticles.truthy a = true -> (a =? b) = true -> b = a.
Proof.
  unfold TestParticles.truthy.
  intros Htruthy Hab.
  apply Bool.negb_true_iff, Bool.orb_false_iff in Htruthy.
  destruct Htruthy as [_ Hzero].
  apply Prim2SF_inj.
  rewrite FloatAxioms.eqb_spec in Hab, Hzero.
  change (Prim2SF 0) with (S754_zero false) in Hzero.
  unfold SFeqb in Hab, Hzero.
  destruct (Prim2SF a) as [sa | sa | | sa ma ea],
           (Prim2SF b) as [sb | sb | | sb mb eb];
    cbn [SFcompare] in Hab, Hzero; try discriminate;
    try (destruct sa; discriminate);
    try (destruct sb; discriminate);
    try (destruct sa, sb; try discriminate; reflexivity).
  destruct sa, sb; try discriminate;
    destruct (Z.compare ea eb) eqn:He; try discriminate;
    apply Z.compare_eq in He; subst eb;
    change (Pcompare ma mb Eq) with (Pos.compare ma mb) in Hab;
    destruct (Pos.compare ma mb) eqn:Hm; try discriminate;
    apply Pos.compare_eq in Hm; subst mb; reflexivity.
Qed.

(** What the two spreads of [getMaterialFromDefinition] make of the
    overrides of [createTestParticle], for one material number. *)
Lemma merged_truthy (given fromPreset default : option float) (v : float) :
  given = Some v ->
  TestParticles.truthy v = true ->
  Materials.later (Materials.later default fromPreset)
    (TestParticles.override given
       (TestParticles.coalesce fromPreset default)) = Some v.
Proof.
  intros -> Htruthy.
  assert (Husual : Materials.later default fromPreset
                   = TestParticles.coalesce fromPreset default)
    by (destruct fromPreset; reflexivity).
  rewrite Husual.
  cbn [TestParticles.override].
  destruct (TestParticles.coalesce fromPreset default) as [u | ];
    [ | reflexivity].
  destruct (v =? u) eqn:Hvu; cbn [Materials.later]; [ | reflexivity].
  now rewrite (float_eqb_truthy_eq v u Htruthy Hvu).
Qed.

Lemma merged_falsy (given fromPreset default : option float) (v : float) :
  given = Some v ->
  TestParticles.truthy v = false ->
  exists u,
    Materials.later (Materials.later default fromPreset)
      (TestParticles.override given
         (TestParticles.coalesce fromPreset default)) = Some u
    /\ TestParticles.truthy u = false.
Proof.
  intros -> Hfalsy.
  assert (Husual : Materials.later default fromPreset
                   = TestParticles.coalesce fromPreset default)
    by (destruct fromPreset; reflexivity).
  rewrite Husual.
  cbn [TestParticles.override].
  destruct (TestParticles.coalesce fromPreset default) as [u | ];
    [ | exists v; split; [reflexivity | exact Hfalsy]].
  destruct (v =? u) eqn:Hvu; cbn [Materials.later];
    [ | exists v; split; [reflexivity | exact Hfalsy]].
  exists u. split; [reflexivity | ].
  unfold TestParticles.truthy in *.
  apply Bool.negb_false_iff in Hfalsy.
  apply Bool.negb_false_iff.
  destruct (is_nan v) eqn:Hnan.
  - unfold is_nan in Hnan.
    apply Bool.negb_true_iff in Hnan.
    rewrite FloatAxioms.eqb_spec in Hnan, Hvu.
    unfold SFeqb in Hnan, Hvu.
    destruct (Prim2SF v) as [sv | sv | | sv mv ev];
      cbn [SFcompare] in Hvu; try discriminate.
    + destruct sv; discriminate.
    + destruct sv; cbn [SFcompare] in Hnan;
        rewrite Z.compare_refl in Hnan;
        change (Pcompare mv mv Eq) with (Pos.compare mv mv) in Hnan;
        rewrite Pos.compare_refl in Hnan; discriminate.
  - cbn [orb] in Hfalsy.
    rewrite (float_eqb_zero_zero v u Hfalsy Hvu).
    apply Bool.orb_true_r.
Qed.

Lemma orNumber_truthy (v fallback : float) :
  TestParticles.truthy v = true -> Materials.orNumber (Some v) fallback = v.
Proof.
  unfold TestParticles.truthy, Materials.orNumber.
  intros H. apply Bool.negb_true_iff in H. now rewrite H.
Qed.

Lemma orNumber_falsy (u fallback : float) :
  TestParticles.truthy u = false ->
  Materials.orNumber (Some u) fallback = fallback.
Proof.
  unfold TestParticles.truthy, Materials.orNumber.
  intros H. apply Bool.negb_false_iff in H. now rewrite H.
Qed.

Section TestMaterialFacts.

Variable parseHex : Materials.string -> float.
Variable CONFIG : Materials.MaterialConfig.
Variable config : TestParticles.TestConfig.
Variable name : Materials.string.
Hypothesis Hname : TestParticles.materialType config = Some name.

(** A number that [||] keeps is, as it is, the number of the merged
    properties, guarded by [||] or not. *)
Lemma merged_kept (f : Materials.Props -> option float) (fallback : float) :
  In f [Materials.transmission; Materials.thickness; Materials.roughness;
        Materials.metalness; Materials.clearcoat;
        Materials.clearcoatRoughness; Materials.ior;
        Materials.envMapIntensity] ->
  TestParticles.kept (f (TestParticles.props config))
    (Some (Materials.orNumber
          (f (Materials.materialPropsOf
                (TestParticles.materialDef parseHex CONFIG config)
                CONFIG name))
          fallback))
  /\ TestParticles.replaced (f (TestParticles.props config))
       (Some (Materials.orNumber
          (f (Materials.materialPropsOf
                (TestParticles.materialDef parseHex CONFIG config)
                CONFIG name))
          fallback)) fallback.
Proof.
  intros Hf.
  unfold Materials.materialPropsOf, TestParticles.materialDef,
    TestParticles.materialOverrides.
  cbn [Materials.fullMaterialOverrides].
  rewrite Hname.
  unfold Materials.spread.
  split.
  - intros v Hstated Htruthy.
    cbn [In] in Hf.
    repeat (destruct Hf as [<- | Hf];
            [cbn [Materials.transmission Materials.thickness
                  Materials.roughness Materials.metalness
                  Materials.clearcoat Materials.clearcoatRoughness
                  Materials.ior Materials.envMapIntensity];
             rewrite (merged_truthy _ _ _ v Hstated Htruthy);
             now rewrite orNumber_truthy | ]).
    contradiction.
  - intros v Hstated Hfalsy.
    cbn [In] in Hf.
    repeat (destruct Hf as [<- | Hf];
            [cbn [Materials.transmission Materials.thickness
                  Materials.roughness Materials.metalness
                  Materials.clearcoat Materials.clearcoatRoughness
                  Materials.ior Materials.envMapIntensity];
             match goal with
             | |- context [Materials.later (Materials.later ?d ?p) _] =>
                 destruct (merged_falsy _ p d v Hstated Hfalsy)
                   as [u [-> Hu]]
             end;
             now rewrite orNumber_falsy | ]).
    contradiction.
Qed.

Lemma merged_roughness :
  TestParticles.reaches
    (Materials.roughness (TestParticles.props config))
    (TestParticles.coalesce
       (Materials.roughness
          (Materials.preset (Materials.materialPresets CONFIG) name))
       (Materials.roughness (Materials.materialDefaults CONFIG)))
    (Materials.roughness
       (Materials.materialPropsOf
          (TestParticles.materialDef parseHex CONFIG config) CONFIG name))
  = true.
Proof.
  unfold Materials.materialPropsOf, TestParticles.materialDef,
    TestParticles.materialOverrides.
  cbn [Materials.fullMaterialOverrides].
  rewrite Hname.
  unfold Materials.spread.
  cbn [Materials.roughness].
  apply reaches_override.
Qed.

End TestMaterialFacts.

(** X16. The material that [getMaterialFromDefinition] makes, on a cache
    miss, for a test particle of a group with a material type.  Its
    roughness is the one that the group states (up to the sign of zero),
    or else the preset's, or else the default.  A stated metalness or
    envMapIntensity that is neither zero nor NaN is the material's; a
    stated envMapIntensity of zero or NaN gives 1.0, and a stated
    metalness of zero or NaN gives 0 outside performance mode.  A
    MeshPhysicalMaterial also has the stated transmission, thickness,
    clearcoat, clearcoatRoughness and ior that are neither zero nor NaN,
    and 0, or 1.5 for ior, in the place of one that is; a
    MeshStandardMaterial is given none of these five. *)
Theorem stated_material_numbers_and_the_material
  (Texture : Type) (JSON_stringify : Materials.KeyData -> Materials.string)
  (parseHex : Materials.string -> float)
  (CONFIG : Materials.MaterialConfig)
  (config : TestParticles.TestConfig) (name : Materials.string)
  (envMap : Texture) (cache : Materials.Cache Texture) :
  let def := TestParticles.materialDef parseHex CONFIG config in
  let stated := TestParticles.props config in
  let material :=
    fst (Materials.getMaterialFromDefinition Texture JSON_stringify
           def CONFIG envMap cache) in
  TestParticles.materialType config = Some name ->
  Materials.cacheGet Texture cache
    (Materials.cacheKey JSON_stringify def CONFIG) = None ->
  TestParticles.reaches (Materials.roughness stated)
    (TestParticles.coalesce
       (Materials.roughness
          (Materials.preset (Materials.materialPresets CONFIG) name))
       (Materials.roughness (Materials.materialDefaults CONFIG)))
    (Materials.mRoughness material) = true
  /\ TestParticles.kept (Materials.metalness stated)
       (Materials.mMetalness material)
  /\ (Materials.performanceMode CONFIG = false ->
      TestParticles.replaced (Materials.metalness stated)
        (Materials.mMetalness material) 0)
  /\ TestParticles.kept (Materials.envMapIntensity stated)
       (Materials.mEnvMapIntensity Texture material)
  /\ TestParticles.replaced (Materials.envMapIntensity stated)
       (Materials.mEnvMapIntensity Texture material) 1.0
  /\ match Materials.class material with
     | Materials.MeshPhysicalMaterial =>
         TestParticles.kept (Materials.transmission stated)
           (Materials.mTransmission Texture material)
         /\ TestParticles.replaced (Materials.transmission stated)
              (Materials.mTransmission Texture material) 0
         /\ TestParticles.kept (Materials.thickness stated)
              (Materials.mThickness Texture material)
         /\ TestParticles.replaced (Materials.thickness stated)
              (Materials.mThickness Texture material) 0
         /\ TestParticles.kept (Materials.clearcoat stated)
              (Materials.mClearcoat Texture material)
         /\ TestParticles.replaced (Materials.clearcoat stated)
              (Materials.mClearcoat Texture material) 0
         /\ TestParticles.kept (Materials.clearcoatRoughness stated)
              (Materials.mClearcoatRoughness Texture material)
         /\ TestParticles.replaced (Materials.clearcoatRoughness stated)
              (Materials.mClearcoatRoughness Texture material) 0
         /\ TestParticles.kept (Materials.ior stated)
              (Materials.mIor Texture material)
         /\ TestParticles.replaced (Materials.ior stated)
              (Materials.mIor Texture material) 1.5
     | Materials.MeshStandardMaterial =>
         Materials.mTransmission Texture material = None
         /\ Materials.mThickness Texture material = None
         /\ Materials.mClearcoat Texture material = None
         /\ Materials.mClearcoatRoughness Texture material = None
         /\ Materials.mIor Texture material = None
     end.
Proof.
  intros def stated material Hname Hmiss.
  assert (Hmade :
    material
    = Materials.newMaterial Texture def CONFIG envMap).
  { subst material. unfold Materials.getMaterialFromDefinition.
    cbv zeta. now rewrite Hmiss. }
  assert (Htype : Materials.fullMaterialType def = Some name)
    by exact Hname.
  pose proof (merged_roughness parseHex CONFIG config name Hname)
    as Hrough.
  pose proof (fun f fallback Hf =>
                proj1 (merged_kept parseHex CONFIG config name Hname
                         f fallback Hf)) as Hkept.
  pose proof (fun f fallback Hf =>
                proj2 (merged_kept parseHex CONFIG config name Hname
                         f fallback Hf)) as Hreplaced.
  fold def in Hrough, Hkept, Hreplaced.
  rewrite Hmade.
  unfold Materials.newMaterial.
  rewrite Htype.
  cbv zeta.
  set (merged := Materials.materialPropsOf def CONFIG name) in *.
  destruct (match Materials.materialClass merged with
            | Some name0 => String.eqb name0 "Physical"%string
            | None => false
            end);
    [destruct (Materials.performanceMode CONFIG) | ];
    cbn [Materials.createPhysicalMaterial
         Materials.createPerformanceMaterial
         Materials.createStandardMaterial
         Materials.class Materials.mRoughness Materials.mMetalness
         Materials.mEnvMapIntensity Materials.mTransmission
         Materials.mThickness Materials.mClearcoat
         Materials.mClearcoatRoughness Materials.mIor];
    repeat match goal with
      | |- _ /\ _ => split
      | |- None = None => reflexivity
      | |- TestParticles.reaches _ _ _ = true => exact Hrough
      | |- false = false -> _ => intros _
      | |- true = false -> _ => discriminate
      | |- Materials.performanceMode _ = false -> _ => intros _
      | |- TestParticles.kept _ _ =>
          apply Hkept; cbn [In]; tauto
      | |- TestParticles.replaced _ _ _ =>
          apply Hreplaced; cbn [In]; tauto
      end.
Qed.

(** A glass star that states an ior and an envMapIntensity of zero. *)
Lemma stated_material_numbers_and_the_material_witness :
  let config :=
    {| TestParticles.shape := "star"%string;
       TestParticles.materialType := Some "glass"%string;
       TestParticles.color := "#ffffff"%string;
       TestParticles.emissive := "#000000"%string;
       TestParticles.emissiveIntensity := Some 0;
       TestParticles.props :=
         {| Materials.materialClass := None;
            Materials.transmission := Some 0.9;
            Materials.thickness := None;
            Materials.roughness := Some (-0);
            Materials.metalness := Some nan;
            Materials.clearcoat := Some 0.25;
            Materials.clearcoatRoughness := None;
            Materials.ior := Some 0;
            Materials.envMapIntensity := Some 0 |} |} in
  let def :=
    TestParticles.materialDef (fun _ => 0) Sample2.materialConfig config in
  let material :=
    fst (Materials.getMaterialFromDefinition nat Sample2.kindOfKey
           def Sample2.materialConfig 7%nat []) in
  TestParticles.materialType config = Some "glass"%string
  /\ Materials.cacheGet nat []
       (Materials.cacheKey Sample2.kindOfKey def Sample2.materialConfig)
     = None
  /\ Materials.class material = Materials.MeshPhysicalMaterial
  /\ Materials.mTransmission nat material = Some 0.9
  /\ Materials.mClearcoat nat material = Some 0.25
  /\ Materials.mIor nat material = Some 1.5
  /\ Materials.mEnvMapIntensity nat material = Some 1.0
  /\ Materials.mMetalness material = Some 0.
Proof.
  intros config def material.
  destruct (stated_material_numbers_and_the_material nat Sample2.kindOfKey
              (fun _ => 0) Sample2.materialConfig config "glass"%string
              7%nat [] eq_refl eq_refl)
    as [_ [_ [Hmetal [_ [Henv Hphysical]]]]].
  change (Materials.class
            (fst (Materials.getMaterialFromDefinition nat Sample2.kindOfKey
                    (TestParticles.materialDef (fun _ => 0)
                       Sample2.materialConfig config)
                    Sample2.materialConfig 7%nat [])))
    with Materials.MeshPhysicalMaterial in Hphysical.
  destruct Hphysical
    as [Htrans [_ [_ [_ [Hcoat [_ [_ [_ [_ Hior]]]]]]]]].
  split; [reflexivity | ].
  split; [reflexivity | ].
  split; [reflexivity | ].
  split; [exact (Htrans 0.9 eq_refl eq_refl) | ].
  split; [exact (Hcoat 0.25 eq_refl eq_refl) | ].
  split; [exact (Hior 0 eq_refl eq_refl) | ].
  split; [exact (Henv 0 eq_refl eq_refl) | ].
  exact (Hmetal eq_refl nan eq_refl eq_refl).
Defined.
